(** * dvid-import: slab import tools, embedded and verified

    The repository holds two variants of one command-line tool that loads
    gzip-compressed label slabs and POSTs them to a DVID server:

    - [Tiled]  (src/main.go, "dvid-import"): reads the slab artifact of the
      first source directory that intersects the slab and POSTs it in
      1024 x 1024 x blocksize pieces;
    - [Stitch] (src/unnamed/part_000, "raveler-import"): stitches the planes
      of several source directories into one reused slab buffer and POSTs the
      whole slab.

    Both are embedded as executable functions in a small state-and-exit monad:
    Go [int] is a 64-bit two's complement integer whose wrap-around is written
    out, byte slices are lists of bytes, the calls that leave the process
    (os.Open, gzip, http.Post, fmt.Printf) are recorded in an event log, and
    loops run on fuel. *)

From Stdlib Require Import ZArith List String Ascii Bool Lia.
From Stdlib Require Import Strings.Byte.
From Stdlib Require Import DecimalString Sorted.
Import ListNotations.

Local Open Scope Z_scope.

(* ================================================================== *)
(** ** Go's [int] on a 64-bit target *)

Module GoInt.

Definition min_int : Z := - 2 ^ 63.
Definition max_int : Z := 2 ^ 63 - 1.

(** Two's complement reduction to 64 bits. *)
Definition wrap (z : Z) : Z := (z + 2 ^ 63) mod 2 ^ 64 - 2 ^ 63.

Definition add (a b : Z) : Z := wrap (a + b).
Definition sub (a b : Z) : Z := wrap (a - b).
Definition mul (a b : Z) : Z := wrap (a * b).

Definition in_range (z : Z) : Prop := min_int <= z <= max_int.

End GoInt.

Infix ".+" := GoInt.add (at level 50, left associativity).
Infix ".-" := GoInt.sub (at level 50, left associativity).
Infix ".*" := GoInt.mul (at level 40, left associativity).

(* ================================================================== *)
(** ** Byte slices *)

Definition bytes : Type := list byte.

(** [len(b)] *)
Definition len (b : bytes) : Z := Z.of_nat (List.length b).

(** [make([]byte, n, n)]: panics on a negative length. *)
Definition make (n : Z) : option bytes :=
  if n <? 0 then None else Some (repeat x00 (Z.to_nat n)).

(** [b[lo:hi]]: panics unless [0 <= lo <= hi <= len(b)].  Every slice of the
    programs has its capacity equal to its length ([make] with equal length
    and capacity); the buffer returned by [ioutil.ReadAll] is modelled the
    same way. *)
Definition slice (b : bytes) (lo hi : Z) : option bytes :=
  if (0 <=? lo) && (lo <=? hi) && (hi <=? len b)
  then Some (firstn (Z.to_nat (hi - lo)) (skipn (Z.to_nat lo) b))
  else None.

(** [b] with [src] written over its bytes from index [lo] on. *)
Definition overwrite (b : bytes) (lo : nat) (src : bytes) : bytes :=
  firstn lo b ++ src ++ skipn (lo + List.length src) b.

(** [copy(dst[dlo:dhi], src[slo:shi])]: both slice expressions are evaluated
    (either may panic), then [min] of the two lengths bytes are copied.  The
    result is the updated [dst]. *)
Definition copy (dst : bytes) (dlo dhi : Z) (src : bytes) (slo shi : Z)
  : option bytes :=
  match slice dst dlo dhi with
  | None => None
  | Some d =>
      match slice src slo shi with
      | None => None
      | Some s =>
          Some (overwrite dst (Z.to_nat dlo)
                  (firstn (Nat.min (List.length d) (List.length s)) s))
      end
  end.

(** [for i := range b { b[i] = 0 }] *)
Definition zero_all (b : bytes) : bytes := map (fun _ => x00) b.

(** The byte at index [i], when there is one. *)
Definition byteAt (b : bytes) (i : Z) : option byte :=
  if i <? 0 then None else nth_error b (Z.to_nat i).

(* ================================================================== *)
(** ** Configuration, flags and the environment *)

Module SlabDir.
Record t : Type := mk
  { Path : string; BegZ : Z; EndZ : Z; Template : string }.
End SlabDir.

Module Config.
Record t : Type := mk
  { URI : string;
    SizeX : Z;
    SizeY : Z;
    Thickness : Z;
    BegZ : Z;
    EndZ : Z;
    Directories : list SlabDir.t }.
End Config.

(** The command-line flags [-blocksize] and [-dryrun]. *)
Record Flags : Type := mkFlags { blocksize : Z; dryrun : bool }.

(** What the programs call outside themselves.  [gzip_ReadAll] stands for
    [gzip.NewReader], [ioutil.ReadAll] and [Close] on an opened file;
    [http_Post] gives the response's status code, or [None] when the
    transport itself fails; [fmt_Sprintf] is [fmt.Sprintf] with one [int]
    argument (the directory templates are configuration data). *)
Record Env : Type := mkEnv
  { os_Open : string -> option bytes;
    gzip_ReadAll : bytes -> option bytes;
    http_Post : string -> bytes -> option Z;
    fmt_Sprintf : string -> Z -> string;
    filepath_Join : string -> string -> string }.

Definition StatusOK : Z := 200.

(** [%d] *)
Definition itoa (z : Z) : string := NilZero.string_of_int (Z.to_int z).

(** [fmt.Sprintf("%s/%d_%d_%d", uri, x, y, z)] *)
Definition tile_url (uri : string) (x y z : Z) : string :=
  (uri ++ "/" ++ itoa x ++ "_" ++ itoa y ++ "_" ++ itoa z)%string.

(** The errors [processSlab] returns. *)
Inductive error : Type :=
| OpenError (name : string)
| DecompressionError
| SizeMismatch (expected got : Z)
| TransportError (url : string)
| BadStatus (url : string) (code : Z).

(** The lines written with [fmt.Printf]. *)
Inductive msg : Type :=
| NoDirectories
| HelpMessage
| ThicknessMismatch (blocksize thickness : Z)
| NotInOrder (path : string) (begZ maxZ : Z)
| BadZRange (path : string) (begZ endZ : Z)
| SlabError (slabBegZ : Z) (e : error)
| ProcessingSlab (slabBegZ : Z)
| GettingData (begZ endZ : Z) (filename : string)
| Posting (url : string)
| SendingData (url : string)
| Transferring (volZ zfilled : Z)
| FilledBytebuf.

(** What the process does to the outside, in order. *)
Inductive event : Type :=
| Printf (m : msg)
| Open (name : string)
| Post (url : string) (body : bytes).

(* ================================================================== *)
(** ** Statements with early exit *)

(** How a statement ends: it falls through to the next one, the enclosing
    function returns ([return nil] is [Return None]), the process exits,
    a run-time panic, or the model's loop bound is used up. *)
Inductive res (A : Type) : Type :=
| Next (a : A)
| Return (e : option error)
| Exit (code : Z)
| Panic
| OutOfFuel.

Arguments Next {A} a.
Arguments Return {A} e.
Arguments Exit {A} code.
Arguments Panic {A}.
Arguments OutOfFuel {A}.

(** The mutable state: the byte buffer named [bytebuf] in both programs and
    the events so far. *)
Record Store : Type := mkStore { bytebuf : bytes; out : list event }.

Definition M (A : Type) : Type := Store -> res A * Store.

Definition ret {A} (a : A) : M A := fun s => (Next a, s).

Definition bind {A B} (m : M A) (f : A -> M B) : M B :=
  fun s =>
    match m s with
    | (Next a, s') => f a s'
    | (Return e, s') => (Return e, s')
    | (Exit c, s') => (Exit c, s')
    | (Panic, s') => (Panic, s')
    | (OutOfFuel, s') => (OutOfFuel, s')
    end.

Notation "x <- m ;; k" := (bind m (fun x => k))
  (at level 61, m at next level, right associativity).
Notation "m ;; k" := (bind m (fun _ => k))
  (at level 61, right associativity).

Definition stop {A} (r : res A) : M A := fun s => (r, s).
Definition return_ {A} (e : option error) : M A := stop (Return e).
Definition exit {A} (code : Z) : M A := stop (Exit code).
Definition panic {A} : M A := stop Panic.

Definition emit (e : event) : M unit :=
  fun s => (Next tt, mkStore (bytebuf s) (out s ++ [e])).
Definition printf (m : msg) : M unit := emit (Printf m).

Definition get_bytebuf : M bytes := fun s => (Next (bytebuf s), s).

(** A statement that writes [bytebuf] ([make], [copy] into it, zeroing):
    [f] gives the new contents from the old, or [None] when the statement
    panics. *)
Definition update_bytebuf (f : bytes -> option bytes) : M unit :=
  fun s =>
    match f (bytebuf s) with
    | Some b => (Next tt, mkStore b (out s))
    | None => (Panic, s)
    end.

(** [for i := i0; cond(i); i = step(i) { a = body(i, a) }], where [a] holds
    the variables the loop updates. *)
Fixpoint for_ {A} (fuel : nat) (cond : Z -> bool) (step : Z -> Z)
  (body : Z -> A -> M A) (i : Z) (a : A) : M A :=
  if cond i then
    match fuel with
    | O => stop OutOfFuel
    | S fuel' => a' <- body i a ;; for_ fuel' cond step body (step i) a'
    end
  else ret a.

(** [for _, x := range xs { a = body(x, a) }] *)
Fixpoint forEach {X A} (xs : list X) (body : X -> A -> M A) (a : A) : M A :=
  match xs with
  | [] => ret a
  | x :: xs' => a' <- body x a ;; forEach xs' body a'
  end.

(* ================================================================== *)
(** ** Calls outside the process *)

Section Calls.
Variable env : Env.

(** [os.Open(filename)], with its error returned to the caller. *)
Definition open (filename : string) : M bytes :=
  emit (Open filename) ;;
  match os_Open env filename with
  | Some f => ret f
  | None => return_ (Some (OpenError filename))
  end.

(** [gzip.NewReader(f)], [ioutil.ReadAll(gr)], [gr.Close()]: any error of
    the three is returned to the caller. *)
Definition gunzip (f : bytes) : M bytes :=
  match gzip_ReadAll env f with
  | Some data => ret data
  | None => return_ (Some DecompressionError)
  end.

(** [http.Post(url, "application/octet-stream", body)] followed by the
    two checks on its result. *)
Definition post (url : string) (body : bytes) : M unit :=
  emit (Post url body) ;;
  match http_Post env url body with
  | None => return_ (Some (TransportError url))
  | Some code =>
      if code =? StatusOK then ret tt
      else return_ (Some (BadStatus url code))
  end.
End Calls.

(* ================================================================== *)
(** ** What both [main] functions share *)

(** A call of a function that returns [error]: the callee's [return] gives
    the caller its result. *)
Definition call (m : M unit) : M (option error) :=
  fun s =>
    match m s with
    | (Next _, s') => (Next None, s')
    | (Return e, s') => (Next e, s')
    | (Exit c, s') => (Exit c, s')
    | (Panic, s') => (Panic, s')
    | (OutOfFuel, s') => (OutOfFuel, s')
    end.

(** One round of the loop that checks the directories' Z ranges
    (src/main.go lines 143-150, part_000 lines 140-147): from the [maxZ]
    before the directory to the one after it. *)
Definition checkDirectory (dir : SlabDir.t) (maxZ : Z) : M Z :=
  (if SlabDir.BegZ dir <=? maxZ
   then
     printf (NotInOrder (SlabDir.Path dir) (SlabDir.BegZ dir) maxZ) ;;
     exit 1
   else ret tt) ;;
  (if SlabDir.EndZ dir <=? SlabDir.BegZ dir
   then printf (BadZRange (SlabDir.Path dir) (SlabDir.BegZ dir)
                  (SlabDir.EndZ dir))
   else ret tt) ;;
  ret (SlabDir.EndZ dir).

(** [maxZ := 0] and the loop; the result is the last [maxZ]. *)
Definition checkDirectories (dirs : list SlabDir.t) : M Z :=
  forEach dirs checkDirectory 0.

(** Everything [main] checks before the first slab (the same lines in both
    programs). *)
Definition validate (flags : Flags) (config : Config.t) : M unit :=
  (if Z.of_nat (List.length (Config.Directories config)) <? 1
   then printf NoDirectories ;; printf HelpMessage ;; exit 1
   else ret tt) ;;
  (if negb (Config.Thickness config =? blocksize flags)
   then
     printf (ThicknessMismatch (blocksize flags) (Config.Thickness config)) ;;
     exit 1
   else ret tt) ;;
  checkDirectories (Config.Directories config) ;;
  ret tt.

(** The loop over the slabs. *)
Definition slabLoop (flags : Flags) (fuel : nat) (config : Config.t)
  (processSlab : Z -> M unit) : M unit :=
  for_ fuel (fun slabBegZ => slabBegZ <=? Config.EndZ config)
    (fun slabBegZ => slabBegZ .+ blocksize flags)
    (fun slabBegZ _ =>
       err <- call (processSlab slabBegZ) ;;
       match err with
       | Some e => printf (SlabError slabBegZ e) ;; exit 1
       | None => ret tt
       end)
    (Config.BegZ config) tt.

(* ================================================================== *)
(** ** The tiling loops (src/main.go, lines 209-224) *)

(** The two nested loops over the XY extent with their clipping of the last
    row band and the last column: [body ox oy span endY a] stands for the loop
    body after line 222, where [span] is still counted in voxels.  [a] holds
    what the body updates. *)
Definition forTiles {A} (fuel : nat) (sendSize extentX extentY : Z)
  (body : Z -> Z -> Z -> Z -> A -> M A) (a : A) : M A :=
  for_ fuel (fun oy => oy <? extentY) (fun oy => oy .+ sendSize)
    (fun oy a =>
       let endY := oy .+ sendSize in
       let endY := if endY >? extentY then extentY else endY in
       for_ fuel (fun ox => ox <? extentX) (fun ox => ox .+ sendSize)
         (fun ox a =>
            let span := sendSize in
            let endX := ox .+ sendSize in
            let span :=
              if endX >? extentX
              then span .- (ox .+ sendSize .- extentX)
              else span in
            body ox oy span endY a)
         0 a)
    0 a.

(** A tile of the grid: origin and extent in voxels. *)
Record Tile : Type := mkTile { ox : Z; oy : Z; width : Z; height : Z }.

(** The tiles the loops visit when every body falls through: the grid that
    the spec calls [tileGrid(extentX, extentY, maxEdge)].  [None] when the
    loops do not end within [fuel] rounds each. *)
Definition tileGrid (fuel : nat) (extentX extentY maxEdge : Z)
  : option (list Tile) :=
  match
    forTiles fuel maxEdge extentX extentY
      (fun ox oy span endY acc => ret (acc ++ [mkTile ox oy span (endY - oy)]))
      [] (mkStore [] [])
  with
  | (Next ts, _) => Some ts
  | _ => None
  end.

(* ================================================================== *)
(** ** src/main.go: one source per slab, POSTed in tiles *)

Module Tiled.
Section Tiled.
Variable env : Env.
Variable flags : Flags.
Variable fuel : nat.

Definition sendSize : Z := 1024.

(** Lines 229-231: [span] bytes of row [sy] of plane [sz] go from the slab
    to the POST buffer. *)
Definition copyRow (config : Config.t) (data : bytes) (span sz sy : Z)
  : M unit :=
  let xBytes := Config.SizeX config .* 8 in
  let xyBytes := xBytes .* Config.SizeY config in
  let sxBytes := sendSize .* 8 in
  let sxyBytes := sxBytes .* sendSize in
  let si := sz .* xyBytes .+ sy .* xBytes in
  let bi := sz .* sxyBytes .+ sy .* sxBytes in
  update_bytebuf (fun b => copy b bi (bi .+ span) data si (si .+ span)).

(** Lines 225-246: what is done for the tile at [(ox, oy)]. *)
Definition sendTile (config : Config.t) (slabBegZ : Z) (data : bytes)
  (ox oy span endY : Z) : M unit :=
  let sxBytes := sendSize .* 8 in
  let sxyBytes := sxBytes .* sendSize in
  let sxyzBytes := sxyBytes .* blocksize flags in
  let url := tile_url (Config.URI config) ox oy slabBegZ in
  let span := span .* 8 in
  update_bytebuf (fun _ => make sxyzBytes) ;;
  for_ fuel (fun sz => sz <? blocksize flags) (fun sz => sz .+ 1)
    (fun sz _ =>
       for_ fuel (fun sy => sy <? endY) (fun sy => sy .+ 1)
         (fun sy _ => copyRow config data span sz sy)
         oy tt)
    0 tt ;;
  printf (Posting url) ;;
  (if dryrun flags then ret tt
   else b <- get_bytebuf ;; post env url b) ;;
  return_ None.

(** Lines 177-248: the body of the loop over the directories. *)
Definition slabFromDir (config : Config.t) (slabBegZ : Z)
  (dir : SlabDir.t) : M unit :=
  let slabEndZ := slabBegZ .+ blocksize flags .- 1 in
  let xBytes := Config.SizeX config .* 8 in
  let xyBytes := xBytes .* Config.SizeY config in
  let xyzBytes := xyBytes .* blocksize flags in
  if (slabBegZ >? SlabDir.EndZ dir) || (slabEndZ <? SlabDir.BegZ dir)
  then ret tt
  else
    let filename :=
      filepath_Join env (SlabDir.Path dir)
        (fmt_Sprintf env (SlabDir.Template dir) slabBegZ) in
    printf (GettingData slabBegZ slabEndZ filename) ;;
    f <- open env filename ;;
    data <- gunzip env f ;;
    if negb (len data =? xyzBytes)
    then return_ (Some (SizeMismatch xyzBytes (len data)))
    else
      forTiles fuel sendSize (Config.SizeX config) (Config.SizeY config)
        (fun ox oy span endY _ =>
           sendTile config slabBegZ data ox oy span endY)
        tt.

Definition processSlab (config : Config.t) (slabBegZ : Z) : M unit :=
  printf (ProcessingSlab slabBegZ) ;;
  forEach (Config.Directories config)
    (fun dir _ => slabFromDir config slabBegZ dir) tt ;;
  return_ None.

(** [main], from the point where the flags are parsed and the
    configuration is read. *)
Definition main (config : Config.t) : M unit :=
  validate flags config ;;
  slabLoop flags fuel config (processSlab config).

End Tiled.
End Tiled.

(* ================================================================== *)
(** ** src/unnamed/part_000: planes of several sources stitched into one slab *)

Module Stitch.
Section Stitch.
Variable env : Env.
Variable flags : Flags.
Variable fuel : nat.

(** [fmt.Sprintf("%s/0_0_%d", config.URI, slabBegZ)] *)
Definition slab_url (config : Config.t) (slabBegZ : Z) : string :=
  (Config.URI config ++ "/0_0_" ++ itoa slabBegZ)%string.

(** Line 165: the bytes of one Z-plane. *)
Definition sliceBytes (config : Config.t) : Z :=
  Config.SizeX config .* Config.SizeY config .* 8.

(** Lines 226-231: the planes [begZ..endZ] of [data] go into [bytebuf];
    the result is the updated count of filled planes. *)
Definition transferPlanes (slabBegZ sliceBytes : Z) (data : bytes)
  (begZ endZ zfilled : Z) : M Z :=
  for_ fuel (fun volZ => volZ <=? endZ) (fun volZ => volZ .+ 1)
    (fun volZ zfilled =>
       let zfilled := zfilled .+ 1 in
       printf (Transferring volZ zfilled) ;;
       let z := (volZ .- slabBegZ) .* sliceBytes in
       update_bytebuf
         (fun b => copy b z (z .+ sliceBytes) data z (z .+ sliceBytes)) ;;
       ret zfilled)
    begZ zfilled.

(** Lines 172-246: the body of the loop over the directories, from the
    count of planes filled so far to the new count. *)
Definition stitchDir (config : Config.t) (slabBegZ : Z)
  (dir : SlabDir.t) (zfilled : Z) : M Z :=
  let sliceBytes := sliceBytes config in
  let slabEndZ := slabBegZ .+ blocksize flags .- 1 in
  let url := slab_url config slabBegZ in
  let begZ := slabBegZ in
  let endZ := slabEndZ in
  if (begZ >? SlabDir.EndZ dir) || (endZ <? SlabDir.BegZ dir)
  then ret zfilled
  else
    let begZ := if begZ <? SlabDir.BegZ dir then SlabDir.BegZ dir else begZ in
    let endZ := if endZ >? SlabDir.EndZ dir then SlabDir.EndZ dir else endZ in
    let filename := fmt_Sprintf env (SlabDir.Template dir) slabBegZ in
    printf (GettingData begZ endZ filename) ;;
    f <- open env filename ;;
    if (begZ =? slabBegZ) && (endZ =? slabEndZ)
    then
      printf (SendingData url) ;;
      (if dryrun flags then ret tt else post env url f) ;;
      return_ None
    else
      data <- gunzip env f ;;
      if negb (len data =? sliceBytes .* blocksize flags)
      then
        return_ (Some (SizeMismatch (sliceBytes .* blocksize flags) (len data)))
      else
        zfilled <- transferPlanes slabBegZ sliceBytes data begZ endZ zfilled ;;
        if zfilled =? blocksize flags
        then
          printf FilledBytebuf ;;
          (if dryrun flags then ret tt
           else b <- get_bytebuf ;; post env url b) ;;
          return_ None
        else ret zfilled.

(** [processSlab(config, bytebuf, slabBegZ)]: [bytebuf] is the caller's
    slice, so the store's buffer is the one written. *)
Definition processSlab (config : Config.t) (slabBegZ : Z) : M unit :=
  update_bytebuf (fun b => Some (zero_all b)) ;;
  forEach (Config.Directories config) (stitchDir config slabBegZ) 0 ;;
  return_ None.

(** [main], from the point where the flags are parsed and the
    configuration is read. *)
Definition main (config : Config.t) : M unit :=
  validate flags config ;;
  update_bytebuf
    (fun _ => make (Config.SizeX config .* Config.SizeY config
                    .* Config.Thickness config .* 8)) ;;
  slabLoop flags fuel config (processSlab config).

End Stitch.
End Stitch.

(** The store a process starts with. *)
Definition start : Store := mkStore [] [].

(* ================================================================== *)
(** ** Notions the statements use *)

Definition wp {A} (m : M A) (Q : res A -> Store -> Prop) (s : Store) : Prop :=
  Q (fst (m s)) (snd (m s)).

(** The postcondition of a statement that is followed by more: a result that
    falls through must satisfy [k], any other ends the whole under [Q]. *)
Definition after {A B} (Q : res B -> Store -> Prop) (k : A -> Store -> Prop)
  : res A -> Store -> Prop :=
  fun r s =>
    match r with
    | Next a => k a s
    | Return e => Q (Return e) s
    | Exit c => Q (Exit c) s
    | Panic => Q Panic s
    | OutOfFuel => Q OutOfFuel s
    end.

(** [n] values from [i0] on, [d] apart. *)
Definition steps (i0 d : Z) (n : nat) : list Z :=
  map (fun k => i0 + Z.of_nat k * d) (seq 0 n).

(** Rounds of a loop [for o := 0; o < extent; o += maxEdge]. *)
Definition rounds (maxEdge extent : Z) : nat :=
  Z.to_nat ((extent + maxEdge - 1) / maxEdge).

(** The tile with origin [(x, y)]: clipped to what remains of the extent. *)
Definition tileAt (extentX extentY maxEdge x y : Z) : Tile :=
  mkTile x y (Z.min maxEdge (extentX - x)) (Z.min maxEdge (extentY - y)).

(** The grid, one band of [y] after the other. *)
Definition grid (extentX extentY maxEdge : Z) : list Tile :=
  flat_map
    (fun y => map (fun x => tileAt extentX extentY maxEdge x y)
                (steps 0 maxEdge (rounds maxEdge extentX)))
    (steps 0 maxEdge (rounds maxEdge extentY)).


(** The voxel column [(x, y)] lies in the tile. *)
Definition covers (t : Tile) (x y : Z) : Prop :=
  ox t <= x < ox t + width t /\ oy t <= y < oy t + height t.

(** Row-major order of tile origins: by [oy] first, then by [ox]. *)
Definition rowMajor (t1 t2 : Tile) : Prop :=
  oy t1 < oy t2 \/ (oy t1 = oy t2 /\ ox t1 < ox t2).

(* ================================================================== *)
(** ** An environment for the examples *)

(** [fmt.Sprintf] on a template whose only verb is one [%d]. *)
Fixpoint exampleSprintf (template : string) (z : Z) : string :=
  match template with
  | String "%" (String "d" rest) => (itoa z ++ rest)%string
  | String c rest => String c (exampleSprintf rest z)
  | EmptyString => EmptyString
  end.

(** [filepath.Join] on two clean, non-empty elements. *)
Definition exampleJoin (dir name : string) : string :=
  (dir ++ "/" ++ name)%string.

(** A stand-in for gzip: a file is the two magic bytes followed by the
    bytes it decompresses to. *)
Definition stored (payload : bytes) : bytes := x1f :: x8b :: payload.

Definition exampleGunzip (f : bytes) : option bytes :=
  match f with
  | x1f :: x8b :: payload => Some payload
  | _ => None
  end.

Fixpoint lookup (files : list (string * bytes)) (name : string)
  : option bytes :=
  match files with
  | [] => None
  | (n, f) :: rest => if String.eqb n name then Some f else lookup rest name
  end.

(** The given files, and a server that answers every POST with 200. *)
Definition exampleEnv (files : list (string * bytes)) : Env :=
  mkEnv (lookup files) exampleGunzip (fun _ _ => Some StatusOK)
    exampleSprintf exampleJoin.

(** The events of a run that are POSTs. *)
Definition posts (evs : list event) : list (string * bytes) :=
  flat_map (fun e => match e with Post u b => [(u, b)] | _ => [] end) evs.

(** The file names of a run's [os.Open] calls. *)
Definition opens (evs : list event) : list string :=
  flat_map (fun e => match e with Open n => [n] | _ => [] end) evs.

(** The checks of the directories pass exactly when every [BegZ] is above
    the [EndZ] before it (above [maxZ] for the first). *)
Fixpoint inOrder (maxZ : Z) (dirs : list SlabDir.t) : Prop :=
  match dirs with
  | [] => True
  | d :: rest => maxZ < SlabDir.BegZ d /\ inOrder (SlabDir.EndZ d) rest
  end.

(** [s'] differs from [s] by printed lines only. *)
Definition sameIO (s s' : Store) : Prop :=
  bytebuf s' = bytebuf s /\ posts (out s') = posts (out s) /\
  opens (out s') = opens (out s).

(** A statement keeps the property [I] of the store, however it ends. *)
Definition inv {A} (I : Store -> Prop) (m : M A) : Prop :=
  forall s, I s -> I (snd (m s)).



(** A statement POSTs nothing, or POSTs once and does not fall through to
    the statement after it. *)
Definition sendsOnce {A} (m : M A) : Prop :=
  forall s,
    posts (out (snd (m s))) = posts (out s)
    \/ ((forall a, fst (m s) <> Next a)
        /\ exists p, posts (out (snd (m s))) = posts (out s) ++ [p]).

(* ================================================================== *)
(** ** Configurations of the examples *)

Definition eightBytes : bytes := [x01; x02; x03; x04; x05; x06; x07; x08].

(** One voxel column, slabs one plane thick. *)
Definition flagsOne : Flags := mkFlags 1 false.

(** A single directory whose range ends where it begins. *)
Definition badRangeConfig : Config.t :=
  Config.mk "http://dvid" 1 1 1 3 3 [SlabDir.mk "in" 3 3 "s%d.gz"].

(** The artifact of slab 3, in the working directory only. *)
Definition cwdEnv : Env := exampleEnv [("s3.gz"%string, stored eightBytes)].

(** The artifact of slab 3, in the working directory and under [in]. *)
Definition badRangeEnv : Env :=
  exampleEnv [("s3.gz"%string, stored eightBytes);
              ("in/s3.gz"%string, stored eightBytes)].

(** The second directory begins below 1, after a first one that ends below
    where it begins. *)
Definition negativeConfig : Config.t :=
  Config.mk "http://dvid" 1 1 1 0 0
    [SlabDir.mk "a" 1 (-5) "a%d.gz"; SlabDir.mk "b" (-3) 2 "b%d.gz"].

(** An XY extent of two tiles, 1024 and 1 voxels wide: a volume of the one
    slab at plane 1, with the slab's artifact of [1025 * 1 * 8 * 1] bytes in
    place. *)
Definition twoTileConfig : Config.t :=
  Config.mk "http://dvid" 1025 1 1 1 1 [SlabDir.mk "in" 1 2 "s%d.gz"].

Definition twoTileData : bytes := repeat x2a (Z.to_nat 8200).

Definition twoTileEnv : Env :=
  exampleEnv [("in/s1.gz"%string, stored twoTileData)].

(** Slabs of two planes; the only directory begins at plane 1. *)
Definition flagsTwo : Flags := mkFlags 2 false.

Definition partialConfig : Config.t :=
  Config.mk "http://dvid" 1 1 2 0 1 [SlabDir.mk "in" 1 5 "s%d.gz"].

Definition partialEnv : Env :=
  exampleEnv [("s0.gz"%string, stored (eightBytes ++ eightBytes))].

(** The artifact of the only directory decompresses to one byte, where
    [1 * 1 * 8 * 1] are expected. *)
Definition shortEnv : Env := exampleEnv [("s3.gz"%string, stored [x2a])].

Definition fullCoverConfig : Config.t :=
  Config.mk "http://dvid" 1 1 1 3 3 [SlabDir.mk "in" 1 9 "s%d.gz"].

(** Artifacts of eight bytes where slabs of two planes need sixteen. *)
Definition halfEnv : Env :=
  exampleEnv [("s0.gz"%string, stored eightBytes);
              ("in/s0.gz"%string, stored eightBytes)].


(** The POST buffer of the tile at the origin, [w] voxels wide and [h] rows
    high, cut from the slab [data] of extent [X] by [Y]: its length is that
    of a full 1024 x 1024 x [bs] tile, its rows are 8192 bytes apart and
    its planes 8388608, each row begins with the [w * 8] bytes of the slab's
    row, and every other byte is zero. *)
Definition isTileBuffer (X Y bs w h : Z) (data b : bytes) : Prop :=
  len b = 8388608 * bs
  /\ (forall sz sy k,
        0 <= sz < bs -> 0 <= sy < h -> 0 <= k < w * 8 ->
        byteAt b (sz * 8388608 + sy * 8192 + k)
        = byteAt data (sz * (X * 8 * Y) + sy * (X * 8) + k))
  /\ (forall i,
        0 <= i < 8388608 * bs ->
        (forall sz sy, 0 <= sz < bs -> 0 <= sy < h ->
           ~ sz * 8388608 + sy * 8192 <= i < sz * 8388608 + sy * 8192 + w * 8) ->
        byteAt b i = Some x00).

(** What [processSlab] returns after a POST. *)
Definition postResult (env : Env) (url : string) (body : bytes)
  : option error :=
  match http_Post env url body with
  | None => Some (TransportError url)
  | Some code => if code =? StatusOK then None else Some (BadStatus url code)
  end.

(** A volume of a single voxel, at plane 1, with its artifact in place. *)
Definition oneVoxelConfig : Config.t :=
  Config.mk "http://dvid" 1 1 1 1 1 [SlabDir.mk "in" 1 2 "s%d.gz"].

Definition oneVoxelEnv : Env :=
  exampleEnv [("in/s1.gz"%string, stored eightBytes)].
(* ================================================================== *)
(** ** Further notions *)

(** The bad-range lines the checks print: one for each directory whose
    range ends at or before its beginning. *)
Definition badRangeLines (dirs : list SlabDir.t) : list event :=
  flat_map
    (fun d =>
       if SlabDir.EndZ d <=? SlabDir.BegZ d
       then [Printf (BadZRange (SlabDir.Path d) (SlabDir.BegZ d)
                       (SlabDir.EndZ d))]
       else [])
    dirs.

(** Two directories, planes 1 to 4 and 5 to 8, for slabs of two planes. *)
Definition twoRangeConfig : Config.t :=
  Config.mk "http://dvid" 1 1 2 1 8
    [SlabDir.mk "a" 1 4 "a%d.gz"; SlabDir.mk "b" 5 8 "b%d.gz"].

(** The events of a run other than its POSTs. *)
Definition withoutPosts (evs : list event) : list event :=
  filter (fun e => match e with Post _ _ => false | _ => true end) evs.

(** Two stores with the same buffer whose events differ by POSTs only. *)
Definition agree (s1 s2 : Store) : Prop :=
  bytebuf s1 = bytebuf s2 /\ withoutPosts (out s1) = withoutPosts (out s2).

(** From stores that agree, two statements end the same way in stores that
    agree. *)
Definition sim {A} (m1 m2 : M A) : Prop :=
  forall s1 s2, agree s1 s2 ->
    fst (m1 s1) = fst (m2 s2) /\ agree (snd (m1 s1)) (snd (m2 s2)).

(** [-blocksize 1 -dryrun] *)
Definition flagsDry : Flags := mkFlags 1 true.

(** A statement adds events to the log, and either none of them is a POST,
    or the last one is the only POST and the statement does not fall through
    to the one after it. *)
Definition postsLast {A} (m : M A) : Prop :=
  forall s, exists evs,
    out (snd (m s)) = out s ++ evs
    /\ (posts evs = []
        \/ ((forall a, fst (m s) <> Next a)
            /\ exists evs' url body,
                 evs = evs' ++ [Post url body] /\ posts evs' = [])).

(** A statement that never falls through to the one after it. *)
Definition noNext {A} (m : M A) : Prop :=
  forall s a, fst (m s) <> Next a.

(** The test of src/main.go line 177 and part_000 line 174: the directory's
    range does not meet the slab's window. *)
Definition misses (flags : Flags) (slabBegZ : Z) (dir : SlabDir.t) : bool :=
  (slabBegZ >? SlabDir.EndZ dir)
  || (slabBegZ .+ blocksize flags .- 1 <? SlabDir.BegZ dir).

(** Files for the slab at plane 4 that are not gzip data. *)
Definition brokenEnv : Env :=
  exampleEnv [("a4.gz"%string, [x2a]); ("a/a4.gz"%string, [x2a])].

(** The artifacts of the slab at plane 4 in the working directory, one for
    each of the two directories that the slab straddles: sixteen bytes of
    [0x11] and sixteen of [0x22]. *)
Definition straddleArt (d : SlabDir.t) : bytes :=
  if String.eqb (SlabDir.Path d) "a" then repeat x11 16 else repeat x22 16.

Definition straddleEnv : Env :=
  exampleEnv [("a4.gz"%string, stored (repeat x11 16));
              ("b4.gz"%string, stored (repeat x22 16))].

(** From a store that satisfies [I] the statement falls through or returns:
    it neither panics, nor runs out of fuel, nor exits; and [I] holds of
    the store it leaves. *)
Definition completes {A} (I : Store -> Prop) (m : M A) : Prop :=
  forall s, I s ->
    I (snd (m s))
    /\ ((exists a, fst (m s) = Next a) \/ (exists e, fst (m s) = Return e)).

(** The first planes of the slabs that [main] processes: [BegZ],
    [BegZ + blocksize], ... as long as they do not exceed [EndZ]. *)
Definition slabStarts (flags : Flags) (config : Config.t) : list Z :=
  steps (Config.BegZ config) (blocksize flags)
    (Z.to_nat ((Config.EndZ config - Config.BegZ config + blocksize flags)
               / blocksize flags)).

(** What [main] does with one slab (the body of the loop of src/main.go
    lines 154-159 and part_000 lines 152-157). *)
Definition slabStep (processSlab : Z -> M unit) (slabBegZ : Z) : M unit :=
  err <- call (processSlab slabBegZ) ;;
  match err with
  | Some e => printf (SlabError slabBegZ e) ;; exit 1
  | None => ret tt
  end.



(** The lines that [main] prints right before [os.Exit(1)]. *)
Definition exitLine (m : msg) : Prop :=
  match m with
  | HelpMessage | ThicknessMismatch _ _ | NotInOrder _ _ _ | SlabError _ _ =>
      True
  | _ => False
  end.

(** A statement only adds to the log, and when it ends the process, it is
    with status 1 right after printing one of the lines above. *)
Definition exitsTidy {A} (m : M A) : Prop :=
  forall s, exists evs,
    out (snd (m s)) = out s ++ evs
    /\ forall c, fst (m s) = Exit c ->
         c = 1 /\ exists evs' line,
                    evs = evs' ++ [Printf line] /\ exitLine line.

(** [-blocksize 0], for a configuration whose [Thickness] is 0. *)
Definition flagsZero : Flags := mkFlags 0 false.

Definition zeroThicknessConfig : Config.t :=
  Config.mk "http://dvid" 1 1 0 1 8
    [SlabDir.mk "a" 1 4 "a%d.gz"; SlabDir.mk "b" 5 8 "b%d.gz"].

(* ================================================================== *)
(** * Reasoning tools *)

(** ** Integers in range do not wrap *)

Lemma wrap_id z : GoInt.in_range z -> GoInt.wrap z = z.
Proof.
  unfold GoInt.in_range, GoInt.wrap, GoInt.min_int, GoInt.max_int.
  intros H.
  rewrite Z.mod_small by lia. lia.
Qed.

Lemma add_id a b : GoInt.in_range (a + b) -> a .+ b = a + b.
Proof. apply wrap_id. Qed.

Lemma sub_id a b : GoInt.in_range (a - b) -> a .- b = a - b.
Proof. apply wrap_id. Qed.

Lemma mul_id a b : GoInt.in_range (a * b) -> a .* b = a * b.
Proof. apply wrap_id. Qed.

Lemma in_range_bounds z :
  GoInt.in_range z <-> - 9223372036854775808 <= z <= 9223372036854775807.
Proof.
  unfold GoInt.in_range, GoInt.min_int, GoInt.max_int.
  change (2 ^ 63) with 9223372036854775808. lia.
Qed.

Lemma len_repeat n : 0 <= n -> len (repeat x00 (Z.to_nat n)) = n.
Proof. intros. unfold len. rewrite repeat_length. lia. Qed.

Lemma make_Some n : 0 <= n -> make n = Some (repeat x00 (Z.to_nat n)).
Proof. intros. unfold make. destruct (Z.ltb_spec n 0); [lia | reflexivity]. Qed.

Lemma len_zero_all b : len (zero_all b) = len b.
Proof. unfold len, zero_all. now rewrite length_map. Qed.

Lemma byteAt_zero_all b i :
  0 <= i < len b -> byteAt (zero_all b) i = Some x00.
Proof.
  unfold byteAt, zero_all, len. intros H.
  destruct (Z.ltb_spec i 0); [lia |].
  rewrite nth_error_map.
  destruct (nth_error b (Z.to_nat i)) eqn:E; [reflexivity |].
  apply nth_error_None in E. lia.
Qed.

Lemma byteAt_repeat n i :
  0 <= i < n -> byteAt (repeat x00 (Z.to_nat n)) i = Some x00.
Proof.
  unfold byteAt. intros H.
  destruct (Z.ltb_spec i 0); [lia |].
  apply nth_error_repeat. lia.
Qed.

Lemma slice_Some b lo hi s :
  slice b lo hi = Some s ->
  0 <= lo /\ lo <= hi /\ hi <= len b /\ len s = hi - lo.
Proof.
  unfold slice.
  destruct (Z.leb_spec 0 lo), (Z.leb_spec lo hi), (Z.leb_spec hi (len b));
    cbn; try discriminate.
  intros E. injection E as <-.
  repeat split; try lia.
  unfold len in *. rewrite length_firstn, length_skipn. lia.
Qed.

Lemma slice_ok b lo hi :
  0 <= lo -> lo <= hi -> hi <= len b -> exists s, slice b lo hi = Some s.
Proof.
  intros. unfold slice.
  destruct (Z.leb_spec 0 lo), (Z.leb_spec lo hi), (Z.leb_spec hi (len b));
    try lia.
  cbn. eauto.
Qed.

Lemma byteAt_slice b lo hi s k :
  slice b lo hi = Some s -> 0 <= k < hi - lo ->
  byteAt s k = byteAt b (lo + k).
Proof.
  intros E Hk. pose proof (slice_Some _ _ _ _ E) as (H0 & H1 & H2 & H3).
  unfold slice in E.
  destruct ((0 <=? lo) && (lo <=? hi) && (hi <=? len b)); [| discriminate].
  injection E as <-.
  unfold byteAt.
  destruct (Z.ltb_spec k 0), (Z.ltb_spec (lo + k) 0); try lia.
  rewrite nth_error_firstn.
  destruct (Nat.ltb_spec (Z.to_nat k) (Z.to_nat (hi - lo))); [| lia].
  rewrite nth_error_skipn. f_equal. lia.
Qed.

Lemma length_overwrite b lo src :
  (lo + List.length src <= List.length b)%nat ->
  List.length (overwrite b lo src) = List.length b.
Proof.
  intros H. unfold overwrite.
  rewrite !length_app, length_firstn, length_skipn. lia.
Qed.

Lemma nth_error_overwrite b lo src i :
  (lo + List.length src <= List.length b)%nat ->
  nth_error (overwrite b lo src) i =
  if (lo <=? i)%nat && (i <? lo + List.length src)%nat
  then nth_error src (i - lo)
  else nth_error b i.
Proof.
  intros H. unfold overwrite.
  destruct (Nat.leb_spec lo i);
    destruct (Nat.ltb_spec i (lo + List.length src)); cbn [andb].
  - rewrite nth_error_app2 by (rewrite length_firstn; lia).
    rewrite length_firstn, Nat.min_l by lia.
    rewrite nth_error_app1 by lia. reflexivity.
  - rewrite nth_error_app2 by (rewrite length_firstn; lia).
    rewrite length_firstn, Nat.min_l by lia.
    rewrite nth_error_app2 by lia.
    rewrite nth_error_skipn. f_equal. lia.
  - rewrite nth_error_app1 by (rewrite length_firstn; lia).
    rewrite nth_error_firstn.
    destruct (Nat.ltb_spec i lo); [reflexivity | lia].
  - lia.
Qed.

(** What [copy] does to the destination: its length is kept, the bytes of the
    target range come from the source, and every other byte stays. *)
Lemma copy_Some dst dlo dhi src slo shi dst' :
  copy dst dlo dhi src slo shi = Some dst' ->
  0 <= dlo /\ dlo <= dhi <= len dst /\ 0 <= slo /\ slo <= shi <= len src /\
  len dst' = len dst /\
  (forall k, 0 <= k < Z.min (dhi - dlo) (shi - slo) ->
             byteAt dst' (dlo + k) = byteAt src (slo + k)) /\
  (forall i, i < dlo \/ dlo + Z.min (dhi - dlo) (shi - slo) <= i ->
             byteAt dst' i = byteAt dst i).
Proof.
  unfold copy.
  destruct (slice dst dlo dhi) as [d |] eqn:Ed; [| discriminate].
  destruct (slice src slo shi) as [s |] eqn:Es; [| discriminate].
  intros E. injection E as <-. set (n := Z.min (dhi - dlo) (shi - slo)).
  pose proof (slice_Some _ _ _ _ Ed) as (D0 & D1 & D2 & D3).
  pose proof (slice_Some _ _ _ _ Es) as (S0 & S1 & S2 & S3).
  set (c := firstn (Nat.min (List.length d) (List.length s)) s).
  assert (Hc : Z.of_nat (List.length c) = n).
  { subst c n. rewrite length_firstn. unfold len in *. lia. }
  assert (Hfit : (Z.to_nat dlo + List.length c <= List.length dst)%nat).
  { unfold len in *. lia. }
  repeat split; try lia.
  - unfold len. rewrite length_overwrite by exact Hfit. reflexivity.
  - intros k Hk. unfold byteAt.
    destruct (Z.ltb_spec (dlo + k) 0), (Z.ltb_spec (slo + k) 0); try lia.
    rewrite nth_error_overwrite by exact Hfit.
    destruct (Nat.leb_spec (Z.to_nat dlo) (Z.to_nat (dlo + k))); [| lia].
    destruct (Nat.ltb_spec (Z.to_nat (dlo + k))
                (Z.to_nat dlo + List.length c)); [| lia].
    cbn [andb]. subst c. rewrite nth_error_firstn.
    match goal with |- context [(?a <? ?b)%nat] =>
      destruct (Nat.ltb_spec a b) as [_ | Hge] end.
    2:{ rewrite length_firstn in Hc. lia. }
    replace (Z.to_nat (dlo + k) - Z.to_nat dlo)%nat with (Z.to_nat k) by lia.
    pose proof (byteAt_slice _ _ _ _ k Es ltac:(lia)) as B.
    unfold byteAt in B.
    destruct (Z.ltb_spec k 0), (Z.ltb_spec (slo + k) 0); try lia.
    exact B.
  - intros i Hi. unfold byteAt.
    destruct (Z.ltb_spec i 0); [reflexivity |].
    rewrite nth_error_overwrite by exact Hfit.
    destruct (Nat.leb_spec (Z.to_nat dlo) (Z.to_nat i));
      destruct (Nat.ltb_spec (Z.to_nat i) (Z.to_nat dlo + List.length c));
      cbn [andb]; try reflexivity.
    lia.
Qed.

Lemma copy_ok dst dlo dhi src slo shi :
  0 <= dlo -> dlo <= dhi -> dhi <= len dst ->
  0 <= slo -> slo <= shi -> shi <= len src ->
  exists dst', copy dst dlo dhi src slo shi = Some dst'.
Proof.
  intros. unfold copy.
  destruct (slice_ok dst dlo dhi) as [d ->]; try assumption.
  destruct (slice_ok src slo shi) as [s ->]; try assumption.
  eauto.
Qed.

(** ** Weakest preconditions for statements *)

Lemma wp_bind {A B} (m : M A) (f : A -> M B) Q s :
  wp m (after Q (fun a => wp (f a) Q)) s -> wp (bind m f) Q s.
Proof.
  unfold wp, bind, after. destruct (m s) as [[a | e | c | |] s']; auto.
Qed.

Lemma wp_mono {A} (m : M A) (Q Q' : res A -> Store -> Prop) s :
  (forall r s', Q r s' -> Q' r s') -> wp m Q s -> wp m Q' s.
Proof. unfold wp. auto. Qed.

Lemma wp_ret {A} (a : A) Q s : Q (Next a) s -> wp (ret a) Q s.
Proof. auto. Qed.

Lemma wp_stop {A} (r : res A) Q s : Q r s -> wp (stop r) Q s.
Proof. auto. Qed.

Lemma wp_emit e Q s :
  Q (Next tt) (mkStore (bytebuf s) (out s ++ [e])) -> wp (emit e) Q s.
Proof. auto. Qed.

(** ** Loops as iterations over the values they visit *)

Lemma steps_S i0 d n : steps i0 d (S n) = i0 :: steps (i0 + d) d n.
Proof.
  unfold steps. cbn [seq map]. f_equal; [lia |].
  rewrite <- seq_shift, map_map. apply map_ext. intros k. lia.
Qed.

Lemma bind_ext {A B} (m : M A) (f g : A -> M B) s :
  (forall a s', f a s' = g a s') -> bind m f s = bind m g s.
Proof.
  intros H. unfold bind. destruct (m s) as [[a | e | c | |] s']; auto.
Qed.


Lemma forEach_ext {X A} (xs : list X) (f g : X -> A -> M A) :
  (forall x a s, In x xs -> f x a s = g x a s) ->
  forall a s, forEach xs f a s = forEach xs g a s.
Proof.
  induction xs as [| x xs IH]; intros H a s; cbn [forEach]; [reflexivity |].
  unfold bind. rewrite H by (left; reflexivity).
  destruct (g x a s) as [[a' | e | c | |] s']; auto.
  apply IH. intros. apply H. now right.
Qed.

(** A counting loop that does not wrap and has fuel for its [n] rounds visits
    [i0], [i0 + d], ... *)
Lemma for_steps {A} cond (d : Z) (body : Z -> A -> M A) :
  forall n fuel i0 a s,
  (n <= fuel)%nat ->
  (forall k, (k < n)%nat -> cond (i0 + Z.of_nat k * d) = true) ->
  cond (i0 + Z.of_nat n * d) = false ->
  (forall k, (k <= n)%nat -> GoInt.in_range (i0 + Z.of_nat k * d)) ->
  for_ fuel cond (fun i => i .+ d) body i0 a s =
  forEach (steps i0 d n) body a s.
Proof.
  induction n as [| n IH]; intros fuel i0 a s Hfuel Htrue Hfalse Hrange.
  - replace (i0 + Z.of_nat 0 * d) with i0 in Hfalse by lia.
    destruct fuel; cbn [for_]; rewrite Hfalse; reflexivity.
  - destruct fuel as [| fuel]; [lia |].
    cbn [for_].
    pose proof (Htrue 0%nat ltac:(lia)) as H0.
    replace (i0 + Z.of_nat 0 * d) with i0 in H0 by lia.
    rewrite H0, steps_S. cbn [forEach].
    apply bind_ext. intros a' s'.
    rewrite add_id.
    2:{ specialize (Hrange 1%nat ltac:(lia)).
        replace (i0 + Z.of_nat 1 * d) with (i0 + d) in Hrange by lia.
        exact Hrange. }
    apply IH.
    + lia.
    + intros k Hk. specialize (Htrue (S k) ltac:(lia)).
      replace (i0 + d + Z.of_nat k * d) with (i0 + Z.of_nat (S k) * d) by lia.
      exact Htrue.
    + replace (i0 + d + Z.of_nat n * d) with (i0 + Z.of_nat (S n) * d) by lia.
      exact Hfalse.
    + intros k Hk. specialize (Hrange (S k) ltac:(lia)).
      replace (i0 + d + Z.of_nat k * d) with (i0 + Z.of_nat (S k) * d) by lia.
      exact Hrange.
Qed.

Ltac range_lia_pre :=
  rewrite ?in_range_bounds in *;
  unfold GoInt.max_int, GoInt.min_int in *;
  change (2 ^ 63) with 9223372036854775808 in *.

Ltac range_lia := range_lia_pre; lia.

Lemma in_steps i i0 d n :
  In i (steps i0 d n) <-> exists k, (k < n)%nat /\ i = i0 + Z.of_nat k * d.
Proof.
  unfold steps. rewrite in_map_iff. split.
  - intros (k & <- & Hk). apply in_seq in Hk. exists k. split; [lia | reflexivity].
  - intros (k & Hk & ->). exists k. split; [reflexivity |]. apply in_seq. lia.
Qed.

(** A loop whose body only appends to what it carries. *)
Lemma forEach_collect {X T} (f : X -> list T) (xs : list X) :
  forall acc s,
  forEach xs (fun x acc => ret (acc ++ f x)) acc s
  = (Next (acc ++ flat_map f xs), s).
Proof.
  induction xs as [| x xs IH]; intros acc s; cbn [forEach flat_map].
  - now rewrite app_nil_r.
  - unfold bind, ret at 1. rewrite IH, app_assoc. reflexivity.
Qed.

(* ================================================================== *)
(** * The tile grid *)

Section Grid.
Variables extentX extentY maxEdge : Z.
Hypothesis HX : 0 < extentX.
Hypothesis HY : 0 < extentY.
Hypothesis HE : 0 < maxEdge.
Hypothesis HXr : extentX + maxEdge <= GoInt.max_int.
Hypothesis HYr : extentY + maxEdge <= GoInt.max_int.

Lemma rounds_spec extent :
  0 < extent ->
  (Z.of_nat (rounds maxEdge extent) - 1) * maxEdge < extent
  /\ extent <= Z.of_nat (rounds maxEdge extent) * maxEdge
  /\ (0 < rounds maxEdge extent)%nat.
Proof.
  intros H. unfold rounds.
  pose proof (Z.div_mod (extent + maxEdge - 1) maxEdge ltac:(lia)) as D.
  pose proof (Z.mod_pos_bound (extent + maxEdge - 1) maxEdge HE) as B.
  set (q := (extent + maxEdge - 1) / maxEdge) in *.
  assert (0 < q) by nia.
  rewrite Z2Nat.id by lia.
  repeat split; first [nia | lia].
Qed.

Lemma rounds_le_fuel extent fuel :
  0 < extent -> extent / maxEdge < Z.of_nat fuel -> (rounds maxEdge extent <= fuel)%nat.
Proof.
  intros H Hf. unfold rounds.
  assert ((extent + maxEdge - 1) / maxEdge <= extent / maxEdge + 1).
  { replace (extent / maxEdge + 1) with ((extent + 1 * maxEdge) / maxEdge)
      by (rewrite Z.div_add by lia; reflexivity).
    apply Z.div_le_mono; lia. }
  lia.
Qed.

Lemma in_steps_extent extent o :
  0 < extent -> In o (steps 0 maxEdge (rounds maxEdge extent)) ->
  0 <= o < extent /\ (o / maxEdge) * maxEdge = o.
Proof.
  intros H Hin. apply in_steps in Hin as (k & Hk & ->).
  pose proof (rounds_spec extent H) as (R1 & R2 & R3).
  split; [nia |].
  cbn [Z.add]. rewrite Z.div_mul by lia. reflexivity.
Qed.

Lemma steps_of_point extent p :
  0 < extent -> 0 <= p < extent ->
  In ((p / maxEdge) * maxEdge) (steps 0 maxEdge (rounds maxEdge extent)).
Proof.
  intros H Hp. apply in_steps.
  pose proof (rounds_spec extent H) as (R1 & R2 & R3).
  pose proof (Z.div_mod p maxEdge ltac:(lia)) as D.
  pose proof (Z.mod_pos_bound p maxEdge HE) as B.
  assert (0 <= p / maxEdge) by (apply Z.div_pos; lia).
  exists (Z.to_nat (p / maxEdge)). split; [| lia].
  assert (p / maxEdge < Z.of_nat (rounds maxEdge extent)) by nia.
  lia.
Qed.

Lemma tileGrid_grid fuel :
  extentX / maxEdge < Z.of_nat fuel ->
  extentY / maxEdge < Z.of_nat fuel ->
  tileGrid fuel extentX extentY maxEdge = Some (grid extentX extentY maxEdge).
Proof.
  intros FX FY. unfold tileGrid, forTiles, grid.
  pose proof (rounds_spec extentX HX) as (X1 & X2 & X3).
  pose proof (rounds_spec extentY HY) as (Y1 & Y2 & Y3).
  rewrite (for_steps _ _ _ (rounds maxEdge extentY)).
  2: now apply rounds_le_fuel.
  2:{ intros k Hk. apply Z.ltb_lt. nia. }
  2:{ apply Z.ltb_ge. lia. }
  2:{ intros k Hk. range_lia_pre. nia. }
  erewrite forEach_ext.
  - rewrite (forEach_collect
               (fun y => map (fun x => tileAt extentX extentY maxEdge x y)
                           (steps 0 maxEdge (rounds maxEdge extentX)))).
    reflexivity.
  - intros y acc s Hy. apply in_steps_extent in Hy as (Hy & _); [| exact HY].
    cbv zeta.
    rewrite (for_steps _ _ _ (rounds maxEdge extentX)).
    2: now apply rounds_le_fuel.
    2:{ intros k Hk. apply Z.ltb_lt. nia. }
    2:{ apply Z.ltb_ge. lia. }
    2:{ intros k Hk. range_lia_pre. nia. }
    erewrite forEach_ext.
    + rewrite (forEach_collect (fun x => [tileAt extentX extentY maxEdge x y])).
      unfold ret. f_equal.
    + intros x acc' s' Hx.
      apply in_steps_extent in Hx as (Hx & _); [| exact HX].
      cbv zeta. unfold tileAt. do 4 f_equal.
      * rewrite (add_id x) by (range_lia_pre; lia).
        destruct (Z.gtb_spec (x + maxEdge) extentX).
        -- rewrite (sub_id (x + maxEdge)) by (range_lia_pre; lia).
           rewrite sub_id by (range_lia_pre; lia). lia.
        -- lia.
      * rewrite (add_id y) by (range_lia_pre; lia).
        destruct (Z.gtb_spec (y + maxEdge) extentY); lia.
Qed.

Lemma in_grid t :
  In t (grid extentX extentY maxEdge) <->
  exists x y,
    In x (steps 0 maxEdge (rounds maxEdge extentX)) /\
    In y (steps 0 maxEdge (rounds maxEdge extentY)) /\
    t = tileAt extentX extentY maxEdge x y.
Proof.
  unfold grid. rewrite in_flat_map. split.
  - intros (y & Hy & Ht). apply in_map_iff in Ht as (x & <- & Hx). eauto.
  - intros (x & y & Hx & Hy & ->). exists y. split; [exact Hy |].
    apply in_map_iff. eauto.
Qed.

Lemma grid_shape t :
  In t (grid extentX extentY maxEdge) ->
  0 <= ox t /\ 0 <= oy t /\ 0 < width t /\ 0 < height t /\
  ox t + width t <= extentX /\ oy t + height t <= extentY /\
  width t = Z.min maxEdge (extentX - ox t) /\
  height t = Z.min maxEdge (extentY - oy t).
Proof.
  intros H. apply in_grid in H as (x & y & Hx & Hy & ->).
  apply in_steps_extent in Hx as (Hx & _); [| exact HX].
  apply in_steps_extent in Hy as (Hy & _); [| exact HY].
  cbn. lia.
Qed.

Lemma grid_covers_once x y :
  0 <= x < extentX -> 0 <= y < extentY ->
  exists t,
    In t (grid extentX extentY maxEdge) /\ covers t x y /\
    forall t', In t' (grid extentX extentY maxEdge) -> covers t' x y -> t' = t.
Proof.
  intros Hx Hy.
  pose proof (Z.div_mod x maxEdge ltac:(lia)) as Dx.
  pose proof (Z.mod_pos_bound x maxEdge HE) as Bx.
  pose proof (Z.div_mod y maxEdge ltac:(lia)) as Dy.
  pose proof (Z.mod_pos_bound y maxEdge HE) as By.
  exists (tileAt extentX extentY maxEdge
            (x / maxEdge * maxEdge) (y / maxEdge * maxEdge)).
  split; [| split].
  - apply in_grid. do 2 eexists.
    split; [apply steps_of_point; eassumption |].
    split; [apply steps_of_point; eassumption | reflexivity].
  - unfold covers. cbn. lia.
  - intros t' Hin Hc. apply in_grid in Hin as (x' & y' & Hx' & Hy' & ->).
    apply in_steps_extent in Hx' as (Hx' & Mx); [| exact HX].
    apply in_steps_extent in Hy' as (Hy' & My); [| exact HY].
    unfold covers in Hc. cbn in Hc.
    assert (x / maxEdge = x' / maxEdge) as Ex.
    { symmetry. apply (Z.div_unique x maxEdge (x' / maxEdge) (x - x')); lia. }
    assert (y / maxEdge = y' / maxEdge) as Ey.
    { symmetry. apply (Z.div_unique y maxEdge (y' / maxEdge) (y - y')); lia. }
    rewrite Ex, Ey, Mx, My. reflexivity.
Qed.

Lemma sorted_app (l1 l2 : list Tile) :
  StronglySorted rowMajor l1 -> StronglySorted rowMajor l2 ->
  (forall a b, In a l1 -> In b l2 -> rowMajor a b) ->
  StronglySorted rowMajor (l1 ++ l2).
Proof.
  induction 1 as [| a l1 Hs IH Ha]; intros H2 H12; cbn; [exact H2 |].
  constructor.
  - apply IH; [exact H2 |]. intros. apply H12; [now right | assumption].
  - apply Forall_app. split; [exact Ha |].
    apply Forall_forall. intros b Hb. apply H12; [now left | exact Hb].
Qed.

Lemma band_sorted y n : forall x0,
  StronglySorted rowMajor
    (map (fun x => tileAt extentX extentY maxEdge x y) (steps x0 maxEdge n)).
Proof.
  induction n as [| n IH]; intros x0; [constructor |].
  rewrite steps_S. cbn [map]. constructor; [apply IH |].
  apply Forall_forall. intros t Ht.
  apply in_map_iff in Ht as (x & <- & Hx).
  apply in_steps in Hx as (k & _ & ->).
  right. cbn. nia.
Qed.

Lemma grid_sorted : StronglySorted rowMajor (grid extentX extentY maxEdge).
Proof.
  unfold grid.
  set (band := fun y : Z =>
                 map (fun x => tileAt extentX extentY maxEdge x y)
                   (steps 0 maxEdge (rounds maxEdge extentX))).
  assert (Hband : forall y, StronglySorted rowMajor (band y))
    by (intros; apply band_sorted).
  assert (Hoy : forall y t, In t (band y) -> oy t = y).
  { intros y t Ht. apply in_map_iff in Ht as (x & <- & _). reflexivity. }
  clearbody band.
  generalize (rounds maxEdge extentY) as m. generalize 0 as y0.
  intros y0 m. revert y0.
  induction m as [| m IH]; intros y0; [constructor |].
  rewrite steps_S. cbn [flat_map].
  apply sorted_app; [apply Hband | apply IH |].
  intros a b Ha Hb.
  apply Hoy in Ha.
  apply in_flat_map in Hb as (y & Hy & Hb).
  apply Hoy in Hb.
  apply in_steps in Hy as (k & _ & ->).
  left. nia.
Qed.

Lemma sorted_NoDup (l : list Tile) : StronglySorted rowMajor l -> NoDup l.
Proof.
  induction 1 as [| a l Hs IH Ha]; constructor; [| exact IH].
  intros Hin. rewrite Forall_forall in Ha. specialize (Ha a Hin).
  unfold rowMajor in Ha. lia.
Qed.

End Grid.

(* ================================================================== *)
(** * The checks before the first slab *)

Lemma sameIO_refl s : sameIO s s.
Proof. repeat split. Qed.

Lemma sameIO_printf s s' m :
  sameIO s s' -> sameIO s (mkStore (bytebuf s') (out s' ++ [Printf m])).
Proof.
  intros (A & B & C). unfold sameIO, posts, opens in *. cbn [bytebuf out].
  rewrite !flat_map_app, !app_nil_r. auto.
Qed.

Lemma checkDirectories_from dirs : forall maxZ s0 s,
  sameIO s0 s ->
  wp (forEach dirs checkDirectory maxZ)
    (fun r s' =>
       sameIO s0 s' /\
       match r with
       | Next _ => inOrder maxZ dirs
       | Exit c => c = 1 /\ ~ inOrder maxZ dirs
       | _ => False
       end) s.
Proof.
  induction dirs as [| d rest IH]; intros maxZ s0 s Hs; cbn [forEach inOrder].
  - apply wp_ret. auto.
  - unfold checkDirectory at 1. apply wp_bind, wp_bind.
    destruct (Z.leb_spec (SlabDir.BegZ d) maxZ).
    + apply wp_bind, wp_emit, wp_stop. cbn [after].
      split; [now apply sameIO_printf |]. split; [reflexivity | lia].
    + apply wp_ret. cbn [after]. apply wp_bind.
      destruct (SlabDir.EndZ d <=? SlabDir.BegZ d).
      * apply wp_emit. cbn [after]. apply wp_ret. cbn [after].
        eapply wp_mono; [| apply IH, sameIO_printf, Hs].
        intros r s' (A & B). split; [exact A |].
        destruct r; try contradiction; tauto.
      * apply wp_ret. cbn [after]. apply wp_ret. cbn [after].
        eapply wp_mono; [| apply IH, Hs].
        intros r s' (A & B). split; [exact A |].
        destruct r; try contradiction; tauto.
Qed.

Lemma validate_spec flags config s :
  wp (validate flags config)
    (fun r s' =>
       sameIO s s' /\
       match r with
       | Next _ =>
           Config.Directories config <> [] /\
           Config.Thickness config = blocksize flags /\
           inOrder 0 (Config.Directories config)
       | Exit c =>
           c = 1 /\
           (Config.Directories config = [] \/
            Config.Thickness config <> blocksize flags \/
            ~ inOrder 0 (Config.Directories config))
       | _ => False
       end) s.
Proof.
  unfold validate. apply wp_bind.
  destruct (Config.Directories config) as [| d rest] eqn:Ed.
  - cbn [List.length Z.of_nat Z.ltb Z.compare].
    apply wp_bind, wp_emit. cbn [after]. apply wp_bind, wp_emit. cbn [after].
    apply wp_stop. cbn [after].
    split; [do 2 apply sameIO_printf; apply sameIO_refl | auto].
  - destruct (Z.ltb_spec (Z.of_nat (List.length (d :: rest))) 1) as [Hl | _].
    { cbn [List.length] in Hl. lia. }
    apply wp_ret. cbn [after]. apply wp_bind.
    destruct (Z.eqb_spec (Config.Thickness config) (blocksize flags)) as [Et | Et];
      cbn [negb].
    + apply wp_ret. cbn [after]. apply wp_bind.
      unfold checkDirectories.
      eapply wp_mono; [| apply checkDirectories_from, sameIO_refl].
      intros r s' (A & B).
      destruct r as [a | e | c | |]; cbn [after]; try contradiction.
      * apply wp_ret. split; [exact A |].
        split; [discriminate |]. split; [exact Et | exact B].
      * split; [exact A |]. split; [tauto |]. right. right. tauto.
    + apply wp_bind, wp_emit. cbn [after]. apply wp_stop. cbn [after].
      split; [apply sameIO_printf, sameIO_refl |]. auto.
Qed.

(* ================================================================== *)
(** * Properties that every step keeps *)

Section Invariants.
Variable I : Store -> Prop.

Lemma inv_ret {A} (a : A) : inv I (ret a).
Proof. intros s H. exact H. Qed.

Lemma inv_stop {A} (r : res A) : inv I (stop r).
Proof. intros s H. exact H. Qed.

Lemma inv_get : inv I get_bytebuf.
Proof. intros s H. exact H. Qed.

Lemma inv_bind {A B} (m : M A) (f : A -> M B) :
  inv I m -> (forall a, inv I (f a)) -> inv I (bind m f).
Proof.
  intros Hm Hf s H. unfold bind. specialize (Hm s H).
  destruct (m s) as [[a | e | c | |] s']; cbn [snd] in *; auto.
  apply Hf, Hm.
Qed.

Lemma inv_emit e :
  (forall s, I s -> I (mkStore (bytebuf s) (out s ++ [e]))) -> inv I (emit e).
Proof. intros H s Hs. apply H, Hs. Qed.

Lemma inv_update f :
  (forall s b, I s -> f (bytebuf s) = Some b -> I (mkStore b (out s))) ->
  inv I (update_bytebuf f).
Proof.
  intros H s Hs. unfold update_bytebuf.
  destruct (f (bytebuf s)) eqn:E; cbn [snd]; eauto.
Qed.

Lemma inv_for {A} fuel cond step (body : Z -> A -> M A) :
  (forall i a, cond i = true -> inv I (body i a)) ->
  forall i a, inv I (for_ fuel cond step body i a).
Proof.
  intros Hbody. induction fuel as [| fuel IH]; intros i a; cbn [for_];
    destruct (cond i) eqn:Ec; try apply inv_stop; try apply inv_ret.
  apply inv_bind; auto.
Qed.

Lemma inv_forEach {X A} (xs : list X) (body : X -> A -> M A) :
  (forall x a, In x xs -> inv I (body x a)) ->
  forall a, inv I (forEach xs body a).
Proof.
  induction xs as [| x xs IH]; intros Hbody a; cbn [forEach].
  - apply inv_ret.
  - apply inv_bind; [apply Hbody; now left |].
    intros a'. apply IH. intros. apply Hbody. now right.
Qed.

End Invariants.

Ltac inv_step :=
  lazymatch goal with
  | |- inv _ (bind _ _) => apply inv_bind; [| intro]
  | |- inv _ (ret _) => apply inv_ret
  | |- inv _ (stop _) => apply inv_stop
  | |- inv _ (return_ _) => apply inv_stop
  | |- inv _ (exit _) => apply inv_stop
  | |- inv _ panic => apply inv_stop
  | |- inv _ get_bytebuf => apply inv_get
  | |- inv _ (printf _) => apply inv_emit
  | |- inv _ (emit _) => apply inv_emit
  | |- inv _ (update_bytebuf _) => apply inv_update
  | |- inv _ (for_ _ _ _ _ _ _) => apply inv_for; intros
  | |- inv _ (open _ _) => unfold open
  | |- inv _ (gunzip _ _) => unfold gunzip
  | |- inv _ (post _ _ _) => unfold post
  | |- inv _ (if ?c then _ else _) => destruct c eqn:?
  | |- inv _ (match ?o with _ => _ end) => destruct o eqn:?
  end.




Section Opens.
Variables (env : Env) (flags : Flags) (fuel : nat) (config : Config.t).
Variable slabBegZ : Z.
Variable P : string -> Prop.
Variable evs0 : list event.





End Opens.

(* ================================================================== *)
(** * How often a statement POSTs *)

Lemma posts_app a b : posts (a ++ b) = posts a ++ posts b.
Proof. unfold posts. apply flat_map_app. Qed.

Lemma sendsOnce_quiet {A} (m : M A) :
  (forall s, posts (out (snd (m s))) = posts (out s)) -> sendsOnce m.
Proof. intros H s. left. apply H. Qed.

Lemma sendsOnce_ret {A} (a : A) : sendsOnce (ret a).
Proof. now apply sendsOnce_quiet. Qed.

Lemma sendsOnce_stop {A} (r : res A) : sendsOnce (stop r).
Proof. now apply sendsOnce_quiet. Qed.

Lemma sendsOnce_printf m : sendsOnce (printf m).
Proof.
  apply sendsOnce_quiet. intros s. cbn. rewrite posts_app. apply app_nil_r.
Qed.

Lemma sendsOnce_update f : sendsOnce (update_bytebuf f).
Proof.
  apply sendsOnce_quiet. intros s. unfold update_bytebuf.
  destruct (f (bytebuf s)); reflexivity.
Qed.

Lemma sendsOnce_bind {A B} (m : M A) (f : A -> M B) :
  sendsOnce m -> (forall a, sendsOnce (f a)) -> sendsOnce (bind m f).
Proof.
  intros Hm Hf s. specialize (Hm s). unfold bind.
  destruct (m s) as [[a | e | c | |] s'] eqn:E; cbn [fst snd] in *;
    try (destruct Hm as [Hm | (Hn & p & Hm)];
         [left; exact Hm | right; split; [discriminate | eauto]]).
  destruct Hm as [Hm | (Hn & _)]; [| now contradiction (Hn a)].
  specialize (Hf a s'). rewrite Hm in Hf. exact Hf.
Qed.

Lemma sendsOnce_for {A} fuel cond step (body : Z -> A -> M A) :
  (forall i a, sendsOnce (body i a)) ->
  forall i a, sendsOnce (for_ fuel cond step body i a).
Proof.
  intros Hbody. induction fuel as [| fuel IH]; intros i a; cbn [for_];
    destruct (cond i); try apply sendsOnce_stop; try apply sendsOnce_ret.
  apply sendsOnce_bind; auto.
Qed.

Lemma sendsOnce_forEach {X A} (xs : list X) (body : X -> A -> M A) :
  (forall x a, sendsOnce (body x a)) ->
  forall a, sendsOnce (forEach xs body a).
Proof.
  intros Hbody. induction xs as [| x xs IH]; intros a; cbn [forEach].
  - apply sendsOnce_ret.
  - apply sendsOnce_bind; auto.
Qed.

(** A POST that is followed by [return]. *)
Lemma sendsOnce_post_return env (skip : bool) url (body : M bytes) :
  (forall s, exists b, body s = (Next b, s)) ->
  sendsOnce
    ((if skip then ret tt else b <- body ;; post env url b) ;;
     @return_ unit None).
Proof.
  intros Hbody s. destruct skip.
  - left. reflexivity.
  - right. destruct (Hbody s) as (b & Eb).
    unfold bind, post, emit. rewrite Eb. cbn [bytebuf out].
    destruct (http_Post env url b) as [code |]; cbn.
    + destruct (code =? StatusOK); cbn;
        (split; [discriminate |]); exists (url, b);
        rewrite posts_app; reflexivity.
    + split; [discriminate |]. exists (url, b).
      rewrite posts_app; reflexivity.
Qed.

Ltac once_step :=
  lazymatch goal with
  | |- sendsOnce (bind (if _ then ret tt else _) (fun _ => return_ None)) =>
      fail
  | |- sendsOnce (bind _ _) => apply sendsOnce_bind; [| intro]
  | |- sendsOnce (ret _) => apply sendsOnce_ret
  | |- sendsOnce (stop _) => apply sendsOnce_stop
  | |- sendsOnce (return_ _) => apply sendsOnce_stop
  | |- sendsOnce (exit _) => apply sendsOnce_stop
  | |- sendsOnce panic => apply sendsOnce_stop
  | |- sendsOnce (printf _) => apply sendsOnce_printf
  | |- sendsOnce (update_bytebuf _) => apply sendsOnce_update
  | |- sendsOnce (for_ _ _ _ _ _ _) => apply sendsOnce_for; intros
  | |- sendsOnce (forEach _ _ _) => apply sendsOnce_forEach; intros
  | |- sendsOnce (if ?c then _ else _) => destruct c eqn:?
  | |- sendsOnce (match ?o with _ => _ end) => destruct o eqn:?
  end.

Lemma sendsOnce_open env name : sendsOnce (open env name).
Proof.
  apply sendsOnce_quiet. intros s. unfold open, bind, emit.
  destruct (os_Open env name); cbn; rewrite posts_app; apply app_nil_r.
Qed.

Lemma sendsOnce_gunzip env f : sendsOnce (gunzip env f).
Proof.
  unfold gunzip. destruct (gzip_ReadAll env f);
    [apply sendsOnce_ret | apply sendsOnce_stop].
Qed.

Lemma Tiled_processSlab_sendsOnce env flags fuel config slabBegZ :
  sendsOnce (Tiled.processSlab env flags fuel config slabBegZ).
Proof.
  unfold Tiled.processSlab, Tiled.slabFromDir, forTiles, Tiled.sendTile,
    Tiled.copyRow.
  cbv zeta.
  repeat first
    [ apply sendsOnce_open | apply sendsOnce_gunzip
    | apply sendsOnce_post_return; intros; eexists; reflexivity
    | once_step ].
Qed.

Lemma Tiled_processSlab_posts_le_1 env flags fuel config slabBegZ s :
  (List.length (posts (out (snd (Tiled.processSlab env flags fuel config slabBegZ s))))
   <= List.length (posts (out s)) + 1)%nat.
Proof.
  destruct (Tiled_processSlab_sendsOnce env flags fuel config slabBegZ s)
    as [E | (_ & p & E)]; rewrite E; [lia |].
  rewrite length_app. cbn. lia.
Qed.

(* ================================================================== *)
(** * The length check on a decompressed artifact *)

Lemma bind_assoc {A B C} (m : M A) (f : A -> M B) (g : B -> M C) s :
  bind (bind m f) g s = bind m (fun a => bind (f a) g) s.
Proof.
  unfold bind. destruct (m s) as [[a | e | c | |] s']; reflexivity.
Qed.

Lemma forEach_app {X A} (xs ys : list X) (body : X -> A -> M A) : forall a s,
  forEach (xs ++ ys) body a s
  = bind (forEach xs body a) (fun a' => forEach ys body a') s.
Proof.
  induction xs as [| x xs IH]; intros a s; cbn [app forEach].
  - reflexivity.
  - rewrite bind_assoc. apply bind_ext. intros. apply IH.
Qed.

(** 64-bit products do not depend on the order of their factors. *)
Lemma wrap_mul_l a b : GoInt.wrap (GoInt.wrap a * b) = GoInt.wrap (a * b).
Proof.
  unfold GoInt.wrap.
  change (2 ^ 64) with 18446744073709551616.
  change (2 ^ 63) with 9223372036854775808.
  pose proof (Z.div_mod (a + 9223372036854775808) 18446744073709551616
                ltac:(lia)) as D.
  set (q := (a + 9223372036854775808) / 18446744073709551616) in *.
  replace ((a + 9223372036854775808) mod 18446744073709551616
           - 9223372036854775808)
    with (a + - q * 18446744073709551616) by lia.
  replace ((a + - q * 18446744073709551616) * b + 9223372036854775808)
    with (a * b + 9223372036854775808 + (- q * b) * 18446744073709551616)
    by ring.
  rewrite Z.mod_add by lia. reflexivity.
Qed.

Lemma mul_8_swap x y b : x .* 8 .* y .* b = x .* y .* 8 .* b.
Proof.
  unfold GoInt.mul. rewrite !wrap_mul_l, <- !Z.mul_assoc, !wrap_mul_l.
  apply f_equal. ring.
Qed.

(** The directory covers the slab's whole window exactly when the clipped
    range is the window. *)
Lemma full_cover_test z zend dbeg dend :
  (z >? dend) || (zend <? dbeg) = false ->
  ((if z <? dbeg then dbeg else z) =? z)
  && ((if zend >? dend then dend else zend) =? zend)
  = (dbeg <=? z) && (zend <=? dend).
Proof.
  intros H. apply orb_false_iff in H as (H1 & H2).
  destruct (Z.ltb_spec z dbeg), (Z.gtb_spec zend dend),
    (Z.leb_spec dbeg z), (Z.leb_spec zend dend); try lia;
    repeat match goal with
      | |- context [?a =? ?b] => destruct (Z.eqb_spec a b)
      end; cbn; try reflexivity; try lia.
Qed.

Lemma forEach_reach {X A} (pre : list X) x rest (body : X -> A -> M A)
  a s a1 s1 :
  forEach pre body a s = (Next a1, s1) ->
  forEach (pre ++ x :: rest) body a s
  = bind (body x a1) (fun a' => forEach rest body a') s1.
Proof.
  intros H. rewrite forEach_app. unfold bind at 1. rewrite H. reflexivity.
Qed.

Section SizeGate.
Variables (env : Env) (flags : Flags) (fuel : nat) (config : Config.t).
Variable slabBegZ : Z.
Variables (dir : SlabDir.t) (raw data : bytes).

Hypothesis Hmeet :
  (slabBegZ >? SlabDir.EndZ dir)
  || (slabBegZ .+ blocksize flags .- 1 <? SlabDir.BegZ dir) = false.
Hypothesis Hgz : gzip_ReadAll env raw = Some data.
Hypothesis Hlen :
  len data <> Config.SizeX config .* Config.SizeY config .* 8 .* blocksize flags.

Lemma Tiled_slabFromDir_size s :
  os_Open env (filepath_Join env (SlabDir.Path dir)
                 (fmt_Sprintf env (SlabDir.Template dir) slabBegZ)) = Some raw ->
  Tiled.slabFromDir env flags fuel config slabBegZ dir s
  = (Return (Some (SizeMismatch
                     (Config.SizeX config .* Config.SizeY config .* 8
                      .* blocksize flags) (len data))),
     mkStore (bytebuf s)
       (out s ++
        [Printf (GettingData slabBegZ (slabBegZ .+ blocksize flags .- 1)
                   (filepath_Join env (SlabDir.Path dir)
                      (fmt_Sprintf env (SlabDir.Template dir) slabBegZ)));
         Open (filepath_Join env (SlabDir.Path dir)
                 (fmt_Sprintf env (SlabDir.Template dir) slabBegZ))])).
Proof.
  intros Hopen. unfold Tiled.slabFromDir. cbv zeta. rewrite Hmeet.
  cbv beta iota zeta delta [bind printf open emit gunzip ret return_ stop].
  cbn [bytebuf out]. rewrite Hopen. cbv beta iota. rewrite Hgz. cbv beta iota.
  rewrite mul_8_swap.
  destruct (Z.eqb_spec (len data)
              (Config.SizeX config .* Config.SizeY config .* 8
               .* blocksize flags)) as [E | _]; [contradiction |].
  cbn [negb]. rewrite <- app_assoc. reflexivity.
Qed.

Lemma Stitch_stitchDir_size zfilled s :
  os_Open env (fmt_Sprintf env (SlabDir.Template dir) slabBegZ) = Some raw ->
  (SlabDir.BegZ dir <=? slabBegZ)
  && (slabBegZ .+ blocksize flags .- 1 <=? SlabDir.EndZ dir) = false ->
  Stitch.stitchDir env flags fuel config slabBegZ dir zfilled s
  = (Return (Some (SizeMismatch
                     (Config.SizeX config .* Config.SizeY config .* 8
                      .* blocksize flags) (len data))),
     mkStore (bytebuf s)
       (out s ++
        [Printf (GettingData (Z.max slabBegZ (SlabDir.BegZ dir))
                   (Z.min (slabBegZ .+ blocksize flags .- 1) (SlabDir.EndZ dir))
                   (fmt_Sprintf env (SlabDir.Template dir) slabBegZ));
         Open (fmt_Sprintf env (SlabDir.Template dir) slabBegZ)])).
Proof.
  intros Hopen Hpart. unfold Stitch.stitchDir, Stitch.sliceBytes.
  cbv zeta. rewrite Hmeet.
  rewrite full_cover_test by exact Hmeet. rewrite Hpart.
  cbv beta iota zeta delta [bind printf open emit gunzip ret return_ stop].
  cbn [bytebuf out]. rewrite Hopen. cbv beta iota. rewrite Hgz. cbv beta iota.
  destruct (Z.eqb_spec (len data)
              (Config.SizeX config .* Config.SizeY config .* 8
               .* blocksize flags)) as [E | _]; [contradiction |].
  cbn [negb]. rewrite <- app_assoc. cbn [app].
  replace (if slabBegZ <? SlabDir.BegZ dir then SlabDir.BegZ dir else slabBegZ)
    with (Z.max slabBegZ (SlabDir.BegZ dir))
    by (destruct (Z.ltb_spec slabBegZ (SlabDir.BegZ dir)); lia).
  replace (if slabBegZ .+ blocksize flags .- 1 >? SlabDir.EndZ dir
           then SlabDir.EndZ dir else slabBegZ .+ blocksize flags .- 1)
    with (Z.min (slabBegZ .+ blocksize flags .- 1) (SlabDir.EndZ dir))
    by (destruct (Z.gtb_spec (slabBegZ .+ blocksize flags .- 1)
                    (SlabDir.EndZ dir)); lia).
  reflexivity.
Qed.
End SizeGate.

(* ================================================================== *)
(** * Which bytes the stitching variant writes *)

(** A loop whose counter stays within [J]. *)
Lemma inv_for_in {A} (I : Store -> Prop) (J : Z -> Prop) fuel cond step
  (body : Z -> A -> M A) :
  (forall i, J i -> cond i = true -> J (step i)) ->
  (forall i a, J i -> cond i = true -> inv I (body i a)) ->
  forall i a, J i -> inv I (for_ fuel cond step body i a).
Proof.
  intros Hstep Hbody. induction fuel as [| fuel IH]; intros i a Hi;
    cbn [for_]; destruct (cond i) eqn:Ec;
    try apply inv_stop; try apply inv_ret.
  apply inv_bind; auto.
Qed.

Lemma inv_post I env url b :
  (forall s e, I s -> I (mkStore (bytebuf s) (out s ++ [e]))) ->
  inv I (post env url b).
Proof.
  intros H. unfold post. repeat inv_step; auto.
Qed.

Lemma after_bind {A B} (I : Store -> Prop) (m : M A) (f : A -> M B) s :
  I (snd (m s)) -> (forall a, inv I (f a)) -> I (snd (bind m f s)).
Proof.
  intros Hm Hf. unfold bind.
  destruct (m s) as [[a | e | c | |] s']; cbn [snd] in *; auto.
  apply Hf, Hm.
Qed.

Lemma bind_emit {B} e (f : unit -> M B) s :
  bind (emit e) f s = f tt (mkStore (bytebuf s) (out s ++ [e])).
Proof. reflexivity. Qed.

Lemma bind_ret {A B} (a : A) (f : A -> M B) s : bind (ret a) f s = f a s.
Proof. reflexivity. Qed.

Section Planes.
Variables (env : Env) (flags : Flags) (fuel : nat) (config : Config.t).
Variable slabBegZ : Z.

Let sB := Stitch.sliceBytes config.
Let bs := blocksize flags.

Hypothesis HsB : 0 <= sB.
Hypothesis Hbs : 0 < bs <= GoInt.max_int.
Hypothesis Hprod : sB * bs <= GoInt.max_int.
Hypothesis Hz : GoInt.min_int <= slabBegZ.
Hypothesis Hzend : slabBegZ + bs <= GoInt.max_int.

Lemma slabEndZ_id : slabBegZ .+ bs .- 1 = slabBegZ + bs - 1.
Proof.
  rewrite add_id by range_lia. apply sub_id. range_lia.
Qed.

(** Where plane [volZ] of the window lies in the buffer. *)
Lemma plane_bounds volZ :
  slabBegZ <= volZ <= slabBegZ + bs - 1 ->
  (volZ .- slabBegZ) .* sB = (volZ - slabBegZ) * sB
  /\ (volZ .- slabBegZ) .* sB .+ sB = (volZ - slabBegZ) * sB + sB
  /\ 0 <= (volZ - slabBegZ) * sB
  /\ (volZ - slabBegZ) * sB + sB <= sB * bs.
Proof.
  intros Hv.
  assert (0 <= (volZ - slabBegZ) * sB) by nia.
  assert ((volZ - slabBegZ) * sB + sB <= sB * bs) by nia.
  rewrite sub_id by range_lia.
  rewrite mul_id by range_lia.
  rewrite add_id by range_lia. auto.
Qed.

(** A byte outside the planes that [begZ..endZ] name is not written. *)
Lemma transferPlanes_frame fuel' data begZ endZ zfilled i v :
  slabBegZ <= begZ -> endZ <= slabBegZ + bs - 1 ->
  (forall volZ, begZ <= volZ <= endZ ->
     ~ (volZ - slabBegZ) * sB <= i < (volZ - slabBegZ) * sB + sB) ->
  inv (fun s => byteAt (bytebuf s) i = v)
    (Stitch.transferPlanes fuel' slabBegZ sB data begZ endZ zfilled).
Proof.
  intros Hb He Hout. unfold Stitch.transferPlanes.
  apply (inv_for_in _ (fun volZ => begZ <= volZ)); [| | lia].
  - intros volZ Hv Hc. apply Z.leb_le in Hc.
    rewrite add_id by range_lia. lia.
  - intros volZ zf Hv Hc. apply Z.leb_le in Hc. cbv zeta.
    repeat inv_step; try (intros; assumption).
    intros s b Hs Hcopy. cbn [bytebuf].
    apply copy_Some in Hcopy as (_ & _ & _ & _ & _ & _ & Hframe).
    destruct (plane_bounds volZ ltac:(lia)) as (E1 & E2 & P1 & P2).
    rewrite E2, E1 in Hframe.
    rewrite Hframe; [exact Hs |].
    specialize (Hout volZ ltac:(lia)). lia.
Qed.

Lemma stitchDir_frame dir zfilled i v :
  (forall volZ,
     slabBegZ <= volZ <= slabBegZ + bs - 1 ->
     SlabDir.BegZ dir <= volZ <= SlabDir.EndZ dir ->
     ~ (volZ - slabBegZ) * sB <= i < (volZ - slabBegZ) * sB + sB) ->
  inv (fun s => byteAt (bytebuf s) i = v)
    (Stitch.stitchDir env flags fuel config slabBegZ dir zfilled).
Proof.
  intros Hout. unfold Stitch.stitchDir. cbv zeta.
  fold sB. fold bs. rewrite slabEndZ_id.
  repeat first
    [ apply transferPlanes_frame
    | apply inv_post; intros; assumption
    | inv_step ];
    try (intros; assumption).
  - destruct (Z.ltb_spec slabBegZ (SlabDir.BegZ dir)); lia.
  - destruct (Z.gtb_spec (slabBegZ + bs - 1) (SlabDir.EndZ dir)); lia.
  - intros volZ Hv. apply Hout.
    + destruct (Z.ltb_spec slabBegZ (SlabDir.BegZ dir)),
        (Z.gtb_spec (slabBegZ + bs - 1) (SlabDir.EndZ dir)); lia.
    + destruct (Z.ltb_spec slabBegZ (SlabDir.BegZ dir)),
        (Z.gtb_spec (slabBegZ + bs - 1) (SlabDir.EndZ dir)); lia.
Qed.

Lemma transferPlanes_len data begZ endZ zfilled L :
  inv (fun s => len (bytebuf s) = L)
    (Stitch.transferPlanes fuel slabBegZ sB data begZ endZ zfilled).
Proof.
  unfold Stitch.transferPlanes. repeat inv_step; try (intros; assumption).
  intros s b Hs Hcopy. cbn [bytebuf].
  apply copy_Some in Hcopy as (_ & _ & _ & _ & Hl & _). congruence.
Qed.

Lemma stitchDir_len dir zfilled L :
  inv (fun s => len (bytebuf s) = L)
    (Stitch.stitchDir env flags fuel config slabBegZ dir zfilled).
Proof.
  unfold Stitch.stitchDir. cbv zeta.
  repeat first
    [ apply transferPlanes_len
    | apply inv_post; intros; assumption
    | inv_step ];
    try (intros; assumption).
Qed.

(** With fuel for its rounds, the loop over the planes copies each of them
    from the artifact to the same place in the buffer. *)
Lemma transferPlanes_copies data endZ :
  len data = sB * bs ->
  endZ <= slabBegZ + bs - 1 ->
  forall n fuel' volZ zfilled s,
  (n <= fuel')%nat ->
  slabBegZ <= volZ ->
  Z.of_nat n = endZ - volZ + 1 ->
  len (bytebuf s) = sB * bs ->
  exists zfilled' s',
    Stitch.transferPlanes fuel' slabBegZ sB data volZ endZ zfilled s
    = (Next zfilled', s')
    /\ forall v k, volZ <= v <= endZ -> 0 <= k < sB ->
         byteAt (bytebuf s') ((v - slabBegZ) * sB + k)
         = byteAt data ((v - slabBegZ) * sB + k).
Proof.
  intros Hdata Hend.
  induction n as [| n IH]; intros fuel' volZ zfilled s Hfuel Hv Hn Hbuf;
    unfold Stitch.transferPlanes in *.
  - exists zfilled, s. split; [| intros; lia].
    destruct fuel'; cbn [for_];
      destruct (Z.leb_spec volZ endZ); try lia; reflexivity.
  - destruct fuel' as [| fuel']; [lia |]. cbn [for_].
    destruct (Z.leb_spec volZ endZ); [| lia].
    destruct (plane_bounds volZ
                ltac:(lia)) as (E1 & E2 & P1 & P2).
    destruct (copy_ok (bytebuf s) ((volZ - slabBegZ) * sB)
                ((volZ - slabBegZ) * sB + sB) data
                ((volZ - slabBegZ) * sB) ((volZ - slabBegZ) * sB + sB))
      as [b' Hcopy]; try lia.
    rewrite <- E1 in Hcopy at 1 3. rewrite <- E2 in Hcopy.
    set (s1 := mkStore b' (out s ++ [Printf (Transferring volZ (zfilled .+ 1))])).
    assert (Hbody :
      (printf (Transferring volZ (zfilled .+ 1)) ;;
       update_bytebuf
         (fun b => copy b ((volZ .- slabBegZ) .* sB)
                     ((volZ .- slabBegZ) .* sB .+ sB) data
                     ((volZ .- slabBegZ) .* sB)
                     ((volZ .- slabBegZ) .* sB .+ sB)) ;;
       ret (zfilled .+ 1)) s = (Next (zfilled .+ 1), s1)).
    { unfold bind, printf, emit, update_bytebuf. cbn [bytebuf out].
      rewrite Hcopy. reflexivity. }
    unfold bind at 1. cbv zeta. rewrite Hbody.
    rewrite (add_id volZ 1) by range_lia.
    pose proof Hcopy as Hc.
    apply copy_Some in Hc as (_ & _ & _ & _ & Hl & Hin & _).
    rewrite E2, E1 in Hin.
    destruct (IH fuel' (volZ + 1) (zfilled .+ 1) s1) as (zf' & s' & Erun & Hplanes);
      try lia.
    { subst s1. cbn [bytebuf]. congruence. }
    exists zf', s'. split; [exact Erun |].
    intros v k Hvr Hk.
    destruct (Z.eq_dec v volZ) as [-> | Hne].
    + assert (F : byteAt (bytebuf (snd (Stitch.transferPlanes fuel' slabBegZ sB
                                        data (volZ + 1) endZ (zfilled .+ 1) s1)))
                    ((volZ - slabBegZ) * sB + k)
                  = byteAt data ((volZ - slabBegZ) * sB + k)).
      { apply transferPlanes_frame; try lia.
        - intros w Hw. nia.
        - subst s1. cbn [bytebuf]. apply Hin. lia. }
      unfold Stitch.transferPlanes in F. rewrite Erun in F. exact F.
    + apply Hplanes; lia.
Qed.

(** A directory that meets the slab without covering its whole window, whose
    artifact has the expected length: the planes of the intersection are in
    the buffer when the directory is done. *)
Lemma stitchDir_copies dir zfilled s raw data :
  (slabBegZ >? SlabDir.EndZ dir) || (slabBegZ .+ bs .- 1 <? SlabDir.BegZ dir)
  = false ->
  (SlabDir.BegZ dir <=? slabBegZ) && (slabBegZ .+ bs .- 1 <=? SlabDir.EndZ dir)
  = false ->
  os_Open env (fmt_Sprintf env (SlabDir.Template dir) slabBegZ) = Some raw ->
  gzip_ReadAll env raw = Some data ->
  len data = sB * bs ->
  len (bytebuf s) = sB * bs ->
  bs <= Z.of_nat fuel ->
  forall v k,
    Z.max slabBegZ (SlabDir.BegZ dir) <= v
    <= Z.min (slabBegZ + bs - 1) (SlabDir.EndZ dir) ->
    0 <= k < sB ->
    byteAt
      (bytebuf (snd (Stitch.stitchDir env flags fuel config slabBegZ dir
                       zfilled s)))
      ((v - slabBegZ) * sB + k)
    = byteAt data ((v - slabBegZ) * sB + k).
Proof.
  intros Hmeet Hpart Hopen Hgz Hdata Hbuf Hfuel v k Hv Hk.
  unfold Stitch.stitchDir. cbv zeta. fold sB. fold bs.
  rewrite Hmeet, (full_cover_test _ _ _ _ Hmeet), Hpart.
  rewrite slabEndZ_id in *.
  unfold printf. rewrite bind_emit. unfold open.
  rewrite bind_assoc, bind_emit, Hopen. cbv beta iota. rewrite bind_ret.
  unfold gunzip. rewrite Hgz, bind_ret.
  rewrite (mul_id sB bs) by range_lia.
  destruct (Z.eqb_spec (len data) (sB * bs)) as [_ | Hne]; [| contradiction].
  cbn [negb].
  set (begZ := if slabBegZ <? SlabDir.BegZ dir then SlabDir.BegZ dir
               else slabBegZ).
  set (endZ := if slabBegZ + bs - 1 >? SlabDir.EndZ dir then SlabDir.EndZ dir
               else slabBegZ + bs - 1).
  assert (Hb : begZ = Z.max slabBegZ (SlabDir.BegZ dir)).
  { subst begZ. destruct (Z.ltb_spec slabBegZ (SlabDir.BegZ dir)); lia. }
  assert (He : endZ = Z.min (slabBegZ + bs - 1) (SlabDir.EndZ dir)).
  { subst endZ.
    destruct (Z.gtb_spec (slabBegZ + bs - 1) (SlabDir.EndZ dir)); lia. }
  clearbody begZ endZ. cbn [bytebuf out].
  apply after_bind.
  - destruct (transferPlanes_copies data endZ Hdata ltac:(lia)
                (Z.to_nat (endZ - begZ + 1)) fuel begZ zfilled
                (mkStore (bytebuf s)
                   ((out s ++
                     [Printf (GettingData begZ endZ
                                (fmt_Sprintf env (SlabDir.Template dir)
                                   slabBegZ))]) ++
                    [Open (fmt_Sprintf env (SlabDir.Template dir) slabBegZ)])))
      as (zf' & s' & Erun & Hplanes); try lia.
    { exact Hbuf. }
    rewrite Erun. cbn [snd]. apply Hplanes; lia.
  - intros zf'.
    repeat first [ apply inv_post; intros; assumption | inv_step ];
      intros; assumption.
Qed.

End Planes.

(* ================================================================== *)
(** * The tile the tiling variant sends *)

Section FirstTile.
Variables (env : Env) (flags : Flags) (config : Config.t).
Variable slabBegZ : Z.
Variable data : bytes.

Let X := Config.SizeX config.
Let Y := Config.SizeY config.
Let bs := blocksize flags.

Hypothesis HX : 0 < X.
Hypothesis HY : 0 < Y.
Hypothesis Hbs : 0 < bs.
Hypothesis Hslab : X * 8 * Y * bs <= GoInt.max_int.
Hypothesis Hsend : 8388608 * bs <= GoInt.max_int.
Hypothesis Hdata : len data = X * 8 * Y * bs.

Lemma xBytes_id : X .* 8 = X * 8 /\ X .* 8 .* Y = X * 8 * Y.
Proof.
  assert (X * 8 <= X * 8 * Y) by nia.
  assert (X * 8 * Y <= X * 8 * Y * bs) by nia.
  rewrite (mul_id X 8) by range_lia.
  rewrite mul_id by range_lia. auto.
Qed.

(** The tile's extent in voxels: [w] columns, [h] rows. *)
Variables w h : Z.
Hypothesis Hw : 0 < w <= 1024 /\ w <= X.
Hypothesis Hh : 0 < h <= 1024 /\ h <= Y.

(** Where row [sy] of plane [sz] lies in the POST buffer and in the slab. *)
Lemma row_bounds sz sy :
  0 <= sz < bs -> 0 <= sy < h ->
  sz .* 8388608 .+ sy .* 8192 = sz * 8388608 + sy * 8192
  /\ sz .* 8388608 .+ sy .* 8192 .+ w .* 8 = sz * 8388608 + sy * 8192 + w * 8
  /\ sz .* (X * 8 * Y) .+ sy .* (X * 8) = sz * (X * 8 * Y) + sy * (X * 8)
  /\ sz .* (X * 8 * Y) .+ sy .* (X * 8) .+ w .* 8
     = sz * (X * 8 * Y) + sy * (X * 8) + w * 8
  /\ sz * 8388608 + sy * 8192 + w * 8 <= 8388608 * bs
  /\ sz * (X * 8 * Y) + sy * (X * 8) + w * 8 <= X * 8 * Y * bs.
Proof.
  intros Hsz Hsy.
  assert (sz * 8388608 + sy * 8192 + w * 8 <= 8388608 * bs) by nia.
  assert (0 <= sz * (X * 8 * Y)) by nia.
  assert (0 <= sy * (X * 8)) by nia.
  assert (sz * (X * 8 * Y) + sy * (X * 8) + w * 8 <= X * 8 * Y * bs).
  { assert (sy * (X * 8) + w * 8 <= X * 8 * Y) by nia.
    assert ((sz + 1) * (X * 8 * Y) <= X * 8 * Y * bs) by nia. lia. }
  rewrite (mul_id sz 8388608) by range_lia.
  rewrite (mul_id sy 8192) by range_lia.
  rewrite (mul_id w 8) by range_lia.
  rewrite (mul_id sz (X * 8 * Y)) by range_lia.
  rewrite (mul_id sy (X * 8)) by range_lia.
  rewrite (add_id (sz * 8388608)) by range_lia.
  rewrite (add_id (sz * 8388608 + sy * 8192)) by range_lia.
  rewrite (add_id (sz * (X * 8 * Y))) by range_lia.
  rewrite (add_id (sz * (X * 8 * Y) + sy * (X * 8))) by range_lia.
  repeat split; lia.
Qed.

Lemma copyRow_offsets sz sy :
  Tiled.copyRow config data (w .* 8) sz sy
  = update_bytebuf
      (fun b => copy b (sz .* 8388608 .+ sy .* 8192)
                  (sz .* 8388608 .+ sy .* 8192 .+ w .* 8) data
                  (sz .* (X * 8 * Y) .+ sy .* (X * 8))
                  (sz .* (X * 8 * Y) .+ sy .* (X * 8) .+ w .* 8)).
Proof.
  unfold Tiled.copyRow. cbv zeta.
  change (Tiled.sendSize .* 8 .* Tiled.sendSize) with 8388608.
  change (Tiled.sendSize .* 8) with 8192.
  fold X. fold Y.
  destruct xBytes_id as (-> & ->). reflexivity.
Qed.

Lemma copyRow_frame sz sy i v :
  0 <= sz < bs -> 0 <= sy < h ->
  ~ sz * 8388608 + sy * 8192 <= i < sz * 8388608 + sy * 8192 + w * 8 ->
  inv (fun s => byteAt (bytebuf s) i = v)
    (Tiled.copyRow config data (w .* 8) sz sy).
Proof.
  intros Hsz Hsy Hi. rewrite copyRow_offsets. apply inv_update.
  intros s b Hs Hcopy. cbn [bytebuf].
  destruct (row_bounds sz sy Hsz Hsy) as (B1 & B2 & S1 & S2 & L1 & L2).
  rewrite B2, B1, S2, S1 in Hcopy.
  apply copy_Some in Hcopy as (_ & _ & _ & _ & _ & _ & Hframe).
  rewrite Hframe; [exact Hs | lia].
Qed.

Lemma copyRow_run sz sy s :
  0 <= sz < bs -> 0 <= sy < h ->
  len (bytebuf s) = 8388608 * bs ->
  exists b,
    Tiled.copyRow config data (w .* 8) sz sy s = (Next tt, mkStore b (out s))
    /\ len b = 8388608 * bs
    /\ forall k, 0 <= k < w * 8 ->
         byteAt b (sz * 8388608 + sy * 8192 + k)
         = byteAt data (sz * (X * 8 * Y) + sy * (X * 8) + k).
Proof.
  intros Hsz Hsy Hbuf. rewrite copyRow_offsets. unfold update_bytebuf.
  destruct (row_bounds sz sy Hsz Hsy) as (B1 & B2 & S1 & S2 & L1 & L2).
  rewrite B2, B1, S2, S1.
  destruct (copy_ok (bytebuf s) (sz * 8388608 + sy * 8192)
              (sz * 8388608 + sy * 8192 + w * 8) data
              (sz * (X * 8 * Y) + sy * (X * 8))
              (sz * (X * 8 * Y) + sy * (X * 8) + w * 8))
    as [b Hcopy]; try nia.
  rewrite Hcopy. exists b. split; [reflexivity |].
  apply copy_Some in Hcopy as (_ & _ & _ & _ & Hl & Hin & _).
  split; [congruence |]. intros k Hk. apply Hin. lia.
Qed.

(** The loop over the rows of plane [sz], from row [sy0] on. *)
Lemma copyRows_frame fuel sz sy0 i v :
  0 <= sz < bs -> 0 <= sy0 ->
  (forall sy, sy0 <= sy < h ->
     ~ sz * 8388608 + sy * 8192 <= i < sz * 8388608 + sy * 8192 + w * 8) ->
  inv (fun s => byteAt (bytebuf s) i = v)
    (for_ fuel (fun sy => sy <? h) (fun sy => sy .+ 1)
       (fun sy _ => Tiled.copyRow config data (w .* 8) sz sy) sy0 tt).
Proof.
  intros Hsz Hsy0 Hi.
  apply (inv_for_in _ (fun sy => sy0 <= sy)); [| | lia].
  - intros sy Hsy Hc. apply Z.ltb_lt in Hc.
    rewrite add_id by range_lia. lia.
  - intros sy [] Hsy Hc. apply Z.ltb_lt in Hc.
    apply copyRow_frame; try lia. apply Hi. lia.
Qed.

Lemma copyRows_run sz :
  0 <= sz < bs ->
  forall n fuel sy0 s,
  (n <= fuel)%nat -> 0 <= sy0 -> Z.of_nat n = h - sy0 ->
  len (bytebuf s) = 8388608 * bs ->
  exists b,
    for_ fuel (fun sy => sy <? h) (fun sy => sy .+ 1)
      (fun sy _ => Tiled.copyRow config data (w .* 8) sz sy) sy0 tt s
    = (Next tt, mkStore b (out s))
    /\ len b = 8388608 * bs
    /\ forall sy k, sy0 <= sy < h -> 0 <= k < w * 8 ->
         byteAt b (sz * 8388608 + sy * 8192 + k)
         = byteAt data (sz * (X * 8 * Y) + sy * (X * 8) + k).
Proof.
  intros Hsz. induction n as [| n IH]; intros fuel sy0 s Hfuel Hsy0 Hn Hbuf.
  - exists (bytebuf s). split; [| split; [exact Hbuf | intros; lia]].
    destruct s as [b o].
    destruct fuel; cbn [for_]; destruct (Z.ltb_spec sy0 h); try lia;
      reflexivity.
  - destruct fuel as [| fuel]; [lia |]. cbn [for_].
    destruct (Z.ltb_spec sy0 h); [| lia].
    destruct (copyRow_run sz sy0 s Hsz ltac:(lia) Hbuf) as (b1 & E1 & L1 & C1).
    unfold bind at 1. rewrite E1.
    rewrite (add_id sy0 1) by range_lia.
    destruct (IH fuel (sy0 + 1) (mkStore b1 (out s))) as (b & E & L & C);
      try lia; [exact L1 |].
    exists b. split; [exact E |]. split; [exact L |].
    intros sy k Hsy Hk.
    destruct (Z.eq_dec sy sy0) as [-> | Hne]; [| apply C; lia].
    pose proof (copyRows_frame fuel sz (sy0 + 1)
                  (sz * 8388608 + sy0 * 8192 + k)
                  (byteAt data (sz * (X * 8 * Y) + sy0 * (X * 8) + k))
                  Hsz ltac:(lia)) as F.
    unfold inv in F.
    specialize (F ltac:(intros; lia) (mkStore b1 (out s)) (C1 k Hk)).
    rewrite E in F. exact F.
Qed.

(** The loop over the planes, from plane [sz0] on; [fuel] is for the rows
    of each plane. *)
Lemma copyPlanes_frame fuel fuel' sz0 i v :
  0 <= sz0 ->
  (forall sz sy, sz0 <= sz < bs -> 0 <= sy < h ->
     ~ sz * 8388608 + sy * 8192 <= i < sz * 8388608 + sy * 8192 + w * 8) ->
  inv (fun s => byteAt (bytebuf s) i = v)
    (for_ fuel' (fun sz => sz <? bs) (fun sz => sz .+ 1)
       (fun sz _ =>
          for_ fuel (fun sy => sy <? h) (fun sy => sy .+ 1)
            (fun sy _ => Tiled.copyRow config data (w .* 8) sz sy) 0 tt)
       sz0 tt).
Proof.
  intros Hsz0 Hi.
  apply (inv_for_in _ (fun sz => sz0 <= sz)); [| | lia].
  - intros sz Hsz Hc. apply Z.ltb_lt in Hc.
    rewrite add_id by range_lia. lia.
  - intros sz [] Hsz Hc. apply Z.ltb_lt in Hc.
    apply copyRows_frame; try lia. intros. apply Hi; lia.
Qed.

Lemma copyPlanes_run fuel :
  h <= Z.of_nat fuel ->
  forall n fuel' sz0 s,
  (n <= fuel')%nat -> 0 <= sz0 -> Z.of_nat n = bs - sz0 ->
  len (bytebuf s) = 8388608 * bs ->
  exists b,
    for_ fuel' (fun sz => sz <? bs) (fun sz => sz .+ 1)
      (fun sz _ =>
         for_ fuel (fun sy => sy <? h) (fun sy => sy .+ 1)
           (fun sy _ => Tiled.copyRow config data (w .* 8) sz sy) 0 tt)
      sz0 tt s
    = (Next tt, mkStore b (out s))
    /\ len b = 8388608 * bs
    /\ forall sz sy k, sz0 <= sz < bs -> 0 <= sy < h -> 0 <= k < w * 8 ->
         byteAt b (sz * 8388608 + sy * 8192 + k)
         = byteAt data (sz * (X * 8 * Y) + sy * (X * 8) + k).
Proof.
  intros Hfuel.
  induction n as [| n IH]; intros fuel' sz0 s Hfuel' Hsz0 Hn Hbuf.
  - exists (bytebuf s). split; [| split; [exact Hbuf | intros; lia]].
    destruct s as [b o].
    destruct fuel'; cbn [for_]; destruct (Z.ltb_spec sz0 bs); try lia;
      reflexivity.
  - destruct fuel' as [| fuel']; [lia |]. cbn [for_].
    destruct (Z.ltb_spec sz0 bs); [| lia].
    destruct (copyRows_run sz0 ltac:(lia) (Z.to_nat h) fuel 0 s
                ltac:(lia) ltac:(lia) ltac:(lia) Hbuf)
      as (b1 & E1 & L1 & C1).
    unfold bind at 1. rewrite E1.
    rewrite (add_id sz0 1) by range_lia.
    destruct (IH fuel' (sz0 + 1) (mkStore b1 (out s))) as (b & E & L & C);
      try lia; [exact L1 |].
    exists b. split; [exact E |]. split; [exact L |].
    intros sz sy k Hsz Hsy Hk.
    destruct (Z.eq_dec sz sz0) as [-> | Hne]; [| apply C; lia].
    pose proof (copyPlanes_frame fuel fuel' (sz0 + 1)
                  (sz0 * 8388608 + sy * 8192 + k)
                  (byteAt data (sz0 * (X * 8 * Y) + sy * (X * 8) + k))
                  ltac:(lia)) as F.
    unfold inv in F.
    specialize (F ltac:(intros; lia) (mkStore b1 (out s))
                  (C1 sy k ltac:(lia) Hk)).
    rewrite E in F. exact F.
Qed.

(** The tile at the origin: the buffer is made, filled and POSTed, and
    [processSlab] returns. *)
Lemma sendTile_run fuel s :
  h <= Z.of_nat fuel -> bs <= Z.of_nat fuel ->
  exists b,
    isTileBuffer X Y bs w h data b
    /\ Tiled.sendTile env flags fuel config slabBegZ data 0 0 w h s
       = if dryrun flags
         then (Return None,
               mkStore b
                 (out s ++
                  [Printf (Posting (tile_url (Config.URI config) 0 0 slabBegZ))]))
         else (Return (postResult env
                         (tile_url (Config.URI config) 0 0 slabBegZ) b),
               mkStore b
                 (out s ++
                  [Printf (Posting (tile_url (Config.URI config) 0 0 slabBegZ));
                   Post (tile_url (Config.URI config) 0 0 slabBegZ) b])).
Proof.
  intros Hfh Hfb. unfold Tiled.sendTile. cbv zeta.
  change (Tiled.sendSize .* 8 .* Tiled.sendSize) with 8388608.
  fold bs.
  rewrite (mul_id 8388608 bs) by range_lia.
  set (s0 := mkStore (repeat x00 (Z.to_nat (8388608 * bs))) (out s)).
  destruct (copyPlanes_run fuel Hfh (Z.to_nat bs) fuel 0 s0)
    as (b & E & L & C); try lia.
  { subst s0. cbn [bytebuf]. apply len_repeat. lia. }
  exists b. split.
  - split; [exact L |]. split; [intros; apply C; lia |].
    intros i Hi Hout.
    pose proof (copyPlanes_frame fuel fuel 0 i (Some x00) ltac:(lia)) as F.
    unfold inv in F. specialize (F ltac:(intros; apply Hout; lia) s0).
    rewrite E in F. apply F. subst s0. cbn [bytebuf].
    apply byteAt_repeat. exact Hi.
  - unfold bind at 1. unfold update_bytebuf at 1.
    rewrite make_Some by lia. fold s0.
    unfold bind at 1. rewrite E.
    unfold printf. rewrite bind_emit. cbn [bytebuf out].
    destruct (dryrun flags).
    + subst s0. reflexivity.
    + subst s0. cbn [out].
      cbv beta iota zeta
        delta [bind get_bytebuf post emit postResult return_ stop ret].
      cbn [bytebuf out].
      destruct (http_Post env _ b) as [code |]; [| now rewrite <- app_assoc].
      destruct (code =? StatusOK); now rewrite <- app_assoc.
Qed.

End FirstTile.

(** The first directory that meets the slab, with an artifact of the
    expected length: the tile at the origin is POSTed and [processSlab]
    returns. *)
Lemma tiled_first_tile_run
  (env : Env) (flags : Flags) (fuel : nat) (config : Config.t) (slabBegZ : Z)
  (pre rest : list SlabDir.t) (dir : SlabDir.t) (raw data : bytes)
  (s s1 : Store) :
  0 < Config.SizeX config ->
  0 < Config.SizeY config ->
  0 < blocksize flags ->
  Config.SizeX config * 8 * Config.SizeY config * blocksize flags
  <= GoInt.max_int ->
  8388608 * blocksize flags <= GoInt.max_int ->
  1024 <= Z.of_nat fuel ->
  blocksize flags <= Z.of_nat fuel ->
  dryrun flags = false ->
  Config.Directories config = pre ++ dir :: rest ->
  forEach pre
    (fun d _ => Tiled.slabFromDir env flags fuel config slabBegZ d) tt
    (mkStore (bytebuf s) (out s ++ [Printf (ProcessingSlab slabBegZ)]))
  = (Next tt, s1) ->
  (slabBegZ >? SlabDir.EndZ dir)
  || (slabBegZ .+ blocksize flags .- 1 <? SlabDir.BegZ dir) = false ->
  os_Open env (filepath_Join env (SlabDir.Path dir)
                 (fmt_Sprintf env (SlabDir.Template dir) slabBegZ))
  = Some raw ->
  gzip_ReadAll env raw = Some data ->
  len data
  = Config.SizeX config * 8 * Config.SizeY config * blocksize flags ->
  exists b,
    isTileBuffer (Config.SizeX config) (Config.SizeY config) (blocksize flags)
      (Z.min 1024 (Config.SizeX config)) (Z.min 1024 (Config.SizeY config))
      data b
    /\ Tiled.processSlab env flags fuel config slabBegZ s
       = (Return (postResult env
                    (tile_url (Config.URI config) 0 0 slabBegZ) b),
          mkStore b
            (out s1 ++
             [Printf (GettingData slabBegZ (slabBegZ .+ blocksize flags .- 1)
                        (filepath_Join env (SlabDir.Path dir)
                           (fmt_Sprintf env (SlabDir.Template dir) slabBegZ)));
              Open (filepath_Join env (SlabDir.Path dir)
                      (fmt_Sprintf env (SlabDir.Template dir) slabBegZ));
              Printf (Posting (tile_url (Config.URI config) 0 0 slabBegZ));
              Post (tile_url (Config.URI config) 0 0 slabBegZ) b])).
Proof.
  intros HX HY Hbs Hslab Hsend Hf1 Hf2 Hdry Hdirs Hpre Hmeet Hopen Hgz Hdata.
  set (name := filepath_Join env (SlabDir.Path dir)
                 (fmt_Sprintf env (SlabDir.Template dir) slabBegZ)) in *.
  set (s2 := mkStore (bytebuf s1)
               ((out s1 ++
                 [Printf (GettingData slabBegZ
                            (slabBegZ .+ blocksize flags .- 1) name)]) ++
                [Open name])).
  destruct (sendTile_run env flags config slabBegZ data HX HY Hbs Hslab Hsend
              Hdata (Z.min 1024 (Config.SizeX config))
              (Z.min 1024 (Config.SizeY config)) ltac:(lia) ltac:(lia)
              fuel s2 ltac:(lia) ltac:(lia))
    as (b & Hb & Erun).
  rewrite Hdry in Erun.
  exists b. split; [exact Hb |].
  unfold Tiled.processSlab. rewrite Hdirs.
  unfold printf at 1. rewrite bind_emit.
  unfold bind at 1. rewrite (forEach_reach _ _ _ _ _ _ _ _ Hpre).
  unfold bind at 1.
  assert (Hdir :
    Tiled.slabFromDir env flags fuel config slabBegZ dir s1
    = (Return (postResult env (tile_url (Config.URI config) 0 0 slabBegZ) b),
       mkStore b
         (out s2 ++
          [Printf (Posting (tile_url (Config.URI config) 0 0 slabBegZ));
           Post (tile_url (Config.URI config) 0 0 slabBegZ) b]))).
  { unfold Tiled.slabFromDir. cbv zeta. rewrite Hmeet. fold name.
    unfold printf. rewrite bind_emit. unfold open.
    rewrite bind_assoc, bind_emit, Hopen. cbv beta iota. rewrite bind_ret.
    unfold gunzip. rewrite Hgz, bind_ret. cbn [bytebuf out]. fold s2.
    destruct (xBytes_id flags config HX HY Hbs Hslab) as (E1 & E2).
    rewrite E2. rewrite mul_id by range_lia.
    destruct (Z.eqb_spec (len data)
                (Config.SizeX config * 8 * Config.SizeY config
                 * blocksize flags)) as [_ | Hne]; [| contradiction].
    cbn [negb]. unfold forTiles.
    destruct fuel as [| fuel']; [lia |].
    cbn [for_].
    destruct (Z.ltb_spec 0 (Config.SizeY config)); [| lia].
    destruct (Z.ltb_spec 0 (Config.SizeX config)); [| lia].
    unfold bind at 1. unfold bind at 1.
    change (0 .+ Tiled.sendSize) with 1024.
    change Tiled.sendSize with 1024.
    replace (if 1024 >? Config.SizeX config
             then 1024 .- (1024 .- Config.SizeX config) else 1024)
      with (Z.min 1024 (Config.SizeX config)).
    2:{ destruct (Z.gtb_spec 1024 (Config.SizeX config)); [| lia].
        rewrite (sub_id 1024 (Config.SizeX config)) by range_lia.
        rewrite sub_id by range_lia. lia. }
    replace (if 1024 >? Config.SizeY config then Config.SizeY config else 1024)
      with (Z.min 1024 (Config.SizeY config))
      by (destruct (Z.gtb_spec 1024 (Config.SizeY config)); lia).
    rewrite Erun. reflexivity. }
  rewrite Hdir. subst s2. cbn [out].
  rewrite <- !app_assoc. reflexivity.
Qed.

(** A volume of one slab: when the checks pass and [processSlab] returns
    [nil] for the slab, [main] ends normally in the store that the call
    leaves. *)
Lemma one_slab_volume flags fuel config (processSlab : Z -> M unit) s s0 s' :
  validate flags config s = (Next tt, s0) ->
  Config.BegZ config <= Config.EndZ config ->
  Config.EndZ config < Config.BegZ config .+ blocksize flags ->
  processSlab (Config.BegZ config) s0 = (Return None, s') ->
  (validate flags config ;; slabLoop flags (S fuel) config processSlab) s
  = (Next tt, s').
Proof.
  intros Hval Hle Hgt Hrun. unfold bind at 1. rewrite Hval.
  unfold slabLoop. cbn [for_].
  destruct (Z.leb_spec (Config.BegZ config) (Config.EndZ config)); [| lia].
  unfold bind at 1. unfold bind at 1. unfold call. rewrite Hrun.
  cbv beta iota. unfold ret at 1.
  destruct fuel; cbn [for_];
    destruct (Z.leb_spec (Config.BegZ config .+ blocksize flags)
                (Config.EndZ config)); try lia; reflexivity.
Qed.

(* ================================================================== *)
(** * One POST per slab in the tiling variant *)

(** C1 (the code departs from the claim).  [processSlab] of src/main.go
    POSTs at most once per call, whatever the configuration, the
    environment, the flags and the fuel: the body of the tiling loops ends
    in [return nil].  For an extent of 1025 by 1 the loops would visit two
    tiles; a run of [main] on such a volume, of the one slab at plane 1,
    passes the checks, POSTs one buffer, for the offset [(0, 0, 1)], and
    ends normally: the tile at [(1024, 0)] is never sent. *)
Theorem tiled_processSlab_stops_after_first_tile :
  (forall env flags fuel config slabBegZ s,
     (List.length
        (posts (out (snd (Tiled.processSlab env flags fuel config
                            slabBegZ s))))
      <= List.length (posts (out s)) + 1)%nat)
  /\ tileGrid 3 (Config.SizeX twoTileConfig) (Config.SizeY twoTileConfig)
       Tiled.sendSize
     = Some [mkTile 0 0 1024 1; mkTile 1024 0 1 1]
  /\ exists b,
       Tiled.main twoTileEnv flagsOne 1024 twoTileConfig start
       = (Next tt,
          mkStore b
            [Printf (ProcessingSlab 1); Printf (GettingData 1 1 "in/s1.gz");
             Open "in/s1.gz"; Printf (Posting "http://dvid/0_0_1");
             Post "http://dvid/0_0_1" b]).
Proof.
  split; [intros; apply Tiled_processSlab_posts_le_1 |].
  split; [reflexivity |].
  destruct (tiled_first_tile_run twoTileEnv flagsOne 1024 twoTileConfig 1
              [] [] (SlabDir.mk "in" 1 2 "s%d.gz") (stored twoTileData)
              twoTileData start (mkStore [] [Printf (ProcessingSlab 1)])
              ltac:(reflexivity) ltac:(reflexivity) ltac:(reflexivity)
              ltac:(vm_compute; discriminate) ltac:(vm_compute; discriminate)
              ltac:(vm_compute; discriminate) ltac:(vm_compute; discriminate)
              eq_refl eq_refl eq_refl
              ltac:(vm_compute; reflexivity) ltac:(vm_compute; reflexivity)
              ltac:(vm_compute; reflexivity) ltac:(vm_compute; reflexivity))
    as (b & _ & Erun).
  exists b. unfold Tiled.main.
  apply (one_slab_volume flagsOne 1023 twoTileConfig _ start start).
  - reflexivity.
  - vm_compute; discriminate.
  - vm_compute; reflexivity.
  - exact Erun.
Qed.

(* ================================================================== *)
(** * Artifacts of the wrong size *)

(** C2, as the code has it.  When [processSlab] reaches a directory that
    meets the slab and whose artifact decompresses to a length other than
    [SizeX * SizeY * 8 * blocksize], it returns the size mismatch with the
    buffer as it was and nothing POSTed for that artifact: always in the
    tiling variant, and in the stitching variant when the directory does not
    cover the slab's whole window. *)
Theorem wrong_size_artifact_is_rejected
  (env : Env) (flags : Flags) (fuel : nat) (config : Config.t) (slabBegZ : Z)
  (pre rest : list SlabDir.t) (dir : SlabDir.t) (raw data : bytes)
  (s : Store) :
  Config.Directories config = pre ++ dir :: rest ->
  (slabBegZ >? SlabDir.EndZ dir)
  || (slabBegZ .+ blocksize flags .- 1 <? SlabDir.BegZ dir) = false ->
  gzip_ReadAll env raw = Some data ->
  len data
  <> Config.SizeX config .* Config.SizeY config .* 8 .* blocksize flags ->
  (forall s1,
     os_Open env (filepath_Join env (SlabDir.Path dir)
                    (fmt_Sprintf env (SlabDir.Template dir) slabBegZ))
     = Some raw ->
     forEach pre
       (fun d _ => Tiled.slabFromDir env flags fuel config slabBegZ d) tt
       (mkStore (bytebuf s) (out s ++ [Printf (ProcessingSlab slabBegZ)]))
     = (Next tt, s1) ->
     Tiled.processSlab env flags fuel config slabBegZ s
     = (Return (Some (SizeMismatch
                        (Config.SizeX config .* Config.SizeY config .* 8
                         .* blocksize flags) (len data))),
        mkStore (bytebuf s1)
          (out s1 ++
           [Printf (GettingData slabBegZ (slabBegZ .+ blocksize flags .- 1)
                      (filepath_Join env (SlabDir.Path dir)
                         (fmt_Sprintf env (SlabDir.Template dir) slabBegZ)));
            Open (filepath_Join env (SlabDir.Path dir)
                    (fmt_Sprintf env (SlabDir.Template dir) slabBegZ))])))
  /\
  (forall zfilled s1,
     os_Open env (fmt_Sprintf env (SlabDir.Template dir) slabBegZ)
     = Some raw ->
     (SlabDir.BegZ dir <=? slabBegZ)
     && (slabBegZ .+ blocksize flags .- 1 <=? SlabDir.EndZ dir) = false ->
     forEach pre (Stitch.stitchDir env flags fuel config slabBegZ) 0
       (mkStore (zero_all (bytebuf s)) (out s))
     = (Next zfilled, s1) ->
     Stitch.processSlab env flags fuel config slabBegZ s
     = (Return (Some (SizeMismatch
                        (Config.SizeX config .* Config.SizeY config .* 8
                         .* blocksize flags) (len data))),
        mkStore (bytebuf s1)
          (out s1 ++
           [Printf (GettingData (Z.max slabBegZ (SlabDir.BegZ dir))
                      (Z.min (slabBegZ .+ blocksize flags .- 1)
                         (SlabDir.EndZ dir))
                      (fmt_Sprintf env (SlabDir.Template dir) slabBegZ));
            Open (fmt_Sprintf env (SlabDir.Template dir) slabBegZ)]))).
Proof.
  intros Hdirs Hmeet Hgz Hlen. split.
  - intros s1 Hopen Hpre. unfold Tiled.processSlab. rewrite Hdirs.
    unfold bind at 1. unfold printf, emit at 1.
    unfold bind at 1.
    rewrite (forEach_reach _ _ _ _ _ _ _ _ Hpre).
    unfold bind at 1.
    rewrite (Tiled_slabFromDir_size env flags fuel config slabBegZ dir raw data
               Hmeet Hgz Hlen s1 Hopen).
    reflexivity.
  - intros zfilled s1 Hopen Hpart Hpre. unfold Stitch.processSlab.
    rewrite Hdirs.
    unfold bind at 1. unfold update_bytebuf at 1.
    unfold bind at 1.
    rewrite (forEach_reach _ _ _ _ _ _ _ _ Hpre).
    unfold bind at 1.
    rewrite (Stitch_stitchDir_size env flags fuel config slabBegZ dir raw data
               Hmeet Hgz Hlen zfilled s1 Hopen Hpart).
    reflexivity.
Qed.

Lemma wrong_size_artifact_is_rejected_witness :
  Tiled.processSlab halfEnv flagsTwo 3 partialConfig 0 start
  = (Return (Some (SizeMismatch 16 8)),
     mkStore []
       [Printf (ProcessingSlab 0); Printf (GettingData 0 1 "in/s0.gz");
        Open "in/s0.gz"])
  /\ Stitch.processSlab halfEnv flagsTwo 3 partialConfig 0 start
     = (Return (Some (SizeMismatch 16 8)),
        mkStore [] [Printf (GettingData 1 1 "s0.gz"); Open "s0.gz"]).
Proof.
  pose proof (wrong_size_artifact_is_rejected halfEnv flagsTwo 3 partialConfig
                0 [] [] (SlabDir.mk "in" 1 5 "s%d.gz") (stored eightBytes)
                eightBytes start eq_refl eq_refl eq_refl
                ltac:(vm_compute; discriminate)) as [HT HS].
  split.
  - exact (HT _ eq_refl eq_refl).
  - exact (HS 0 _ eq_refl eq_refl eq_refl).
Defined.

(** In the stitching variant a directory that covers the slab's whole window
    has its file POSTed as it is: here the directory holds the planes 1 to
    9, so that the checks of [main] pass, the artifact of the slab at plane
    3 decompresses to one byte where eight are expected, and [processSlab]
    POSTs the three bytes of the file and returns [nil]; the run of [main]
    ends normally with that POST. *)
Lemma wrong_size_artifact_is_posted :
  gzip_ReadAll shortEnv (stored [x2a]) = Some [x2a]
  /\ len [x2a]
     <> Config.SizeX fullCoverConfig * Config.SizeY fullCoverConfig * 8
        * Config.Thickness fullCoverConfig
  /\ Stitch.processSlab shortEnv flagsOne 2 fullCoverConfig 3
       (mkStore (repeat x00 8) [])
     = (Return None,
        mkStore (repeat x00 8)
          [Printf (GettingData 3 3 "s3.gz"); Open "s3.gz";
           Printf (SendingData "http://dvid/0_0_3");
           Post "http://dvid/0_0_3" (stored [x2a])])
  /\ Stitch.main shortEnv flagsOne 2 fullCoverConfig start
     = (Next tt,
        mkStore (repeat x00 8)
          [Printf (GettingData 3 3 "s3.gz"); Open "s3.gz";
           Printf (SendingData "http://dvid/0_0_3");
           Post "http://dvid/0_0_3" (stored [x2a])]).
Proof.
  split; [reflexivity |]. split; [vm_compute; discriminate |].
  split; vm_compute; reflexivity.
Qed.

(* ================================================================== *)
(** * A partly covered slab *)

(** C3 (the code departs from the claim).  Slabs of two planes, one
    directory that begins at plane 1: for the slab at 0 the stitching
    [processSlab] clears the buffer, copies plane 1 into it and returns
    [nil] without a POST; [main] ends with nothing sent. *)
Theorem partial_slab_is_never_sent :
  Stitch.processSlab partialEnv flagsTwo 3 partialConfig 0
    (mkStore (repeat xff 16) [])
  = (Return None,
     mkStore (repeat x00 8 ++ eightBytes)
       [Printf (GettingData 1 1 "s0.gz"); Open "s0.gz";
        Printf (Transferring 1 1)])
  /\ posts (out (snd (Stitch.main partialEnv flagsTwo 3 partialConfig start)))
     = []
  /\ fst (Stitch.main partialEnv flagsTwo 3 partialConfig start) = Next tt.
Proof.
  repeat split; vm_compute; reflexivity.
Qed.

(* ================================================================== *)
(** * A bad Z range is reported and processed *)

(** The violations that do end the process: no directory, a thickness
    other than the block size, or a directory that does not begin above the
    end of the one before it.  Both programs exit with status 1, having
    opened and POSTed nothing. *)
Lemma invalid_config_exits env flags fuel config s :
  Config.Directories config = []
  \/ Config.Thickness config <> blocksize flags
  \/ ~ inOrder 0 (Config.Directories config) ->
  exists s',
    sameIO s s'
    /\ Tiled.main env flags fuel config s = (Exit 1, s')
    /\ Stitch.main env flags fuel config s = (Exit 1, s').
Proof.
  intros Hbad. pose proof (validate_spec flags config s) as H.
  unfold wp in H. unfold Tiled.main, Stitch.main, bind.
  destruct (validate flags config s) as [r s']. cbn [fst snd] in H.
  destruct H as (Hio & Hr). exists s'.
  destruct r as [a | e | c | |]; try contradiction.
  - destruct Hr as (H1 & H2 & H3). tauto.
  - destruct Hr as (-> & _). auto.
Qed.

(** A volume of one slab whose [processSlab] returns [nil]. *)
Lemma slabLoop_single flags fuel config (processSlab : Z -> M unit) s s' :
  Config.BegZ config <= Config.EndZ config ->
  Config.EndZ config < Config.BegZ config .+ blocksize flags ->
  processSlab (Config.BegZ config) s = (Return None, s') ->
  slabLoop flags (S fuel) config processSlab s = (Next tt, s').
Proof.
  intros Hle Hgt Hrun. unfold slabLoop. cbn [for_].
  destruct (Z.leb_spec (Config.BegZ config) (Config.EndZ config)); [| lia].
  unfold bind at 1. unfold bind at 1. unfold call. rewrite Hrun.
  cbv beta iota. unfold ret at 1.
  destruct fuel; cbn [for_];
    destruct (Z.leb_spec (Config.BegZ config .+ blocksize flags)
                (Config.EndZ config)); try lia; reflexivity.
Qed.

(** C4 (the code departs from the claim).  For a directory whose range ends
    where it begins, the checks print the bad-range line and pass; both
    programs then open the slab's artifact, POST it and end normally. *)
Theorem bad_range_is_processed :
  (forall s,
     validate flagsOne badRangeConfig s
     = (Next tt,
        mkStore (bytebuf s) (out s ++ [Printf (BadZRange "in" 3 3)])))
  /\ Stitch.main badRangeEnv flagsOne 2 badRangeConfig start
     = (Next tt,
        mkStore (repeat x00 8)
          [Printf (BadZRange "in" 3 3);
           Printf (GettingData 3 3 "s3.gz"); Open "s3.gz";
           Printf (SendingData "http://dvid/0_0_3");
           Post "http://dvid/0_0_3" (stored eightBytes)])
  /\ exists b,
       Tiled.main badRangeEnv flagsOne 1024 badRangeConfig start
       = (Next tt,
          mkStore b
            [Printf (BadZRange "in" 3 3); Printf (ProcessingSlab 3);
             Printf (GettingData 3 3 "in/s3.gz"); Open "in/s3.gz";
             Printf (Posting "http://dvid/0_0_3");
             Post "http://dvid/0_0_3" b]).
Proof.
  assert (Hval : forall s,
            validate flagsOne badRangeConfig s
            = (Next tt,
               mkStore (bytebuf s) (out s ++ [Printf (BadZRange "in" 3 3)])))
    by (intros s; reflexivity).
  split; [exact Hval |].
  split; [vm_compute; reflexivity |].
  destruct (tiled_first_tile_run badRangeEnv flagsOne 1024 badRangeConfig 3
              [] [] (SlabDir.mk "in" 3 3 "s%d.gz") (stored eightBytes)
              eightBytes
              (mkStore [] [Printf (BadZRange "in" 3 3)])
              (mkStore [] [Printf (BadZRange "in" 3 3);
                           Printf (ProcessingSlab 3)])
              ltac:(reflexivity) ltac:(reflexivity) ltac:(reflexivity)
              ltac:(vm_compute; discriminate) ltac:(vm_compute; discriminate)
              ltac:(vm_compute; discriminate) ltac:(vm_compute; discriminate)
              eq_refl eq_refl eq_refl
              ltac:(vm_compute; reflexivity) ltac:(vm_compute; reflexivity)
              ltac:(vm_compute; reflexivity) ltac:(vm_compute; reflexivity))
    as (b & _ & Erun).
  exists b. unfold Tiled.main.
  unfold bind at 1. rewrite (Hval start). 
  apply slabLoop_single.
  - vm_compute; discriminate.
  - vm_compute; reflexivity.
  - exact Erun.
Qed.

(* ================================================================== *)
(** * The tile grid is a partition *)

(** C5.  For positive extents and a positive maximum edge (with
    [extent + maxEdge] within Go's [int], so that the loop counters do not
    wrap), the tiling loops of src/main.go lines 209-224 end, given fuel for
    their [extent / maxEdge + 1] rounds, and the tiles they visit partition
    the rectangle of the two extents: every voxel column lies in exactly one
    tile of the list, which has no repeated tile; no tile is empty or leaves
    the extent; a tile is [maxEdge] wide and high unless it is the last of
    its row or column, where it is clipped to what remains; and the list is
    in row-major order. *)
Theorem tileGrid_partitions_extent (fuel : nat) (extentX extentY maxEdge : Z) :
  0 < extentX -> 0 < extentY -> 0 < maxEdge ->
  extentX + maxEdge <= GoInt.max_int ->
  extentY + maxEdge <= GoInt.max_int ->
  extentX / maxEdge < Z.of_nat fuel ->
  extentY / maxEdge < Z.of_nat fuel ->
  exists tiles,
    tileGrid fuel extentX extentY maxEdge = Some tiles /\
    (forall x y, 0 <= x < extentX -> 0 <= y < extentY ->
       exists t, In t tiles /\ covers t x y /\
                 forall t', In t' tiles -> covers t' x y -> t' = t) /\
    NoDup tiles /\
    (forall t, In t tiles ->
       0 <= ox t /\ 0 <= oy t /\ 0 < width t /\ 0 < height t /\
       ox t + width t <= extentX /\ oy t + height t <= extentY /\
       width t = Z.min maxEdge (extentX - ox t) /\
       height t = Z.min maxEdge (extentY - oy t)) /\
    StronglySorted rowMajor tiles.
Proof.
  intros HX HY HE HXr HYr FX FY.
  exists (grid extentX extentY maxEdge).
  split; [now apply tileGrid_grid |].
  split; [intros; now apply grid_covers_once |].
  split; [apply sorted_NoDup, grid_sorted; assumption |].
  split; [intros; now apply grid_shape |].
  apply grid_sorted; assumption.
Qed.

Lemma tileGrid_partitions_extent_witness :
  exists tiles,
    tileGrid 3 1500 1000 1024 = Some tiles /\
    (forall x y, 0 <= x < 1500 -> 0 <= y < 1000 ->
       exists t, In t tiles /\ covers t x y /\
                 forall t', In t' tiles -> covers t' x y -> t' = t) /\
    NoDup tiles /\
    (forall t, In t tiles ->
       0 <= ox t /\ 0 <= oy t /\ 0 < width t /\ 0 < height t /\
       ox t + width t <= 1500 /\ oy t + height t <= 1000 /\
       width t = Z.min 1024 (1500 - ox t) /\
       height t = Z.min 1024 (1000 - oy t)) /\
    StronglySorted rowMajor tiles.
Proof.
  apply (tileGrid_partitions_extent 3 1500 1000 1024);
    first [ reflexivity | unfold GoInt.max_int; lia ].
Defined.

(* ================================================================== *)
(** * The planes of a directory in the assembled slab *)

(** C6, as the code has it.  A directory that meets the slab without
    covering its whole window, reached by the loop with an artifact of the
    expected length: when [processSlab] ends, every plane [v] of the
    intersection holds, at the byte offset [(v - slabBegZ) * sliceBytes],
    the bytes the artifact has at that same offset, provided no later
    directory's range contains the plane.  (Sizes within Go's [int], fuel
    for [blocksize] rounds, and a buffer of [sliceBytes * blocksize] bytes
    as [main] allocates it.) *)
Theorem partial_cover_planes_are_copied
  (env : Env) (flags : Flags) (fuel : nat) (config : Config.t) (slabBegZ : Z)
  (pre rest : list SlabDir.t) (dir : SlabDir.t) (raw data : bytes)
  (zfilled : Z) (s s1 : Store) (v k : Z) :
  0 <= Stitch.sliceBytes config ->
  0 < blocksize flags <= GoInt.max_int ->
  Stitch.sliceBytes config * blocksize flags <= GoInt.max_int ->
  GoInt.min_int <= slabBegZ ->
  slabBegZ + blocksize flags <= GoInt.max_int ->
  blocksize flags <= Z.of_nat fuel ->
  Config.Directories config = pre ++ dir :: rest ->
  len (bytebuf s) = Stitch.sliceBytes config * blocksize flags ->
  forEach pre (Stitch.stitchDir env flags fuel config slabBegZ) 0
    (mkStore (zero_all (bytebuf s)) (out s))
  = (Next zfilled, s1) ->
  (slabBegZ >? SlabDir.EndZ dir)
  || (slabBegZ .+ blocksize flags .- 1 <? SlabDir.BegZ dir) = false ->
  (SlabDir.BegZ dir <=? slabBegZ)
  && (slabBegZ .+ blocksize flags .- 1 <=? SlabDir.EndZ dir) = false ->
  os_Open env (fmt_Sprintf env (SlabDir.Template dir) slabBegZ) = Some raw ->
  gzip_ReadAll env raw = Some data ->
  len data = Stitch.sliceBytes config * blocksize flags ->
  Z.max slabBegZ (SlabDir.BegZ dir) <= v
  <= Z.min (slabBegZ + blocksize flags - 1) (SlabDir.EndZ dir) ->
  (forall d', In d' rest -> ~ SlabDir.BegZ d' <= v <= SlabDir.EndZ d') ->
  0 <= k < Stitch.sliceBytes config ->
  byteAt
    (bytebuf (snd (Stitch.processSlab env flags fuel config slabBegZ s)))
    ((v - slabBegZ) * Stitch.sliceBytes config + k)
  = byteAt data ((v - slabBegZ) * Stitch.sliceBytes config + k).
Proof.
  intros HsB Hbs Hprod Hz Hzend Hfuel Hdirs Hbuf Hpre Hmeet Hpart Hopen Hgz
    Hdata Hv Hlater Hk.
  unfold Stitch.processSlab. unfold bind at 1. unfold update_bytebuf at 1.
  rewrite Hdirs.
  apply (after_bind
           (fun s0 => byteAt (bytebuf s0)
                        ((v - slabBegZ) * Stitch.sliceBytes config + k)
                      = byteAt data
                          ((v - slabBegZ) * Stitch.sliceBytes config + k)));
    [| intros; apply inv_stop].
  rewrite (forEach_reach _ _ _ _ _ _ _ _ Hpre).
  apply (after_bind
           (fun s0 => byteAt (bytebuf s0)
                        ((v - slabBegZ) * Stitch.sliceBytes config + k)
                      = byteAt data
                          ((v - slabBegZ) * Stitch.sliceBytes config + k))).
  - eapply stitchDir_copies; try eassumption.
    pose proof (inv_forEach
                  (fun s0 => len (bytebuf s0)
                             = Stitch.sliceBytes config * blocksize flags)
                  pre (Stitch.stitchDir env flags fuel config slabBegZ)
                  (fun d a _ => stitchDir_len env flags fuel config slabBegZ
                                  d a _)
                  0 (mkStore (zero_all (bytebuf s)) (out s))) as Hl.
    rewrite Hpre in Hl. apply Hl. cbn [bytebuf].
    rewrite len_zero_all. exact Hbuf.
  - intros zfilled'. apply inv_forEach. intros d' a Hd'.
    apply stitchDir_frame; try assumption.
    intros w Hw Hcov.
    assert (w <> v) by (intros ->; exact (Hlater d' Hd' Hcov)).
    nia.
Qed.

Lemma partial_cover_planes_are_copied_witness :
  byteAt
    (bytebuf (snd (Stitch.processSlab straddleEnv flagsTwo 2 twoRangeConfig 4
                     (mkStore (repeat xff 16) []))))
    ((4 - 4) * Stitch.sliceBytes twoRangeConfig + 3)
  = byteAt (repeat x11 16) ((4 - 4) * Stitch.sliceBytes twoRangeConfig + 3).
Proof.
  apply (partial_cover_planes_are_copied straddleEnv flagsTwo 2 twoRangeConfig
           4 [] [SlabDir.mk "b" 5 8 "b%d.gz"] (SlabDir.mk "a" 1 4 "a%d.gz")
           (stored (repeat x11 16)) (repeat x11 16)
           0 (mkStore (repeat xff 16) []) (mkStore (repeat x00 16) []) 4 3);
    try reflexivity; try (vm_compute; intuition discriminate).
  intros d' [<- | []]. cbn. lia.
Defined.

(** A directory that covers the slab's whole window is not copied: the
    directory holds the planes 1 to 9, so that the checks of [main] pass,
    plane 3 lies in the slab and in the directory's range, the artifact has
    the expected eight bytes, and when [processSlab] has ended the buffer's
    first byte is the zero it was cleared to, not the artifact's; the run of
    [main] ends normally, having POSTed the file, with the buffer all
    zero. *)
Lemma full_cover_planes_are_not_copied :
  SlabDir.BegZ (SlabDir.mk "in" 1 9 "s%d.gz") <= 3
  <= SlabDir.EndZ (SlabDir.mk "in" 1 9 "s%d.gz")
  /\ Config.Directories fullCoverConfig = [SlabDir.mk "in" 1 9 "s%d.gz"]
  /\ os_Open badRangeEnv (fmt_Sprintf badRangeEnv "s%d.gz" 3)
     = Some (stored eightBytes)
  /\ gzip_ReadAll badRangeEnv (stored eightBytes) = Some eightBytes
  /\ len eightBytes
     = Stitch.sliceBytes fullCoverConfig * blocksize flagsOne
  /\ byteAt
       (bytebuf (snd (Stitch.processSlab badRangeEnv flagsOne 2
                        fullCoverConfig 3 (mkStore (repeat x00 8) []))))
       ((3 - 3) * Stitch.sliceBytes fullCoverConfig + 0)
     = Some x00
  /\ byteAt eightBytes ((3 - 3) * Stitch.sliceBytes fullCoverConfig + 0)
     = Some x01
  /\ Stitch.main badRangeEnv flagsOne 2 fullCoverConfig start
     = (Next tt,
        mkStore (repeat x00 8)
          [Printf (GettingData 3 3 "s3.gz"); Open "s3.gz";
           Printf (SendingData "http://dvid/0_0_3");
           Post "http://dvid/0_0_3" (stored eightBytes)]).
Proof.
  repeat split; try (vm_compute; congruence); reflexivity.
Qed.

(* ================================================================== *)
(** * Stale bytes and uncovered planes *)

Lemma zero_all_length b1 b2 :
  len b1 = len b2 -> zero_all b1 = zero_all b2.
Proof.
  unfold len, zero_all. intros H. apply Nat2Z.inj in H. revert b2 H.
  induction b1 as [| x b1 IH]; intros [| y b2] H; cbn in *;
    try discriminate; [reflexivity |].
  f_equal. apply IH. now injection H.
Qed.

(** C7.  The stitching [processSlab] first clears the whole reused buffer:
    its run depends on the length of the buffer it is given and not on the
    bytes left in it, and when it ends, however it ends, every byte of a
    plane of the slab's window that no directory's range contains is zero.
    (The sizes are taken within Go's [int]: a plane of [sliceBytes] bytes,
    [blocksize] planes, and no product or sum that wraps.) *)
Theorem stale_bytes_never_leak
  (env : Env) (flags : Flags) (fuel : nat) (config : Config.t)
  (slabBegZ : Z) (s : Store) :
  0 <= Stitch.sliceBytes config ->
  0 < blocksize flags <= GoInt.max_int ->
  Stitch.sliceBytes config * blocksize flags <= GoInt.max_int ->
  GoInt.min_int <= slabBegZ ->
  slabBegZ + blocksize flags <= GoInt.max_int ->
  (forall s2,
     len (bytebuf s2) = len (bytebuf s) -> out s2 = out s ->
     Stitch.processSlab env flags fuel config slabBegZ s2
     = Stitch.processSlab env flags fuel config slabBegZ s)
  /\
  (forall p k,
     0 <= p < blocksize flags ->
     (forall d, In d (Config.Directories config) ->
        ~ SlabDir.BegZ d <= slabBegZ + p <= SlabDir.EndZ d) ->
     0 <= k < Stitch.sliceBytes config ->
     p * Stitch.sliceBytes config + k < len (bytebuf s) ->
     byteAt
       (bytebuf (snd (Stitch.processSlab env flags fuel config slabBegZ s)))
       (p * Stitch.sliceBytes config + k)
     = Some x00).
Proof.
  intros HsB Hbs Hprod Hz Hzend. split.
  - intros s2 Hlen Hout. unfold Stitch.processSlab.
    unfold bind at 1 3. unfold update_bytebuf.
    rewrite (zero_all_length _ _ Hlen), Hout. reflexivity.
  - intros p k Hp Hfree Hk Hin.
    unfold Stitch.processSlab. unfold bind at 1. unfold update_bytebuf at 1.
    set (I := fun s0 : Store =>
                byteAt (bytebuf s0) (p * Stitch.sliceBytes config + k)
                = Some x00).
    assert (Hrest : inv I
              (forEach (Config.Directories config)
                 (Stitch.stitchDir env flags fuel config slabBegZ) 0 ;;
               @return_ unit None)).
    { apply inv_bind; [| intro; apply inv_stop].
      apply inv_forEach. intros d zfilled Hd.
      apply stitchDir_frame; try assumption.
      intros volZ Hv Hcov. specialize (Hfree d Hd).
      assert (volZ - slabBegZ <> p) by lia. nia. }
    apply Hrest. unfold I. cbn [bytebuf].
    apply byteAt_zero_all. nia.
Qed.

Lemma stale_bytes_never_leak_witness :
  (forall s2,
     len (bytebuf s2) = len (bytebuf (mkStore (repeat xff 16) [])) ->
     out s2 = out (mkStore (repeat xff 16) []) ->
     Stitch.processSlab partialEnv flagsTwo 3 partialConfig 0 s2
     = Stitch.processSlab partialEnv flagsTwo 3 partialConfig 0
         (mkStore (repeat xff 16) []))
  /\
  (forall p k,
     0 <= p < blocksize flagsTwo ->
     (forall d, In d (Config.Directories partialConfig) ->
        ~ SlabDir.BegZ d <= 0 + p <= SlabDir.EndZ d) ->
     0 <= k < Stitch.sliceBytes partialConfig ->
     p * Stitch.sliceBytes partialConfig + k
     < len (bytebuf (mkStore (repeat xff 16) [])) ->
     byteAt
       (bytebuf (snd (Stitch.processSlab partialEnv flagsTwo 3 partialConfig 0
                        (mkStore (repeat xff 16) []))))
       (p * Stitch.sliceBytes partialConfig + k)
     = Some x00).
Proof.
  apply (stale_bytes_never_leak partialEnv flagsTwo 3 partialConfig 0
           (mkStore (repeat xff 16) []));
    vm_compute; intuition discriminate.
Defined.

(* ================================================================== *)
(** * The buffer handed to the sink *)

(** C8, as the code has it.  For the first directory that meets the slab,
    with an artifact of the expected length, [processSlab] of src/main.go
    POSTs one buffer, to the URL of the offset [(0, 0, slabBegZ)]: a buffer
    of [1024 * 1024 * 8 * blocksize] bytes whatever the extent, with rows
    8192 bytes apart, where each row of the tile begins with the bytes of
    the slab's row (as many as the tile is wide) and every other byte is
    zero.  (Sizes within Go's [int], and fuel for 1024 rows and [blocksize]
    planes.) *)
Theorem first_tile_is_full_sized
  (env : Env) (flags : Flags) (fuel : nat) (config : Config.t) (slabBegZ : Z)
  (pre rest : list SlabDir.t) (dir : SlabDir.t) (raw data : bytes)
  (s s1 : Store) :
  0 < Config.SizeX config ->
  0 < Config.SizeY config ->
  0 < blocksize flags ->
  Config.SizeX config * 8 * Config.SizeY config * blocksize flags
  <= GoInt.max_int ->
  8388608 * blocksize flags <= GoInt.max_int ->
  1024 <= Z.of_nat fuel ->
  blocksize flags <= Z.of_nat fuel ->
  dryrun flags = false ->
  Config.Directories config = pre ++ dir :: rest ->
  forEach pre
    (fun d _ => Tiled.slabFromDir env flags fuel config slabBegZ d) tt
    (mkStore (bytebuf s) (out s ++ [Printf (ProcessingSlab slabBegZ)]))
  = (Next tt, s1) ->
  (slabBegZ >? SlabDir.EndZ dir)
  || (slabBegZ .+ blocksize flags .- 1 <? SlabDir.BegZ dir) = false ->
  os_Open env (filepath_Join env (SlabDir.Path dir)
                 (fmt_Sprintf env (SlabDir.Template dir) slabBegZ))
  = Some raw ->
  gzip_ReadAll env raw = Some data ->
  len data
  = Config.SizeX config * 8 * Config.SizeY config * blocksize flags ->
  exists b,
    isTileBuffer (Config.SizeX config) (Config.SizeY config) (blocksize flags)
      (Z.min 1024 (Config.SizeX config)) (Z.min 1024 (Config.SizeY config))
      data b
    /\ Tiled.processSlab env flags fuel config slabBegZ s
       = (Return (postResult env
                    (tile_url (Config.URI config) 0 0 slabBegZ) b),
          mkStore b
            (out s1 ++
             [Printf (GettingData slabBegZ (slabBegZ .+ blocksize flags .- 1)
                        (filepath_Join env (SlabDir.Path dir)
                           (fmt_Sprintf env (SlabDir.Template dir) slabBegZ)));
              Open (filepath_Join env (SlabDir.Path dir)
                      (fmt_Sprintf env (SlabDir.Template dir) slabBegZ));
              Printf (Posting (tile_url (Config.URI config) 0 0 slabBegZ));
              Post (tile_url (Config.URI config) 0 0 slabBegZ) b])).
Proof.
  intros. eapply tiled_first_tile_run; eassumption.
Qed.

Lemma first_tile_is_full_sized_witness :
  exists b,
    isTileBuffer 1 1 1 1 1 eightBytes b
    /\ Tiled.processSlab oneVoxelEnv flagsOne 1024 oneVoxelConfig 1 start
       = (Return None,
          mkStore b
            [Printf (ProcessingSlab 1); Printf (GettingData 1 1 "in/s1.gz");
             Open "in/s1.gz"; Printf (Posting "http://dvid/0_0_1");
             Post "http://dvid/0_0_1" b]).
Proof.
  exact (first_tile_is_full_sized oneVoxelEnv flagsOne 1024 oneVoxelConfig 1
           [] [] (SlabDir.mk "in" 1 2 "s%d.gz") (stored eightBytes) eightBytes
           start (mkStore [] [Printf (ProcessingSlab 1)])
           ltac:(reflexivity) ltac:(reflexivity) ltac:(reflexivity)
           ltac:(vm_compute; discriminate) ltac:(vm_compute; discriminate)
           ltac:(vm_compute; discriminate) ltac:(vm_compute; discriminate)
           eq_refl eq_refl eq_refl
           ltac:(vm_compute; reflexivity) ltac:(vm_compute; reflexivity)
           ltac:(vm_compute; reflexivity) ltac:(vm_compute; reflexivity)).
Defined.

(** The volume of a single voxel, at plane 1, has one tile, one voxel wide
    and high, which at one plane and 8 bytes a voxel is 8 bytes; a run of
    [main] on it passes the checks and ends normally, and the one buffer it
    POSTs has 8388608 bytes. *)
Lemma one_voxel_tile_is_not_eight_bytes :
  tileGrid 1 (Config.SizeX oneVoxelConfig) (Config.SizeY oneVoxelConfig) 1024
  = Some [mkTile 0 0 1 1]
  /\ exists b,
       fst (Tiled.main oneVoxelEnv flagsOne 1024 oneVoxelConfig start)
       = Next tt
       /\ posts (out (snd (Tiled.main oneVoxelEnv flagsOne 1024
                             oneVoxelConfig start)))
          = [("http://dvid/0_0_1"%string, b)]
       /\ len b = 8388608
       /\ len b <> 1 * 1 * blocksize flagsOne * 8.
Proof.
  split; [reflexivity |].
  destruct (tiled_first_tile_run oneVoxelEnv flagsOne 1024 oneVoxelConfig 1
              [] [] (SlabDir.mk "in" 1 2 "s%d.gz") (stored eightBytes)
              eightBytes start (mkStore [] [Printf (ProcessingSlab 1)])
              ltac:(reflexivity) ltac:(reflexivity) ltac:(reflexivity)
              ltac:(vm_compute; discriminate) ltac:(vm_compute; discriminate)
              ltac:(vm_compute; discriminate) ltac:(vm_compute; discriminate)
              eq_refl eq_refl eq_refl
              ltac:(vm_compute; reflexivity) ltac:(vm_compute; reflexivity)
              ltac:(vm_compute; reflexivity) ltac:(vm_compute; reflexivity))
    as (b & (Hlen & _) & Erun).
  exists b.
  assert (Emain :
    Tiled.main oneVoxelEnv flagsOne 1024 oneVoxelConfig start
    = (Next tt,
       mkStore b
         [Printf (ProcessingSlab 1); Printf (GettingData 1 1 "in/s1.gz");
          Open "in/s1.gz"; Printf (Posting "http://dvid/0_0_1");
          Post "http://dvid/0_0_1" b])).
  { unfold Tiled.main.
    apply (one_slab_volume flagsOne 1023 oneVoxelConfig _ start start).
    - reflexivity.
    - vm_compute; discriminate.
    - vm_compute; reflexivity.
    - exact Erun. }
  rewrite Emain. cbn [fst snd out].
  split; [reflexivity |]. split; [reflexivity |]. split; [exact Hlen |].
  rewrite Hlen. cbn. lia.
Qed.

(* ================================================================== *)
(** * A later directory may begin below 1 *)

(** The first directory must begin above 0: otherwise the checks end the
    process with status 1 before anything is opened or POSTed. *)
Lemma first_BegZ_above_0 flags config d rest s :
  Config.Directories config = d :: rest ->
  SlabDir.BegZ d <= 0 ->
  exists s',
    validate flags config s = (Exit 1, s') /\ sameIO s s'.
Proof.
  intros Ed Hd. pose proof (validate_spec flags config s) as H.
  unfold wp in H. destruct (validate flags config s) as [r s'].
  cbn [fst snd] in H. destruct H as (Hio & Hr). exists s'.
  destruct r as [a | e | c | |]; try contradiction.
  - destruct Hr as (_ & _ & Ho). rewrite Ed in Ho. cbn in Ho. lia.
  - destruct Hr as (-> & _). auto.
Qed.

(** C9 (the code departs from the claim).  The checks pass a configuration
    whose second directory begins at -3: the first one, from 1 to -5, is
    reported as a bad range and still sets the running maximum to -5. *)
Theorem later_BegZ_below_1_passes :
  forall s,
    validate flagsOne negativeConfig s
    = (Next tt, mkStore (bytebuf s) (out s ++ [Printf (BadZRange "a" 1 (-5))]))
    /\ map SlabDir.BegZ (Config.Directories negativeConfig) = [1; -3].
Proof.
  intros s. split; reflexivity.
Qed.

(* ================================================================== *)
(** * The names of the opened files *)



(* ================================================================== *)
(** * More of the two programs *)

(** ** Running a sequence *)

Lemma bind_Next {A B} (m : M A) (f : A -> M B) s a s' :
  m s = (Next a, s') -> bind m f s = f a s'.
Proof. intros E. unfold bind. now rewrite E. Qed.


(* ================================================================== *)
(** * What the checks accept *)

Lemma checkDirectories_run dirs : forall maxZ s,
  inOrder maxZ dirs ->
  exists z,
    forEach dirs checkDirectory maxZ s
    = (Next z, mkStore (bytebuf s) (out s ++ badRangeLines dirs)).
Proof.
  induction dirs as [| d rest IH]; intros maxZ s Ho.
  - exists maxZ. cbn. rewrite app_nil_r. now destruct s.
  - destruct Ho as (Hd & Hrest).
    cbn [forEach]. unfold checkDirectory at 1.
    destruct (Z.leb_spec (SlabDir.BegZ d) maxZ); [lia |].
    unfold badRangeLines. cbn [flat_map]. fold (badRangeLines rest).
    destruct (SlabDir.EndZ d <=? SlabDir.BegZ d).
    + destruct (IH (SlabDir.EndZ d)
                  (mkStore (bytebuf s)
                     (out s ++
                      [Printf (BadZRange (SlabDir.Path d) (SlabDir.BegZ d)
                                 (SlabDir.EndZ d))])) Hrest) as (z & E).
      exists z. cbv beta iota zeta delta [bind ret printf emit].
      rewrite E. cbn [bytebuf out]. rewrite <- app_assoc. reflexivity.
    + destruct (IH (SlabDir.EndZ d) s Hrest) as (z & E).
      exists z. cbv beta iota zeta delta [bind ret printf emit].
      rewrite E. reflexivity.
Qed.

(** X1.  A configuration with at least one directory, the thickness that
    [-blocksize] names and directories in ascending order passes the checks
    of [main]: nothing is opened or POSTed, the buffer is untouched, and the
    only lines printed are the bad-range reports, one for each directory
    whose range ends at or before its beginning. *)
Theorem valid_config_passes flags config s :
  Config.Directories config <> [] ->
  Config.Thickness config = blocksize flags ->
  inOrder 0 (Config.Directories config) ->
  validate flags config s
  = (Next tt,
     mkStore (bytebuf s)
       (out s ++ badRangeLines (Config.Directories config))).
Proof.
  intros Hne Ht Ho. unfold validate.
  destruct (Z.ltb_spec (Z.of_nat (List.length (Config.Directories config))) 1)
    as [Hl | _].
  { destruct (Config.Directories config); [contradiction | cbn in Hl; lia]. }
  rewrite bind_ret.
  destruct (Z.eqb_spec (Config.Thickness config) (blocksize flags));
    [| contradiction].
  cbn [negb]. rewrite bind_ret. unfold checkDirectories.
  destruct (checkDirectories_run _ 0 s Ho) as (z & E).
  unfold bind. rewrite E. reflexivity.
Qed.

Lemma valid_config_passes_witness :
  validate flagsTwo twoRangeConfig start
  = (Next tt,
     mkStore (bytebuf start)
       (out start ++ badRangeLines (Config.Directories twoRangeConfig))).
Proof.
  apply (valid_config_passes flagsTwo twoRangeConfig start).
  - discriminate.
  - reflexivity.
  - cbn. lia.
Defined.

Lemma inOrder_above dirs : forall maxZ,
  inOrder maxZ dirs ->
  (forall d, In d dirs -> SlabDir.BegZ d <= SlabDir.EndZ d) ->
  forall d, In d dirs -> maxZ < SlabDir.BegZ d.
Proof.
  induction dirs as [| d0 rest IH]; intros maxZ Ho Hr d Hd; [contradiction |].
  destruct Ho as (H0 & Hrest). destruct Hd as [<- | Hd]; [exact H0 |].
  pose proof (Hr d0 (or_introl eq_refl)).
  pose proof (IH _ Hrest (fun d' H' => Hr d' (or_intror H')) d Hd). lia.
Qed.




(** X3.  The checks of [main] decide exactly three things.  They pass when
    there is at least one directory, [Thickness] equals the block size and
    each directory begins above the end of the one before it (above 0 for
    the first); otherwise they end the process with status 1, and then both
    programs have opened nothing, POSTed nothing and not touched the
    buffer.  Nothing else about the configuration is checked: not the
    sizes, not the URI, not the volume's own range, and not whether a
    directory ends before it begins. *)
Theorem checks_decide env flags fuel config s :
  (fst (validate flags config s) = Next tt
   <-> (Config.Directories config <> []
        /\ Config.Thickness config = blocksize flags
        /\ inOrder 0 (Config.Directories config)))
  /\ (fst (validate flags config s) = Exit 1
      <-> (Config.Directories config = []
           \/ Config.Thickness config <> blocksize flags
           \/ ~ inOrder 0 (Config.Directories config)))
  /\ (Config.Directories config = []
      \/ Config.Thickness config <> blocksize flags
      \/ ~ inOrder 0 (Config.Directories config) ->
      exists s',
        sameIO s s'
        /\ Tiled.main env flags fuel config s = (Exit 1, s')
        /\ Stitch.main env flags fuel config s = (Exit 1, s')).
Proof.
  pose proof (validate_spec flags config s) as H. unfold wp in H.
  destruct (validate flags config s) as [r s'] eqn:Ev. cbn [fst snd] in *.
  destruct H as (_ & Hr).
  split; [| split].
  - split.
    + intros ->. exact Hr.
    + intros (H1 & H2 & H3).
      destruct r as [[] | e | c | |]; try contradiction; [reflexivity |].
      destruct Hr as (_ & [Hb | [Hb | Hb]]); contradiction.
  - split.
    + intros ->. exact (proj2 Hr).
    + intros Hbad.
      destruct r as [[] | e | c | |]; try contradiction.
      * destruct Hr as (H1 & H2 & H3).
        destruct Hbad as [Hb | [Hb | Hb]]; contradiction.
      * destruct Hr as (-> & _). reflexivity.
  - apply invalid_config_exits.
Qed.

(* ================================================================== *)
(** * Dry runs *)

Lemma inv_call I (m : M unit) : inv I m -> inv I (call m).
Proof.
  intros H s Hs. specialize (H s Hs). unfold call.
  destruct (m s) as [[a | e | c | |] s']; exact H.
Qed.

Ltac inv_walk :=
  first [ apply inv_call
        | apply inv_forEach; intros
        | inv_step ].

Lemma posts_printf evs m : posts (evs ++ [Printf m]) = posts evs.
Proof. rewrite posts_app. apply app_nil_r. Qed.

Lemma posts_open evs n : posts (evs ++ [Open n]) = posts evs.
Proof. rewrite posts_app. apply app_nil_r. Qed.

Ltac quiet_side :=
  intros; cbn [bytebuf out];
  rewrite ?posts_printf, ?posts_open; assumption.

Lemma validate_quiet flags config P :
  inv (fun s => posts (out s) = P) (validate flags config).
Proof.
  unfold validate, checkDirectories, checkDirectory.
  repeat inv_walk; quiet_side.
Qed.

Section DryRun.
Variables (env : Env) (flags : Flags) (fuel : nat) (config : Config.t).
Hypothesis Hdry : dryrun flags = true.
Variable P : list (string * bytes).

Lemma Tiled_processSlab_dry slabBegZ :
  inv (fun s => posts (out s) = P)
    (Tiled.processSlab env flags fuel config slabBegZ).
Proof.
  unfold Tiled.processSlab, Tiled.slabFromDir, forTiles, Tiled.sendTile,
    Tiled.copyRow.
  cbv zeta. rewrite Hdry.
  repeat inv_walk; quiet_side.
Qed.

Lemma Stitch_processSlab_dry slabBegZ :
  inv (fun s => posts (out s) = P)
    (Stitch.processSlab env flags fuel config slabBegZ).
Proof.
  unfold Stitch.processSlab, Stitch.stitchDir, Stitch.transferPlanes.
  cbv zeta. rewrite Hdry.
  repeat inv_walk; quiet_side.
Qed.

Lemma slabLoop_quiet (processSlab : Z -> M unit) :
  (forall z, inv (fun s => posts (out s) = P) (processSlab z)) ->
  inv (fun s => posts (out s) = P) (slabLoop flags fuel config processSlab).
Proof.
  intros Hp. unfold slabLoop.
  repeat first [ apply Hp | inv_walk ]; quiet_side.
Qed.

End DryRun.

(** X4.  With [-dryrun] neither program POSTs anything: not in a call of
    [processSlab], whatever the slab and the store it starts from, and not
    in a whole run of [main], whatever the configuration, the files, the
    server and the fuel. *)
Theorem dry_run_never_posts env flags fuel config slabBegZ s :
  dryrun flags = true ->
  posts (out (snd (Tiled.processSlab env flags fuel config slabBegZ s)))
  = posts (out s)
  /\ posts (out (snd (Stitch.processSlab env flags fuel config slabBegZ s)))
     = posts (out s)
  /\ posts (out (snd (Tiled.main env flags fuel config s))) = posts (out s)
  /\ posts (out (snd (Stitch.main env flags fuel config s))) = posts (out s).
Proof.
  intros Hdry. repeat split.
  - now apply Tiled_processSlab_dry.
  - now apply Stitch_processSlab_dry.
  - unfold Tiled.main. apply inv_bind; [apply validate_quiet | intros _ |].
    + apply slabLoop_quiet. intros z. now apply Tiled_processSlab_dry.
    + reflexivity.
  - unfold Stitch.main.
    apply inv_bind; [apply validate_quiet | intros _ |]; [| reflexivity].
    apply inv_bind; [| intros _].
    + apply inv_update. intros; assumption.
    + apply slabLoop_quiet. intros z. now apply Stitch_processSlab_dry.
Qed.

Lemma dry_run_never_posts_witness :
  posts (out (snd (Tiled.processSlab badRangeEnv flagsDry 2 badRangeConfig 3
                     start)))
  = posts (out start)
  /\ posts (out (snd (Stitch.processSlab badRangeEnv flagsDry 2 badRangeConfig
                        3 start)))
     = posts (out start)
  /\ posts (out (snd (Tiled.main badRangeEnv flagsDry 2 badRangeConfig start)))
     = posts (out start)
  /\ posts (out (snd (Stitch.main badRangeEnv flagsDry 2 badRangeConfig
                        start)))
     = posts (out start).
Proof.
  apply (dry_run_never_posts badRangeEnv flagsDry 2 badRangeConfig 3 start).
  reflexivity.
Defined.

(** ** A dry run against a run that the server accepts *)

Lemma withoutPosts_app a b :
  withoutPosts (a ++ b) = withoutPosts a ++ withoutPosts b.
Proof. apply filter_app. Qed.

Lemma agree_emit s1 s2 e :
  agree s1 s2 ->
  agree (mkStore (bytebuf s1) (out s1 ++ [e]))
    (mkStore (bytebuf s2) (out s2 ++ [e])).
Proof.
  intros (A & B). split; cbn [bytebuf out]; [exact A |].
  rewrite !withoutPosts_app, B. reflexivity.
Qed.

Lemma agree_post s1 s2 url b :
  agree s1 s2 -> agree s1 (mkStore (bytebuf s2) (out s2 ++ [Post url b])).
Proof.
  intros (A & B). split; cbn [bytebuf out]; [exact A |].
  rewrite withoutPosts_app, <- B. cbn. now rewrite app_nil_r.
Qed.

Lemma sim_ret {A} (a : A) : sim (ret a) (ret a).
Proof. intros s1 s2 H. split; [reflexivity | exact H]. Qed.

Lemma sim_stop {A} (r : res A) : sim (stop r) (stop r).
Proof. intros s1 s2 H. split; [reflexivity | exact H]. Qed.

Lemma sim_emit e : sim (emit e) (emit e).
Proof. intros s1 s2 H. split; [reflexivity | now apply agree_emit]. Qed.

Lemma sim_update f : sim (update_bytebuf f) (update_bytebuf f).
Proof.
  intros s1 s2 (A & B). unfold update_bytebuf. rewrite A.
  destruct (f (bytebuf s2)); (split; [reflexivity |]); split; auto.
Qed.

Lemma sim_bind {A B} (m1 m2 : M A) (f1 f2 : A -> M B) :
  sim m1 m2 -> (forall a, sim (f1 a) (f2 a)) -> sim (bind m1 f1) (bind m2 f2).
Proof.
  intros Hm Hf s1 s2 H. destruct (Hm s1 s2 H) as (Er & Hs). unfold bind.
  destruct (m1 s1) as [r1 s1'], (m2 s2) as [r2 s2']. cbn [fst snd] in *.
  subst r2. destruct r1 as [a | e | c | |]; cbn [fst snd]; auto.
  apply Hf, Hs.
Qed.

Lemma sim_for {A} fuel cond step (body1 body2 : Z -> A -> M A) :
  (forall i a, sim (body1 i a) (body2 i a)) ->
  forall i a,
    sim (for_ fuel cond step body1 i a) (for_ fuel cond step body2 i a).
Proof.
  intros Hbody. induction fuel as [| fuel IH]; intros i a; cbn [for_];
    destruct (cond i); try apply sim_stop; try apply sim_ret.
  apply sim_bind; auto.
Qed.

Lemma sim_forEach {X A} (xs : list X) (body1 body2 : X -> A -> M A) :
  (forall x a, sim (body1 x a) (body2 x a)) ->
  forall a, sim (forEach xs body1 a) (forEach xs body2 a).
Proof.
  intros Hbody. induction xs as [| x xs IH]; intros a; cbn [forEach].
  - apply sim_ret.
  - apply sim_bind; auto.
Qed.

Lemma sim_call (m1 m2 : M unit) : sim m1 m2 -> sim (call m1) (call m2).
Proof.
  intros Hm s1 s2 H. destruct (Hm s1 s2 H) as (Er & Hs). unfold call.
  destruct (m1 s1) as [r1 s1'], (m2 s2) as [r2 s2']. cbn [fst snd] in *.
  subst r2. destruct r1 as [a | e | c | |]; cbn [fst snd]; auto.
Qed.

(** Where the two runs differ: the dry run skips a POST that the server
    answers with 200. *)
Lemma sim_skip_post env url :
  (forall u b, http_Post env u b = Some StatusOK) ->
  sim (ret tt) (b <- get_bytebuf ;; post env url b).
Proof.
  intros Hok s1 s2 H. unfold bind, get_bytebuf, post, emit, ret.
  rewrite Hok. cbn. split; [reflexivity | now apply agree_post].
Qed.

Lemma sim_skip_post_file env url f :
  (forall u b, http_Post env u b = Some StatusOK) ->
  sim (ret tt) (post env url f).
Proof.
  intros Hok s1 s2 H. unfold bind, post, emit, ret.
  rewrite Hok. cbn. split; [reflexivity | now apply agree_post].
Qed.

Ltac sim_step :=
  lazymatch goal with
  | |- sim (ret tt) (bind get_bytebuf _) => apply sim_skip_post; assumption
  | |- sim (ret tt) (post _ _ _) => apply sim_skip_post_file; assumption
  | |- sim (bind _ _) (bind _ _) => apply sim_bind; [| intro]
  | |- sim (ret _) (ret _) => apply sim_ret
  | |- sim (stop _) (stop _) => apply sim_stop
  | |- sim (return_ _) (return_ _) => apply sim_stop
  | |- sim (exit _) (exit _) => apply sim_stop
  | |- sim (printf _) (printf _) => apply sim_emit
  | |- sim (emit _) (emit _) => apply sim_emit
  | |- sim (update_bytebuf _) (update_bytebuf _) => apply sim_update
  | |- sim (for_ _ _ _ _ _ _) (for_ _ _ _ _ _ _) => apply sim_for; intros
  | |- sim (forEach _ _ _) (forEach _ _ _) => apply sim_forEach; intros
  | |- sim (call _) (call _) => apply sim_call
  | |- sim (open _ _) (open _ _) => unfold open
  | |- sim (gunzip _ _) (gunzip _ _) => unfold gunzip
  | |- sim (if ?c then _ else _) (if ?c then _ else _) => destruct c
  | |- sim (match ?o with _ => _ end) (match ?o with _ => _ end) =>
      destruct o
  end.

(** X5.  A dry run does everything the real run does except the POSTs:
    against a server that answers every POST with 200, the run with
    [-dryrun] and the run without it end the same way, leave the same bytes
    in the buffer and produce the same events apart from the POSTs (the same
    files opened, the same lines printed, in the same order). *)
Theorem dry_run_matches_accepted_run env bs fuel config s :
  (forall url body, http_Post env url body = Some StatusOK) ->
  (fst (Tiled.main env (mkFlags bs true) fuel config s)
   = fst (Tiled.main env (mkFlags bs false) fuel config s)
   /\ agree (snd (Tiled.main env (mkFlags bs true) fuel config s))
        (snd (Tiled.main env (mkFlags bs false) fuel config s)))
  /\ (fst (Stitch.main env (mkFlags bs true) fuel config s)
      = fst (Stitch.main env (mkFlags bs false) fuel config s)
      /\ agree (snd (Stitch.main env (mkFlags bs true) fuel config s))
           (snd (Stitch.main env (mkFlags bs false) fuel config s))).
Proof.
  intros Hok. split.
  - assert (H : sim (Tiled.main env (mkFlags bs true) fuel config)
                  (Tiled.main env (mkFlags bs false) fuel config)).
    { unfold Tiled.main, validate, checkDirectories, checkDirectory, slabLoop,
        Tiled.processSlab, Tiled.slabFromDir, forTiles, Tiled.sendTile,
        Tiled.copyRow.
      cbv zeta. cbn [dryrun blocksize]. repeat sim_step. }
    apply H. split; reflexivity.
  - assert (H : sim (Stitch.main env (mkFlags bs true) fuel config)
                  (Stitch.main env (mkFlags bs false) fuel config)).
    { unfold Stitch.main, validate, checkDirectories, checkDirectory, slabLoop,
        Stitch.processSlab, Stitch.stitchDir, Stitch.transferPlanes.
      cbv zeta. cbn [dryrun blocksize]. repeat sim_step. }
    apply H. split; reflexivity.
Qed.

Lemma dry_run_matches_accepted_run_witness :
  (fst (Tiled.main badRangeEnv (mkFlags 1 true) 2 badRangeConfig start)
   = fst (Tiled.main badRangeEnv (mkFlags 1 false) 2 badRangeConfig start)
   /\ agree (snd (Tiled.main badRangeEnv (mkFlags 1 true) 2 badRangeConfig start))
        (snd (Tiled.main badRangeEnv (mkFlags 1 false) 2 badRangeConfig start)))
  /\ (fst (Stitch.main badRangeEnv (mkFlags 1 true) 2 badRangeConfig start)
      = fst (Stitch.main badRangeEnv (mkFlags 1 false) 2 badRangeConfig start)
      /\ agree (snd (Stitch.main badRangeEnv (mkFlags 1 true) 2 badRangeConfig
                       start))
           (snd (Stitch.main badRangeEnv (mkFlags 1 false) 2 badRangeConfig
                   start))).
Proof.
  apply (dry_run_matches_accepted_run badRangeEnv 1 2 badRangeConfig start).
  reflexivity.
Defined.

(* ================================================================== *)
(** * The POST is the last thing a slab does *)

Lemma postsLast_quiet {A} (m : M A) :
  (forall s, exists evs, out (snd (m s)) = out s ++ evs /\ posts evs = []) ->
  postsLast m.
Proof. intros H s. destruct (H s) as (evs & E & Q). eauto. Qed.

Lemma postsLast_ret {A} (a : A) : postsLast (ret a).
Proof.
  apply postsLast_quiet. intros s. exists []. now rewrite app_nil_r.
Qed.

Lemma postsLast_stop {A} (r : res A) : postsLast (stop r).
Proof.
  apply postsLast_quiet. intros s. exists []. now rewrite app_nil_r.
Qed.

Lemma postsLast_get : postsLast get_bytebuf.
Proof.
  apply postsLast_quiet. intros s. exists []. now rewrite app_nil_r.
Qed.

Lemma postsLast_printf m : postsLast (printf m).
Proof. apply postsLast_quiet. intros s. exists [Printf m]. auto. Qed.

Lemma postsLast_update f : postsLast (update_bytebuf f).
Proof.
  apply postsLast_quiet. intros s. exists []. unfold update_bytebuf.
  destruct (f (bytebuf s)); now rewrite app_nil_r.
Qed.

Lemma postsLast_open env name : postsLast (open env name).
Proof.
  apply postsLast_quiet. intros s. exists [Open name].
  unfold open, bind, emit. destruct (os_Open env name); auto.
Qed.

Lemma postsLast_gunzip env f : postsLast (gunzip env f).
Proof.
  unfold gunzip. destruct (gzip_ReadAll env f);
    [apply postsLast_ret | apply postsLast_stop].
Qed.

Lemma postsLast_bind {A B} (m : M A) (f : A -> M B) :
  postsLast m -> (forall a, postsLast (f a)) -> postsLast (bind m f).
Proof.
  intros Hm Hf s. destruct (Hm s) as (evs & E & Hevs). unfold bind.
  destruct (m s) as [[a | e | c | |] s'] eqn:Em; cbn [fst snd] in *;
    try (exists evs; split; [exact E |];
         destruct Hevs as [Q | (_ & L)];
         [left; exact Q | right; split; [discriminate | exact L]]).
  destruct Hevs as [Q | (Hn & _)]; [| now contradiction (Hn a)].
  destruct (Hf a s') as (evs2 & E2 & Hevs2).
  exists (evs ++ evs2). rewrite E2, E, app_assoc. split; [reflexivity |].
  destruct Hevs2 as [Q2 | (Hn2 & evs' & url & body & -> & Q2)].
  - left. rewrite posts_app, Q, Q2. reflexivity.
  - right. split; [exact Hn2 |].
    exists (evs ++ evs'), url, body. rewrite app_assoc.
    split; [reflexivity |]. rewrite posts_app, Q, Q2. reflexivity.
Qed.

Lemma postsLast_for {A} fuel cond step (body : Z -> A -> M A) :
  (forall i a, postsLast (body i a)) ->
  forall i a, postsLast (for_ fuel cond step body i a).
Proof.
  intros Hbody. induction fuel as [| fuel IH]; intros i a; cbn [for_];
    destruct (cond i); try apply postsLast_stop; try apply postsLast_ret.
  apply postsLast_bind; auto.
Qed.

Lemma postsLast_forEach {X A} (xs : list X) (body : X -> A -> M A) :
  (forall x a, postsLast (body x a)) ->
  forall a, postsLast (forEach xs body a).
Proof.
  intros Hbody. induction xs as [| x xs IH]; intros a; cbn [forEach].
  - apply postsLast_ret.
  - apply postsLast_bind; auto.
Qed.

(** A POST, unless it is a dry run, and then [return]. *)
Lemma postsLast_post_return {A} env (skip : bool) url (body : M bytes) :
  (forall s, exists b, body s = (Next b, s)) ->
  postsLast
    ((if skip then ret tt else b <- body ;; post env url b) ;;
     @return_ A None).
Proof.
  intros Hbody s. destruct skip.
  - exists []. rewrite app_nil_r. auto.
  - destruct (Hbody s) as (b & Eb). exists [Post url b]. 
    unfold bind, post, emit. rewrite Eb. cbn [bytebuf out].
    assert (L : exists evs' u body0,
              [Post url b] = evs' ++ [Post u body0] /\ posts evs' = [])
      by (exists [], url, b; auto).
    destruct (http_Post env url b) as [code |]; cbn.
    + destruct (code =? StatusOK); cbn;
        (split; [reflexivity |]); right; (split; [discriminate | exact L]).
    + split; [reflexivity |]. right. split; [discriminate | exact L].
Qed.

Lemma postsLast_post_file_return {A} env (skip : bool) url (f : bytes) :
  postsLast
    ((if skip then ret tt else post env url f) ;; @return_ A None).
Proof.
  pose proof (@postsLast_post_return A env skip url (ret f)
                ltac:(intros; eexists; reflexivity)) as H.
  intros s. specialize (H s). destruct skip; exact H.
Qed.

Ltac last_step :=
  lazymatch goal with
  | |- postsLast (bind (if _ then ret tt else bind _ _)
                    (fun _ => return_ None)) =>
      apply postsLast_post_return; intros; eexists; reflexivity
  | |- postsLast (bind (if _ then ret tt else post _ _ _)
                    (fun _ => return_ None)) =>
      apply postsLast_post_file_return
  | |- postsLast (bind _ _) => apply postsLast_bind; [| intro]
  | |- postsLast (ret _) => apply postsLast_ret
  | |- postsLast (stop _) => apply postsLast_stop
  | |- postsLast (return_ _) => apply postsLast_stop
  | |- postsLast (printf _) => apply postsLast_printf
  | |- postsLast (update_bytebuf _) => apply postsLast_update
  | |- postsLast (open _ _) => apply postsLast_open
  | |- postsLast (gunzip _ _) => apply postsLast_gunzip
  | |- postsLast (for_ _ _ _ _ _ _) => apply postsLast_for; intros
  | |- postsLast (forEach _ _ _) => apply postsLast_forEach; intros
  | |- postsLast (if ?c then _ else _) => destruct c eqn:?
  | |- postsLast (match ?o with _ => _ end) => destruct o eqn:?
  end.

(** X6.  In both variants a call of [processSlab] only adds to the log, and
    it POSTs at most once; when it does POST, the POST is the last thing it
    does (nothing is printed, opened or sent after it) and the call does
    not fall through. *)
Theorem processSlab_post_is_last env flags fuel config slabBegZ :
  postsLast (Tiled.processSlab env flags fuel config slabBegZ)
  /\ postsLast (Stitch.processSlab env flags fuel config slabBegZ).
Proof.
  split.
  - unfold Tiled.processSlab, Tiled.slabFromDir, forTiles, Tiled.sendTile,
      Tiled.copyRow.
    cbv zeta. repeat last_step.
  - unfold Stitch.processSlab, Stitch.stitchDir, Stitch.transferPlanes.
    cbv zeta. repeat last_step.
Qed.

(* ================================================================== *)
(** * Directories that do not meet the slab *)

Lemma opens_app a b : opens (a ++ b) = opens a ++ opens b.
Proof. unfold opens. apply flat_map_app. Qed.

Lemma Tiled_skip env flags fuel config slabBegZ pre :
  (forall d, In d pre -> misses flags slabBegZ d = true) ->
  forall s,
    forEach pre
      (fun d _ => Tiled.slabFromDir env flags fuel config slabBegZ d) tt s
    = (Next tt, s).
Proof.
  induction pre as [| d pre IH]; intros Hpre s; cbn [forEach]; [reflexivity |].
  unfold Tiled.slabFromDir at 1. cbv zeta.
  pose proof (Hpre d (or_introl eq_refl)) as Hd. unfold misses in Hd.
  rewrite Hd, bind_ret. apply IH. intros. apply Hpre. now right.
Qed.

Lemma Stitch_skip env flags fuel config slabBegZ pre :
  (forall d, In d pre -> misses flags slabBegZ d = true) ->
  forall zfilled s,
    forEach pre (Stitch.stitchDir env flags fuel config slabBegZ) zfilled s
    = (Next zfilled, s).
Proof.
  induction pre as [| d pre IH]; intros Hpre zfilled s; cbn [forEach];
    [reflexivity |].
  unfold Stitch.stitchDir at 1. cbv zeta.
  pose proof (Hpre d (or_introl eq_refl)) as Hd. unfold misses in Hd.
  rewrite Hd, bind_ret. apply IH. intros. apply Hpre. now right.
Qed.

Lemma processSlab_skips env flags fuel config slabBegZ s :
  (forall d, In d (Config.Directories config) ->
     misses flags slabBegZ d = true) ->
  Tiled.processSlab env flags fuel config slabBegZ s
  = (Return None,
     mkStore (bytebuf s) (out s ++ [Printf (ProcessingSlab slabBegZ)]))
  /\ Stitch.processSlab env flags fuel config slabBegZ s
     = (Return None, mkStore (zero_all (bytebuf s)) (out s)).
Proof.
  intros Hmiss. split.
  - unfold Tiled.processSlab, printf. rewrite bind_emit.
    unfold bind. rewrite Tiled_skip by exact Hmiss. reflexivity.
  - unfold Stitch.processSlab. unfold bind, update_bytebuf.
    rewrite Stitch_skip by exact Hmiss. reflexivity.
Qed.

(** X7.  A slab that no directory's range meets is skipped silently:
    [processSlab] opens nothing, POSTs nothing and returns [nil].  The
    tiling variant prints its "Processing slab" line and leaves the buffer
    alone; the stitching variant prints nothing and leaves the buffer
    cleared. *)
Theorem uncovered_slab_is_skipped env flags fuel config slabBegZ s :
  (forall d, In d (Config.Directories config) ->
     misses flags slabBegZ d = true) ->
  Tiled.processSlab env flags fuel config slabBegZ s
  = (Return None,
     mkStore (bytebuf s) (out s ++ [Printf (ProcessingSlab slabBegZ)]))
  /\ Stitch.processSlab env flags fuel config slabBegZ s
     = (Return None, mkStore (zero_all (bytebuf s)) (out s)).
Proof.
  intros. now apply processSlab_skips.
Qed.

Lemma uncovered_slab_is_skipped_witness :
  Tiled.processSlab cwdEnv flagsTwo 2 twoRangeConfig 9 start
  = (Return None,
     mkStore (bytebuf start) (out start ++ [Printf (ProcessingSlab 9)]))
  /\ Stitch.processSlab cwdEnv flagsTwo 2 twoRangeConfig 9 start
     = (Return None, mkStore (zero_all (bytebuf start)) (out start)).
Proof.
  apply (uncovered_slab_is_skipped cwdEnv flagsTwo 2 twoRangeConfig 9 start).
  intros d [<- | [<- | []]]; reflexivity.
Defined.

(* ================================================================== *)
(** * One artifact per slab in the tiling variant *)

Lemma noNext_bind_r {A B} (m : M A) (f : A -> M B) :
  (forall a, noNext (f a)) -> noNext (bind m f).
Proof.
  intros Hf s b. unfold bind.
  destruct (m s) as [[a | e | c | |] s']; cbn [fst]; try discriminate.
  apply Hf.
Qed.

Lemma noNext_bind_l {A B} (m : M A) (f : A -> M B) :
  noNext m -> noNext (bind m f).
Proof.
  intros Hm s b. unfold bind. specialize (Hm s).
  destruct (m s) as [[a | e | c | |] s']; cbn [fst] in *; try discriminate.
  now contradiction (Hm a).
Qed.

Lemma noNext_stop {A} (r : res A) :
  (forall a, r <> Next a) -> noNext (stop r).
Proof. intros H s a. apply H. Qed.

(** A loop whose condition holds at the start and whose body never falls
    through does not fall through. *)
Lemma noNext_for {A} fuel cond step (body : Z -> A -> M A) i a :
  cond i = true ->
  (forall a', noNext (body i a')) ->
  noNext (for_ fuel cond step body i a).
Proof.
  intros Hc Hbody. destruct fuel; cbn [for_]; rewrite Hc.
  - apply noNext_stop. discriminate.
  - apply noNext_bind_l, Hbody.
Qed.

(** What follows a statement that does not fall through is not run. *)
Lemma bind_stops {A B} (m : M A) (f : A -> M B) s :
  (forall a, fst (m s) <> Next a) ->
  snd (bind m f s) = snd (m s) /\ forall b, fst (bind m f s) <> Next b.
Proof.
  intros Hn. unfold bind.
  destruct (m s) as [[a | e | c | |] s']; cbn [fst snd] in *;
    try (split; [reflexivity | discriminate]).
  now contradiction (Hn a).
Qed.

(** An [os.Open] after which nothing falls through and no other file is
    opened. *)
Lemma open_then_stop {A} env name (k : bytes -> M A) s :
  (forall f, noNext (k f)) ->
  (forall f names, inv (fun s => opens (out s) = names) (k f)) ->
  (forall a, fst ((f <- open env name ;; k f) s) <> Next a)
  /\ opens (out (snd ((f <- open env name ;; k f) s)))
     = opens (out s) ++ [name].
Proof.
  intros Hn Hq. unfold open. rewrite bind_assoc, bind_emit.
  destruct (os_Open env name) as [f |].
  - rewrite bind_ret. split; [apply Hn |].
    apply Hq. cbn [out]. rewrite opens_app. reflexivity.
  - split; [discriminate |]. cbn. rewrite opens_app. reflexivity.
Qed.

Section SingleOpen.
Variables (env : Env) (flags : Flags) (fuel : nat) (config : Config.t).
Variable slabBegZ : Z.
Hypothesis HX : 0 < Config.SizeX config.
Hypothesis HY : 0 < Config.SizeY config.

Lemma Tiled_sendTile_noNext data ox oy span endY :
  noNext (Tiled.sendTile env flags fuel config slabBegZ data ox oy span endY).
Proof.
  unfold Tiled.sendTile. cbv zeta.
  do 4 (apply noNext_bind_r; intros _).
  apply noNext_stop. discriminate.
Qed.

Lemma Tiled_tiles_noNext data :
  noNext
    (forTiles fuel Tiled.sendSize (Config.SizeX config) (Config.SizeY config)
       (fun ox oy span endY _ =>
          Tiled.sendTile env flags fuel config slabBegZ data ox oy span endY)
       tt).
Proof.
  unfold forTiles. apply noNext_for.
  - apply Z.ltb_lt. exact HY.
  - intros a'. cbv zeta. apply noNext_for.
    + apply Z.ltb_lt. exact HX.
    + intros a''. cbv zeta. apply Tiled_sendTile_noNext.
Qed.

(** A directory that meets the slab: its artifact is opened, no other file
    is, and the loop over the directories ends there. *)
Lemma Tiled_slabFromDir_meets dir s :
  misses flags slabBegZ dir = false ->
  (forall a,
     fst (Tiled.slabFromDir env flags fuel config slabBegZ dir s) <> Next a)
  /\ opens (out (snd (Tiled.slabFromDir env flags fuel config slabBegZ dir s)))
     = opens (out s)
       ++ [filepath_Join env (SlabDir.Path dir)
             (fmt_Sprintf env (SlabDir.Template dir) slabBegZ)].
Proof.
  intros Hmeet. unfold misses in Hmeet.
  unfold Tiled.slabFromDir. cbv zeta. rewrite Hmeet.
  unfold printf. rewrite bind_emit.
  match goal with
  | |- context [bind (open env ?n) ?k] =>
      destruct (open_then_stop env n k
                  (mkStore (bytebuf s)
                     (out s ++
                      [Printf (GettingData slabBegZ
                                 (slabBegZ .+ blocksize flags .- 1) n)])))
        as (Hn & Ho)
  end.
  - intros f. unfold gunzip.
    destruct (gzip_ReadAll env f) as [data |].
    + intros s' a. rewrite bind_ret.
      destruct (negb _); [discriminate |]. apply Tiled_tiles_noNext.
    + intros s' a. discriminate.
  - intros f names. unfold forTiles, Tiled.sendTile, Tiled.copyRow.
    cbv zeta.
    repeat inv_step; intros; cbn [bytebuf out];
      rewrite ?opens_app; cbn; rewrite ?app_nil_r; assumption.
  - split; [exact Hn |]. rewrite Ho. cbn [out].
    rewrite opens_app. cbn. now rewrite app_nil_r.
Qed.

End SingleOpen.

(** X8.  The tiling variant reads one artifact per slab: with a positive XY
    extent, a call of [processSlab] opens the artifact of the first directory
    whose range meets the slab and no other file, whatever becomes of that
    artifact; the directories listed after it are not consulted, so a slab
    that straddles two directories is served from the first alone. *)
Theorem tiled_reads_first_meeting_directory
  env flags fuel config slabBegZ pre dir rest s :
  0 < Config.SizeX config ->
  0 < Config.SizeY config ->
  Config.Directories config = pre ++ dir :: rest ->
  (forall d, In d pre -> misses flags slabBegZ d = true) ->
  misses flags slabBegZ dir = false ->
  opens (out (snd (Tiled.processSlab env flags fuel config slabBegZ s)))
  = opens (out s)
    ++ [filepath_Join env (SlabDir.Path dir)
          (fmt_Sprintf env (SlabDir.Template dir) slabBegZ)].
Proof.
  intros HX HY Hdirs Hpre Hmeet.
  unfold Tiled.processSlab, printf. rewrite bind_emit, Hdirs.
  set (s0 := mkStore (bytebuf s) (out s ++ [Printf (ProcessingSlab slabBegZ)])).
  destruct (Tiled_slabFromDir_meets env flags fuel config slabBegZ HX HY dir s0
              Hmeet) as (Hn & Ho).
  assert (Hloop :
    (forall a,
       fst (forEach (pre ++ dir :: rest)
              (fun d _ => Tiled.slabFromDir env flags fuel config slabBegZ d)
              tt s0) <> Next a)
    /\ snd (forEach (pre ++ dir :: rest)
              (fun d _ => Tiled.slabFromDir env flags fuel config slabBegZ d)
              tt s0)
       = snd (Tiled.slabFromDir env flags fuel config slabBegZ dir s0)).
  { rewrite (forEach_reach pre dir rest _ tt s0 tt s0)
      by (now apply Tiled_skip).
    destruct (bind_stops
                (Tiled.slabFromDir env flags fuel config slabBegZ dir)
                (fun a' =>
                   forEach rest
                     (fun d _ =>
                        Tiled.slabFromDir env flags fuel config slabBegZ d)
                     a') s0 Hn) as (E & N).
    split; [exact N | exact E]. }
  destruct Hloop as (N & E).
  destruct (bind_stops _ (fun _ => @return_ unit None) s0 N) as (E2 & _).
  rewrite E2, E, Ho. subst s0. cbn [out].
  rewrite opens_app. cbn. now rewrite app_nil_r.
Qed.

Lemma tiled_reads_first_meeting_directory_witness :
  opens (out (snd (Tiled.processSlab cwdEnv flagsTwo 2 twoRangeConfig 4 start)))
  = opens (out start)
    ++ [filepath_Join cwdEnv (SlabDir.Path (SlabDir.mk "a" 1 4 "a%d.gz"))
          (fmt_Sprintf cwdEnv (SlabDir.Template (SlabDir.mk "a" 1 4 "a%d.gz"))
             4)].
Proof.
  apply (tiled_reads_first_meeting_directory cwdEnv flagsTwo 2 twoRangeConfig 4
           [] (SlabDir.mk "a" 1 4 "a%d.gz") [SlabDir.mk "b" 5 8 "b%d.gz"]
           start).
  - reflexivity.
  - reflexivity.
  - reflexivity.
  - intros d [].
  - reflexivity.
Defined.

(* ================================================================== *)
(** * A directory that covers the whole window *)

(** X9.  The fast path of the stitching variant: when the first directory
    that meets the slab covers its whole window, [processSlab] opens the
    artifact and POSTs the file's bytes as they are, compressed, to
    [URI/0_0_slabBegZ]; gzip is not consulted, the buffer is left cleared
    and unused, and the result is that of the POST.  With [-dryrun] the
    POST is left out and the result is [nil]. *)
Theorem full_cover_is_posted_raw
  env flags fuel config slabBegZ pre dir rest raw s :
  Config.Directories config = pre ++ dir :: rest ->
  (forall d, In d pre -> misses flags slabBegZ d = true) ->
  (SlabDir.BegZ dir <=? slabBegZ)
  && (slabBegZ .+ blocksize flags .- 1 <=? SlabDir.EndZ dir) = true ->
  misses flags slabBegZ dir = false ->
  os_Open env (fmt_Sprintf env (SlabDir.Template dir) slabBegZ) = Some raw ->
  Stitch.processSlab env flags fuel config slabBegZ s
  = (Return
       (if dryrun flags then None
        else postResult env (Stitch.slab_url config slabBegZ) raw),
     mkStore (zero_all (bytebuf s))
       (out s ++
        [Printf (GettingData slabBegZ (slabBegZ .+ blocksize flags .- 1)
                   (fmt_Sprintf env (SlabDir.Template dir) slabBegZ));
         Open (fmt_Sprintf env (SlabDir.Template dir) slabBegZ);
         Printf (SendingData (Stitch.slab_url config slabBegZ))] ++
        (if dryrun flags then []
         else [Post (Stitch.slab_url config slabBegZ) raw]))).
Proof.
  intros Hdirs Hpre Hfull Hmeet Hopen.
  unfold Stitch.processSlab. rewrite Hdirs.
  unfold bind at 1. unfold update_bytebuf at 1.
  unfold bind at 1.
  rewrite (forEach_reach pre dir rest _ 0 _ 0 _ (Stitch_skip _ _ _ _ _ _ Hpre _ _)).
  unfold bind at 1.
  unfold Stitch.stitchDir. cbv zeta. unfold misses in Hmeet.
  rewrite Hmeet, (full_cover_test _ _ _ _ Hmeet), Hfull.
  apply andb_true_iff in Hfull as (H1 & H2).
  apply Z.leb_le in H1, H2.
  destruct (Z.ltb_spec slabBegZ (SlabDir.BegZ dir)); [lia |].
  destruct (Z.gtb_spec (slabBegZ .+ blocksize flags .- 1) (SlabDir.EndZ dir));
    [lia |].
  cbv beta iota zeta delta [bind printf open emit ret return_ stop].
  cbn [bytebuf out]. rewrite Hopen. cbv beta iota.
  destruct (dryrun flags).
  - cbn [bytebuf out]. rewrite <- !app_assoc. reflexivity.
  - unfold post, postResult.
    cbv beta iota zeta delta [bind emit ret return_ stop].
    cbn [bytebuf out].
    destruct (http_Post env (Stitch.slab_url config slabBegZ) raw) as [code |];
      [destruct (code =? StatusOK) |];
      rewrite <- !app_assoc; reflexivity.
Qed.

Lemma full_cover_is_posted_raw_witness :
  Stitch.processSlab shortEnv flagsOne 2 fullCoverConfig 3 start
  = (Return
       (if dryrun flagsOne then None
        else postResult shortEnv (Stitch.slab_url fullCoverConfig 3)
               (stored [x2a])),
     mkStore (zero_all (bytebuf start))
       (out start ++
        [Printf (GettingData 3 (3 .+ blocksize flagsOne .- 1)
                   (fmt_Sprintf shortEnv
                      (SlabDir.Template (SlabDir.mk "in" 1 9 "s%d.gz")) 3));
         Open (fmt_Sprintf shortEnv
                 (SlabDir.Template (SlabDir.mk "in" 1 9 "s%d.gz")) 3);
         Printf (SendingData (Stitch.slab_url fullCoverConfig 3))] ++
        (if dryrun flagsOne then []
         else [Post (Stitch.slab_url fullCoverConfig 3) (stored [x2a])]))).
Proof.
  apply (full_cover_is_posted_raw shortEnv flagsOne 2 fullCoverConfig 3
           [] (SlabDir.mk "in" 1 9 "s%d.gz") [] (stored [x2a]) start).
  - reflexivity.
  - intros d [].
  - reflexivity.
  - reflexivity.
  - reflexivity.
Defined.

(* ================================================================== *)
(** * Artifacts that cannot be read *)

(** X10.  A missing artifact ends the slab at once: when the first directory
    that meets the slab names a file that cannot be opened, [processSlab]
    returns the error of [os.Open], having POSTed nothing and copied nothing
    (in the stitching variant the buffer is left cleared); the directories
    after it are not tried. *)
Theorem missing_artifact_ends_the_slab
  env flags fuel config slabBegZ pre dir rest s :
  Config.Directories config = pre ++ dir :: rest ->
  (forall d, In d pre -> misses flags slabBegZ d = true) ->
  misses flags slabBegZ dir = false ->
  (os_Open env (filepath_Join env (SlabDir.Path dir)
                  (fmt_Sprintf env (SlabDir.Template dir) slabBegZ)) = None ->
   Tiled.processSlab env flags fuel config slabBegZ s
   = (Return (Some (OpenError
                      (filepath_Join env (SlabDir.Path dir)
                         (fmt_Sprintf env (SlabDir.Template dir) slabBegZ)))),
      mkStore (bytebuf s)
        (out s ++
         [Printf (ProcessingSlab slabBegZ);
          Printf (GettingData slabBegZ (slabBegZ .+ blocksize flags .- 1)
                    (filepath_Join env (SlabDir.Path dir)
                       (fmt_Sprintf env (SlabDir.Template dir) slabBegZ)));
          Open (filepath_Join env (SlabDir.Path dir)
                  (fmt_Sprintf env (SlabDir.Template dir) slabBegZ))])))
  /\
  (os_Open env (fmt_Sprintf env (SlabDir.Template dir) slabBegZ) = None ->
   Stitch.processSlab env flags fuel config slabBegZ s
   = (Return (Some (OpenError
                      (fmt_Sprintf env (SlabDir.Template dir) slabBegZ))),
      mkStore (zero_all (bytebuf s))
        (out s ++
         [Printf (GettingData (Z.max slabBegZ (SlabDir.BegZ dir))
                    (Z.min (slabBegZ .+ blocksize flags .- 1)
                       (SlabDir.EndZ dir))
                    (fmt_Sprintf env (SlabDir.Template dir) slabBegZ));
          Open (fmt_Sprintf env (SlabDir.Template dir) slabBegZ)]))).
Proof.
  intros Hdirs Hpre Hmeet. split; intros Hopen.
  - unfold Tiled.processSlab, printf. rewrite bind_emit, Hdirs.
    unfold bind at 1.
    rewrite (forEach_reach pre dir rest _ tt _ tt _
               (Tiled_skip _ _ _ _ _ _ Hpre _)).
    unfold bind at 1.
    unfold Tiled.slabFromDir. cbv zeta. unfold misses in Hmeet.
    rewrite Hmeet.
    cbv beta iota zeta delta [bind printf open emit ret return_ stop].
    cbn [bytebuf out]. rewrite Hopen. cbv beta iota.
    rewrite <- !app_assoc. reflexivity.
  - unfold Stitch.processSlab. rewrite Hdirs.
    unfold bind at 1. unfold update_bytebuf at 1.
    unfold bind at 1.
    rewrite (forEach_reach pre dir rest _ 0 _ 0 _
               (Stitch_skip _ _ _ _ _ _ Hpre _ _)).
    unfold bind at 1.
    unfold Stitch.stitchDir. cbv zeta. unfold misses in Hmeet.
    rewrite Hmeet.
    cbv beta iota zeta delta [bind printf open emit ret return_ stop].
    cbn [bytebuf out]. rewrite Hopen. cbv beta iota.
    rewrite <- !app_assoc. cbn [app].
    replace (if slabBegZ <? SlabDir.BegZ dir then SlabDir.BegZ dir
             else slabBegZ)
      with (Z.max slabBegZ (SlabDir.BegZ dir))
      by (destruct (Z.ltb_spec slabBegZ (SlabDir.BegZ dir)); lia).
    replace (if slabBegZ .+ blocksize flags .- 1 >? SlabDir.EndZ dir
             then SlabDir.EndZ dir else slabBegZ .+ blocksize flags .- 1)
      with (Z.min (slabBegZ .+ blocksize flags .- 1) (SlabDir.EndZ dir))
      by (destruct (Z.gtb_spec (slabBegZ .+ blocksize flags .- 1)
                      (SlabDir.EndZ dir)); lia).
    reflexivity.
Qed.

Lemma missing_artifact_ends_the_slab_witness :
  Tiled.processSlab cwdEnv flagsTwo 2 twoRangeConfig 4 start
  = (Return (Some (OpenError "a/a4.gz")),
     mkStore []
       [Printf (ProcessingSlab 4); Printf (GettingData 4 5 "a/a4.gz");
        Open "a/a4.gz"])
  /\ Stitch.processSlab cwdEnv flagsTwo 2 twoRangeConfig 4 start
     = (Return (Some (OpenError "a4.gz")),
        mkStore [] [Printf (GettingData 4 4 "a4.gz"); Open "a4.gz"]).
Proof.
  destruct (missing_artifact_ends_the_slab cwdEnv flagsTwo 2 twoRangeConfig 4
              [] (SlabDir.mk "a" 1 4 "a%d.gz") [SlabDir.mk "b" 5 8 "b%d.gz"]
              start eq_refl ltac:(intros d []) eq_refl) as [HT HS].
  split; [exact (HT eq_refl) | exact (HS eq_refl)].
Defined.

(** X11.  An artifact that is not valid gzip data ends the slab at once:
    when the first directory that meets the slab has a file that opens but
    does not decompress, [processSlab] returns the decompression error,
    having POSTed nothing and copied nothing.  In the stitching variant this
    holds for a directory that does not cover the slab's whole window (one
    that does has its file POSTed without being decompressed). *)
Theorem undecodable_artifact_ends_the_slab
  env flags fuel config slabBegZ pre dir rest raw s :
  Config.Directories config = pre ++ dir :: rest ->
  (forall d, In d pre -> misses flags slabBegZ d = true) ->
  misses flags slabBegZ dir = false ->
  gzip_ReadAll env raw = None ->
  (os_Open env (filepath_Join env (SlabDir.Path dir)
                  (fmt_Sprintf env (SlabDir.Template dir) slabBegZ))
   = Some raw ->
   Tiled.processSlab env flags fuel config slabBegZ s
   = (Return (Some DecompressionError),
      mkStore (bytebuf s)
        (out s ++
         [Printf (ProcessingSlab slabBegZ);
          Printf (GettingData slabBegZ (slabBegZ .+ blocksize flags .- 1)
                    (filepath_Join env (SlabDir.Path dir)
                       (fmt_Sprintf env (SlabDir.Template dir) slabBegZ)));
          Open (filepath_Join env (SlabDir.Path dir)
                  (fmt_Sprintf env (SlabDir.Template dir) slabBegZ))])))
  /\
  (os_Open env (fmt_Sprintf env (SlabDir.Template dir) slabBegZ) = Some raw ->
   (SlabDir.BegZ dir <=? slabBegZ)
   && (slabBegZ .+ blocksize flags .- 1 <=? SlabDir.EndZ dir) = false ->
   Stitch.processSlab env flags fuel config slabBegZ s
   = (Return (Some DecompressionError),
      mkStore (zero_all (bytebuf s))
        (out s ++
         [Printf (GettingData (Z.max slabBegZ (SlabDir.BegZ dir))
                    (Z.min (slabBegZ .+ blocksize flags .- 1)
                       (SlabDir.EndZ dir))
                    (fmt_Sprintf env (SlabDir.Template dir) slabBegZ));
          Open (fmt_Sprintf env (SlabDir.Template dir) slabBegZ)]))).
Proof.
  intros Hdirs Hpre Hmeet Hgz. split.
  - intros Hopen.
    unfold Tiled.processSlab, printf. rewrite bind_emit, Hdirs.
    unfold bind at 1.
    rewrite (forEach_reach pre dir rest _ tt _ tt _
               (Tiled_skip _ _ _ _ _ _ Hpre _)).
    unfold bind at 1.
    unfold Tiled.slabFromDir. cbv zeta. unfold misses in Hmeet.
    rewrite Hmeet.
    cbv beta iota zeta delta [bind printf open emit gunzip ret return_ stop].
    cbn [bytebuf out]. rewrite Hopen. cbv beta iota. rewrite Hgz.
    rewrite <- !app_assoc. reflexivity.
  - intros Hopen Hpart.
    unfold Stitch.processSlab. rewrite Hdirs.
    unfold bind at 1. unfold update_bytebuf at 1.
    unfold bind at 1.
    rewrite (forEach_reach pre dir rest _ 0 _ 0 _
               (Stitch_skip _ _ _ _ _ _ Hpre _ _)).
    unfold bind at 1.
    unfold Stitch.stitchDir. cbv zeta. unfold misses in Hmeet.
    rewrite Hmeet, (full_cover_test _ _ _ _ Hmeet), Hpart.
    cbv beta iota zeta delta [bind printf open emit gunzip ret return_ stop].
    cbn [bytebuf out]. rewrite Hopen. cbv beta iota. rewrite Hgz.
    rewrite <- !app_assoc. cbn [app].
    replace (if slabBegZ <? SlabDir.BegZ dir then SlabDir.BegZ dir
             else slabBegZ)
      with (Z.max slabBegZ (SlabDir.BegZ dir))
      by (destruct (Z.ltb_spec slabBegZ (SlabDir.BegZ dir)); lia).
    replace (if slabBegZ .+ blocksize flags .- 1 >? SlabDir.EndZ dir
             then SlabDir.EndZ dir else slabBegZ .+ blocksize flags .- 1)
      with (Z.min (slabBegZ .+ blocksize flags .- 1) (SlabDir.EndZ dir))
      by (destruct (Z.gtb_spec (slabBegZ .+ blocksize flags .- 1)
                      (SlabDir.EndZ dir)); lia).
    reflexivity.
Qed.

Lemma undecodable_artifact_ends_the_slab_witness :
  Tiled.processSlab brokenEnv flagsTwo 2 twoRangeConfig 4 start
  = (Return (Some DecompressionError),
     mkStore []
       [Printf (ProcessingSlab 4); Printf (GettingData 4 5 "a/a4.gz");
        Open "a/a4.gz"])
  /\ Stitch.processSlab brokenEnv flagsTwo 2 twoRangeConfig 4 start
     = (Return (Some DecompressionError),
        mkStore [] [Printf (GettingData 4 4 "a4.gz"); Open "a4.gz"]).
Proof.
  destruct (undecodable_artifact_ends_the_slab brokenEnv flagsTwo 2
              twoRangeConfig 4
              [] (SlabDir.mk "a" 1 4 "a%d.gz") [SlabDir.mk "b" 5 8 "b%d.gz"]
              [x2a] start eq_refl ltac:(intros d []) eq_refl eq_refl)
    as [HT HS].
  split; [exact (HT eq_refl) | exact (HS eq_refl eq_refl)].
Defined.

(* ================================================================== *)
(** * A slab assembled from several directories *)

Lemma transferPlanes_postsLast fuel slabBegZ sliceBytes data begZ endZ
  zfilled :
  postsLast
    (Stitch.transferPlanes fuel slabBegZ sliceBytes data begZ endZ zfilled).
Proof. unfold Stitch.transferPlanes. cbv zeta. repeat last_step. Qed.

Section Assembly.
Variables (env : Env) (flags : Flags) (fuel : nat) (config : Config.t).
Variable slabBegZ : Z.

Let sB := Stitch.sliceBytes config.
Let bs := blocksize flags.

Hypothesis HsB : 0 <= sB.
Hypothesis Hbs : 0 < bs <= GoInt.max_int.
Hypothesis Hprod : sB * bs <= GoInt.max_int.
Hypothesis Hz : GoInt.min_int <= slabBegZ.
Hypothesis Hzend : slabBegZ + bs <= GoInt.max_int.

(** The loop over the planes adds one to the count for each plane. *)
Lemma transferPlanes_count data endZ :
  endZ <= slabBegZ + bs - 1 ->
  forall n fuel' volZ zfilled s zfilled' s',
  Z.of_nat n = Z.max 0 (endZ - volZ + 1) ->
  slabBegZ <= volZ ->
  0 <= zfilled -> zfilled + Z.of_nat n <= GoInt.max_int ->
  Stitch.transferPlanes fuel' slabBegZ sB data volZ endZ zfilled s
  = (Next zfilled', s') ->
  zfilled' = zfilled + Z.of_nat n.
Proof.
  intros Hend.
  induction n as [| n IH]; intros fuel' volZ zfilled s zfilled' s' Hn Hv Hzf
    Hmax Hrun; unfold Stitch.transferPlanes in *.
  - destruct fuel'; cbn [for_] in Hrun;
      destruct (Z.leb_spec volZ endZ); try lia;
      injection Hrun as <- _; lia.
  - destruct fuel' as [| fuel']; cbn [for_] in Hrun;
      destruct (Z.leb_spec volZ endZ); try lia; try discriminate.
    cbv zeta in Hrun. unfold printf in Hrun.
    rewrite bind_assoc, bind_emit in Hrun.
    rewrite bind_assoc in Hrun. unfold bind at 1 in Hrun.
    destruct (update_bytebuf _ _) as [[[] | e | c | |] s1] in Hrun;
      try discriminate.
    rewrite bind_ret in Hrun.
    rewrite (add_id volZ 1) in Hrun by range_lia.
    rewrite (add_id zfilled 1) in Hrun by range_lia.
    apply IH in Hrun; lia.
Qed.

(** With fuel for [blocksize] rounds the loop over the planes ends, having
    copied each plane it names; no slice expression is out of range. *)
Lemma transferPlanes_run data begZ endZ zfilled s :
  len data = sB * bs ->
  slabBegZ <= begZ -> endZ <= slabBegZ + bs - 1 ->
  len (bytebuf s) = sB * bs ->
  bs <= Z.of_nat fuel ->
  exists zfilled' s',
    Stitch.transferPlanes fuel slabBegZ sB data begZ endZ zfilled s
    = (Next zfilled', s')
    /\ forall v k, begZ <= v <= endZ -> 0 <= k < sB ->
         byteAt (bytebuf s') ((v - slabBegZ) * sB + k)
         = byteAt data ((v - slabBegZ) * sB + k).
Proof.
  intros Hdata Hb He Hbuf Hfuel.
  destruct (Z_lt_le_dec endZ begZ) as [Hempty | Hsome].
  - exists zfilled, s. split; [| intros; lia].
    unfold Stitch.transferPlanes.
    destruct fuel; cbn [for_]; destruct (Z.leb_spec begZ endZ); try lia;
      reflexivity.
  - apply (transferPlanes_copies flags config slabBegZ HsB Hbs Hprod Hz Hzend
             data endZ Hdata He (Z.to_nat (endZ - begZ + 1)) fuel begZ zfilled
             s); first [lia | exact Hbuf].
Qed.


(** A directory that covers part of the window, with an artifact of the
    expected length: its planes are copied, and the buffer is POSTed if that
    brings the count to [blocksize]. *)
Lemma stitchDir_partial dir zfilled s raw data :
  misses flags slabBegZ dir = false ->
  (SlabDir.BegZ dir <=? slabBegZ) && (slabBegZ .+ bs .- 1 <=? SlabDir.EndZ dir)
  = false ->
  os_Open env (fmt_Sprintf env (SlabDir.Template dir) slabBegZ) = Some raw ->
  gzip_ReadAll env raw = Some data ->
  len data = sB * bs ->
  len (bytebuf s) = sB * bs ->
  bs <= Z.of_nat fuel ->
  0 <= zfilled ->
  zfilled
  + Z.max 0 (Z.min (slabBegZ + bs - 1) (SlabDir.EndZ dir)
             - Z.max slabBegZ (SlabDir.BegZ dir) + 1)
  <= bs ->
  exists b evs,
    Stitch.stitchDir env flags fuel config slabBegZ dir zfilled s
    = (if zfilled
          + Z.max 0 (Z.min (slabBegZ + bs - 1) (SlabDir.EndZ dir)
                     - Z.max slabBegZ (SlabDir.BegZ dir) + 1)
          =? bs
       then
         (Return (if dryrun flags then None
                  else postResult env (Stitch.slab_url config slabBegZ) b),
          mkStore b
            (out s ++ evs ++
             Printf FilledBytebuf
             :: (if dryrun flags then []
                 else [Post (Stitch.slab_url config slabBegZ) b])))
       else
         (Next (zfilled
                + Z.max 0 (Z.min (slabBegZ + bs - 1) (SlabDir.EndZ dir)
                           - Z.max slabBegZ (SlabDir.BegZ dir) + 1)),
          mkStore b (out s ++ evs)))
    /\ posts evs = []
    /\ len b = sB * bs
    /\ (forall v k,
          Z.max slabBegZ (SlabDir.BegZ dir) <= v
          <= Z.min (slabBegZ + bs - 1) (SlabDir.EndZ dir) ->
          0 <= k < sB ->
          byteAt b ((v - slabBegZ) * sB + k)
          = byteAt data ((v - slabBegZ) * sB + k))
    /\ (forall i,
          (forall v,
             Z.max slabBegZ (SlabDir.BegZ dir) <= v
             <= Z.min (slabBegZ + bs - 1) (SlabDir.EndZ dir) ->
             ~ (v - slabBegZ) * sB <= i < (v - slabBegZ) * sB + sB) ->
          byteAt b i = byteAt (bytebuf s) i).
Proof.
  intros Hmeet Hpart Hopen Hgz Hdata Hbuf Hfuel Hzf Hfill.
  unfold misses in Hmeet. fold bs in Hmeet.
  pose proof (slabEndZ_id flags config slabBegZ Hbs Hz Hzend) as Eend.
  fold bs in Eend.
  unfold Stitch.stitchDir. cbv zeta. fold sB. fold bs.
  rewrite Hmeet, (full_cover_test _ _ _ _ Hmeet), Hpart.
  rewrite Eend in *.
  unfold printf. rewrite bind_emit. unfold open.
  rewrite bind_assoc, bind_emit, Hopen. cbv beta iota. rewrite bind_ret.
  unfold gunzip. rewrite Hgz, bind_ret.
  rewrite (mul_id sB bs) by range_lia.
  destruct (Z.eqb_spec (len data) (sB * bs)) as [_ | Hne]; [| contradiction].
  cbn [negb].
  set (begZ := if slabBegZ <? SlabDir.BegZ dir then SlabDir.BegZ dir
               else slabBegZ).
  set (endZ := if slabBegZ + bs - 1 >? SlabDir.EndZ dir then SlabDir.EndZ dir
               else slabBegZ + bs - 1).
  assert (Hb : begZ = Z.max slabBegZ (SlabDir.BegZ dir)).
  { subst begZ. destruct (Z.ltb_spec slabBegZ (SlabDir.BegZ dir)); lia. }
  assert (He : endZ = Z.min (slabBegZ + bs - 1) (SlabDir.EndZ dir)).
  { subst endZ.
    destruct (Z.gtb_spec (slabBegZ + bs - 1) (SlabDir.EndZ dir)); lia. }
  rewrite <- Hb, <- He in Hfill |- *. clearbody begZ endZ. cbn [bytebuf out].
  set (name := fmt_Sprintf env (SlabDir.Template dir) slabBegZ) in *.
  set (s0 := mkStore (bytebuf s)
               ((out s ++ [Printf (GettingData begZ endZ name)])
                ++ [Open name])).
  assert (Hb' : slabBegZ <= begZ) by lia.
  assert (He' : endZ <= slabBegZ + bs - 1) by lia.
  destruct (transferPlanes_run data begZ endZ zfilled s0 Hdata Hb' He' Hbuf
              Hfuel) as (zf' & s' & Erun & Hplanes).
  assert (Ezf : zf' = zfilled + Z.max 0 (endZ - begZ + 1)).
  { rewrite (transferPlanes_count data endZ He'
               (Z.to_nat (endZ - begZ + 1)) fuel begZ zfilled s0 zf' s'
               ltac:(lia) Hb' Hzf ltac:(lia) Erun).
    lia. }
  assert (Hlen : len (bytebuf s') = sB * bs).
  { pose proof (transferPlanes_len fuel config slabBegZ data begZ endZ
                  zfilled (sB * bs) s0 Hbuf) as L.
    fold sB in L. rewrite Erun in L. exact L. }
  assert (Hframe : forall i,
            (forall v, begZ <= v <= endZ ->
               ~ (v - slabBegZ) * sB <= i < (v - slabBegZ) * sB + sB) ->
            byteAt (bytebuf s') i = byteAt (bytebuf s) i).
  { intros i Hi.
    pose proof (transferPlanes_frame flags config slabBegZ HsB Hbs Hprod Hz
                  Hzend fuel data begZ endZ zfilled i
                  (byteAt (bytebuf s) i) ltac:(lia) ltac:(lia) Hi s0 eq_refl)
      as F.
    fold sB in F. rewrite Erun in F. exact F. }
  destruct (transferPlanes_postsLast fuel slabBegZ sB data begZ endZ zfilled
              s0) as (evs & Eout & Hevs).
  rewrite Erun in Eout, Hevs. cbn [fst snd] in Eout, Hevs.
  destruct Hevs as [Q | (Hn & _)]; [| now contradiction (Hn zf')].
  exists (bytebuf s'),
    ([Printf (GettingData begZ endZ name); Open name] ++ evs).
  split; [| split; [| split; [exact Hlen | split; [exact Hplanes | exact Hframe]]]].
  - unfold bind at 1. rewrite Erun, Ezf.
    destruct (zfilled + Z.max 0 (endZ - begZ + 1) =? bs).
    + unfold printf. rewrite bind_emit. rewrite Eout. subst s0.
      cbn [out bytebuf].
      destruct (dryrun flags).
      * rewrite bind_ret. unfold return_, stop.
        rewrite <- !app_assoc. reflexivity.
      * cbv beta iota zeta
          delta [bind get_bytebuf post emit postResult return_ stop ret].
        cbn [bytebuf out].
        destruct (http_Post env _ (bytebuf s')) as [code |];
          [destruct (code =? StatusOK) |];
          rewrite <- !app_assoc; reflexivity.
    + unfold ret. destruct s' as [b' o']. cbn [bytebuf out] in *.
      rewrite Eout. subst s0. cbn [out]. rewrite <- !app_assoc. reflexivity.
  - rewrite !posts_app, Q. reflexivity.
Qed.



(** Directories in ascending order that hold every plane of the window
    above [maxZ], none of them the whole window, with artifacts of the
    expected length, when the planes up to [maxZ] are counted: the loop over
    them ends with the POST of the buffer, which holds each directory's
    planes. *)
Lemma stitchLoop_covered (rawOf artOf : SlabDir.t -> bytes) :
  bs <= Z.of_nat fuel ->
  forall dirs maxZ zfilled s,
  inOrder maxZ dirs ->
  (forall d, In d dirs -> SlabDir.BegZ d <= SlabDir.EndZ d) ->
  (forall d, In d dirs ->
     (SlabDir.BegZ d <=? slabBegZ)
     && (slabBegZ .+ bs .- 1 <=? SlabDir.EndZ d) = false) ->
  (forall d, In d dirs -> misses flags slabBegZ d = false ->
     os_Open env (fmt_Sprintf env (SlabDir.Template d) slabBegZ)
     = Some (rawOf d)
     /\ gzip_ReadAll env (rawOf d) = Some (artOf d)
     /\ len (artOf d) = sB * bs) ->
  (forall v, slabBegZ <= v <= slabBegZ + bs - 1 -> maxZ < v ->
     exists d, In d dirs /\ SlabDir.BegZ d <= v <= SlabDir.EndZ d) ->
  len (bytebuf s) = sB * bs ->
  zfilled = Z.max 0 (Z.min (slabBegZ + bs - 1) maxZ - slabBegZ + 1) ->
  zfilled < bs ->
  exists b evs,
    forEach dirs (Stitch.stitchDir env flags fuel config slabBegZ) zfilled s
    = (Return (if dryrun flags then None
               else postResult env (Stitch.slab_url config slabBegZ) b),
       mkStore b
         (out s ++ evs ++
          (if dryrun flags then []
           else [Post (Stitch.slab_url config slabBegZ) b])))
    /\ posts evs = []
    /\ len b = sB * bs
    /\ (forall d v k,
          In d dirs ->
          slabBegZ <= v <= slabBegZ + bs - 1 ->
          SlabDir.BegZ d <= v <= SlabDir.EndZ d ->
          0 <= k < sB ->
          byteAt b ((v - slabBegZ) * sB + k)
          = byteAt (artOf d) ((v - slabBegZ) * sB + k))
    /\ (forall i,
          (forall v, slabBegZ <= v <= slabBegZ + bs - 1 -> maxZ < v ->
             ~ (v - slabBegZ) * sB <= i < (v - slabBegZ) * sB + sB) ->
          byteAt b i = byteAt (bytebuf s) i).
Proof.
  intros Hfuel.
  pose proof (slabEndZ_id flags config slabBegZ Hbs Hz Hzend) as Eend.
  fold bs in Eend.
  induction dirs as [| d rest IH];
    intros maxZ zfilled s Ho Hnd Hpart Hart Hcov Hbuf Hzf Hlt.
  { exfalso.
    destruct (Hcov (Z.max (maxZ + 1) slabBegZ) ltac:(lia) ltac:(lia))
      as (d & [] & _). }
  destruct Ho as (Hm & Ho).
  pose proof (Hnd d (or_introl eq_refl)) as Hd.
  assert (Hrest : forall d', In d' rest -> SlabDir.EndZ d < SlabDir.BegZ d').
  { intros d' Hd'. apply (inOrder_above rest (SlabDir.EndZ d) Ho); [| exact Hd'].
    intros d'' H''. apply Hnd. now right. }
  (* the first plane above [maxZ] is held by [d] or by a later directory *)
  assert (Hgap : SlabDir.BegZ d <= Z.max (maxZ + 1) slabBegZ).
  { destruct (Hcov (Z.max (maxZ + 1) slabBegZ) ltac:(lia) ltac:(lia))
      as (d' & [<- | Hd'] & Hr); [lia |].
    specialize (Hrest d' Hd'). lia. }
  cbn [forEach].
  destruct (misses flags slabBegZ d) eqn:Hmiss.
  - (* the directory ends below the window *)
    assert (Hbelow : SlabDir.EndZ d < slabBegZ).
    { unfold misses in Hmiss. fold bs in Hmiss. rewrite Eend in Hmiss.
      apply orb_true_iff in Hmiss.
      destruct (Z.gtb_spec slabBegZ (SlabDir.EndZ d)),
        (Z.ltb_spec (slabBegZ + bs - 1) (SlabDir.BegZ d));
        destruct Hmiss; try discriminate; lia. }
    assert (Eskip :
      Stitch.stitchDir env flags fuel config slabBegZ d zfilled s
      = (Next zfilled, s)).
    { unfold Stitch.stitchDir. cbv zeta. unfold misses in Hmiss.
      rewrite Hmiss. reflexivity. }
    rewrite (bind_Next _ _ _ _ _ Eskip).
    destruct (IH (SlabDir.EndZ d) zfilled s Ho) as (b & evs & E & Q & L & C & F);
      try assumption; try lia.
    + intros d' Hd'. apply Hnd. now right.
    + intros d' Hd'. apply Hpart. now right.
    + intros d' Hd'. apply Hart. now right.
    + intros v Hv Hgt.
      destruct (Hcov v Hv ltac:(lia)) as (d' & [<- | Hd'] & Hr); [lia |].
      eauto.
    + exists b, evs. split; [exact E |]. split; [exact Q |].
      split; [exact L |]. split.
      * intros d' v k [<- | Hd'] Hv Hr Hk; [lia |]. now apply C.
      * intros i Hi. apply F. intros v Hv Hgt. apply Hi; lia.
  - (* the directory holds planes of the window *)
    destruct (Hart d (or_introl eq_refl) Hmiss) as (Hopen & Hgz & Hdata).
    assert (Hmeet : slabBegZ <= SlabDir.EndZ d
                    /\ SlabDir.BegZ d <= slabBegZ + bs - 1).
    { unfold misses in Hmiss. fold bs in Hmiss. rewrite Eend in Hmiss.
      apply orb_false_iff in Hmiss as (M1 & M2).
      destruct (Z.gtb_spec slabBegZ (SlabDir.EndZ d)); [discriminate |].
      destruct (Z.ltb_spec (slabBegZ + bs - 1) (SlabDir.BegZ d));
        [discriminate |]. lia. }
    set (n := Z.max 0 (Z.min (slabBegZ + bs - 1) (SlabDir.EndZ d)
                       - Z.max slabBegZ (SlabDir.BegZ d) + 1)).
    assert (Hn : zfilled + n
                 = Z.max 0 (Z.min (slabBegZ + bs - 1) (SlabDir.EndZ d)
                            - slabBegZ + 1)) by (subst n; lia).
    destruct (stitchDir_partial d zfilled s (rawOf d) (artOf d) Hmiss
                (Hpart d (or_introl eq_refl)) Hopen Hgz Hdata Hbuf Hfuel
                ltac:(lia) ltac:(fold n; lia))
      as (b1 & evs1 & E1 & Q1 & L1 & C1 & F1).
    fold n in E1.
    destruct (Z.eqb_spec (zfilled + n) bs) as [Efull | Emore].
    + (* the window is complete *)
      exists b1, (evs1 ++ [Printf FilledBytebuf]).
      unfold bind. rewrite E1.
      split; [rewrite <- !app_assoc; reflexivity |].
      split; [now rewrite posts_app, Q1 |].
      split; [exact L1 |]. split.
      * intros d' v k [<- | Hd'] Hv Hr Hk.
        -- apply C1; lia.
        -- specialize (Hrest d' Hd'). lia.
      * intros i Hi. apply F1. intros v Hv. apply Hi; lia.
    + (* planes above the directory are still to come *)
      rewrite (bind_Next _ _ _ _ _ E1).
      destruct (IH (SlabDir.EndZ d) (zfilled + n)
                  (mkStore b1 (out s ++ evs1)) Ho)
        as (b & evs & E & Q & L & C & F); try assumption; try lia.
      * intros d' Hd'. apply Hnd. now right.
      * intros d' Hd'. apply Hpart. now right.
      * intros d' Hd'. apply Hart. now right.
      * intros v Hv Hgt.
        destruct (Hcov v Hv ltac:(lia)) as (d' & [<- | Hd'] & Hr); [lia |].
        eauto.
      * cbn [bytebuf out] in *.
        exists b, (evs1 ++ evs). rewrite E.
        split; [rewrite <- !app_assoc; reflexivity |].
        split; [now rewrite posts_app, Q1, Q |].
        split; [exact L |]. split.
        -- intros d' v k [<- | Hd'] Hv Hr Hk; [| now apply C].
           rewrite F; [apply C1; lia |].
           intros v' Hv' Hgt. nia.
        -- intros i Hi. rewrite F; [apply F1 |].
           ++ intros v Hv. apply Hi; lia.
           ++ intros v Hv Hgt. apply Hi; lia.
Qed.

End Assembly.

(** X12.  What the stitching variant is for: when the directories are in
    ascending order, every plane of the slab's window lies in the range of
    one of them, none of them holds the whole window, and the artifacts of
    those that meet the window decompress to the expected length,
    [processSlab] POSTs one buffer, to [URI/0_0_slabBegZ], as its last
    action, and returns the result of that POST ([nil] without a POST under
    [-dryrun]).  The buffer has the slab's length and holds, at every plane
    of the window, the bytes that the artifact of the directory holding that
    plane has at the same offset.  (Sizes within Go's [int], fuel for
    [blocksize] rounds, a buffer of the slab's length as [main] allocates
    it.) *)
Theorem covered_slab_is_assembled_and_posted
  (env : Env) (flags : Flags) (fuel : nat) (config : Config.t) (slabBegZ : Z)
  (rawOf artOf : SlabDir.t -> bytes) (s : Store) :
  0 <= Stitch.sliceBytes config ->
  0 < blocksize flags <= GoInt.max_int ->
  Stitch.sliceBytes config * blocksize flags <= GoInt.max_int ->
  GoInt.min_int <= slabBegZ ->
  slabBegZ + blocksize flags <= GoInt.max_int ->
  blocksize flags <= Z.of_nat fuel ->
  len (bytebuf s) = Stitch.sliceBytes config * blocksize flags ->
  inOrder 0 (Config.Directories config) ->
  (forall d, In d (Config.Directories config) ->
     SlabDir.BegZ d <= SlabDir.EndZ d) ->
  (forall d, In d (Config.Directories config) ->
     (SlabDir.BegZ d <=? slabBegZ)
     && (slabBegZ .+ blocksize flags .- 1 <=? SlabDir.EndZ d) = false) ->
  (forall d, In d (Config.Directories config) ->
     misses flags slabBegZ d = false ->
     os_Open env (fmt_Sprintf env (SlabDir.Template d) slabBegZ)
     = Some (rawOf d)
     /\ gzip_ReadAll env (rawOf d) = Some (artOf d)
     /\ len (artOf d) = Stitch.sliceBytes config * blocksize flags) ->
  (forall v, slabBegZ <= v <= slabBegZ + blocksize flags - 1 ->
     exists d, In d (Config.Directories config)
               /\ SlabDir.BegZ d <= v <= SlabDir.EndZ d) ->
  exists b evs,
    Stitch.processSlab env flags fuel config slabBegZ s
    = (Return (if dryrun flags then None
               else postResult env (Stitch.slab_url config slabBegZ) b),
       mkStore b
         (out s ++ evs ++
          (if dryrun flags then []
           else [Post (Stitch.slab_url config slabBegZ) b])))
    /\ posts evs = []
    /\ len b = Stitch.sliceBytes config * blocksize flags
    /\ (forall d v k,
          In d (Config.Directories config) ->
          slabBegZ <= v <= slabBegZ + blocksize flags - 1 ->
          SlabDir.BegZ d <= v <= SlabDir.EndZ d ->
          0 <= k < Stitch.sliceBytes config ->
          byteAt b ((v - slabBegZ) * Stitch.sliceBytes config + k)
          = byteAt (artOf d) ((v - slabBegZ) * Stitch.sliceBytes config + k)).
Proof.
  intros HsB Hbs Hprod Hz Hzend Hfuel Hbuf Ho Hnd Hpart Hart Hcov.
  assert (H1 : 1 <= slabBegZ).
  { destruct (Hcov slabBegZ ltac:(lia)) as (d & Hd & Hr).
    pose proof (inOrder_above _ 0 Ho Hnd d Hd). lia. }
  destruct (stitchLoop_covered env flags fuel config slabBegZ HsB Hbs Hprod Hz
              Hzend rawOf artOf Hfuel (Config.Directories config) 0 0
              (mkStore (zero_all (bytebuf s)) (out s)) Ho Hnd Hpart Hart)
    as (b & evs & E & Q & L & C & _).
  - intros v Hv _. now apply Hcov.
  - cbn [bytebuf]. now rewrite len_zero_all.
  - lia.
  - lia.
  - exists b, evs. split; [| auto].
    unfold Stitch.processSlab. unfold bind at 1. unfold update_bytebuf at 1.
    unfold bind. rewrite E. reflexivity.
Qed.

Lemma covered_slab_is_assembled_and_posted_witness :
  exists b evs,
    Stitch.processSlab straddleEnv flagsTwo 2 twoRangeConfig 4
      (mkStore (repeat xff 16) [])
    = (Return (if dryrun flagsTwo then None
               else postResult straddleEnv (Stitch.slab_url twoRangeConfig 4)
                      b),
       mkStore b
         (out (mkStore (repeat xff 16) []) ++ evs ++
          (if dryrun flagsTwo then []
           else [Post (Stitch.slab_url twoRangeConfig 4) b])))
    /\ posts evs = []
    /\ len b = Stitch.sliceBytes twoRangeConfig * blocksize flagsTwo
    /\ (forall d v k,
          In d (Config.Directories twoRangeConfig) ->
          4 <= v <= 4 + blocksize flagsTwo - 1 ->
          SlabDir.BegZ d <= v <= SlabDir.EndZ d ->
          0 <= k < Stitch.sliceBytes twoRangeConfig ->
          byteAt b ((v - 4) * Stitch.sliceBytes twoRangeConfig + k)
          = byteAt (straddleArt d)
              ((v - 4) * Stitch.sliceBytes twoRangeConfig + k)).
Proof.
  apply (covered_slab_is_assembled_and_posted straddleEnv flagsTwo 2
           twoRangeConfig 4 (fun d => stored (straddleArt d)) straddleArt
           (mkStore (repeat xff 16) []));
    try reflexivity; try (vm_compute; intuition discriminate).
  - intros d [<- | [<- | []]]; cbn; lia.
  - intros d [<- | [<- | []]]; reflexivity.
  - intros d [<- | [<- | []]] _; repeat split.
  - intros v Hv. change (blocksize flagsTwo) with 2 in Hv.
    destruct (Z.eq_dec v 4) as [-> | Hne].
    + exists (SlabDir.mk "a" 1 4 "a%d.gz"). split; [now left | cbn; lia].
    + exists (SlabDir.mk "b" 5 8 "b%d.gz").
      split; [right; now left | cbn; lia].
Defined.



(* ================================================================== *)
(** * No slice expression is out of range *)

Section Completes.
Variable I : Store -> Prop.
Hypothesis Iout : forall s e, I s -> I (mkStore (bytebuf s) (out s ++ [e])).

Lemma completes_ret {A} (a : A) : completes I (ret a).
Proof. intros s H. split; [exact H | left; now exists a]. Qed.

Lemma completes_return {A} (e : option error) : completes I (@return_ A e).
Proof. intros s H. split; [exact H | right; now exists e]. Qed.

Lemma completes_emit e : completes I (emit e).
Proof. intros s H. split; [now apply Iout | left; now exists tt]. Qed.

Lemma completes_get : completes I get_bytebuf.
Proof. intros s H. split; [exact H | left; now exists (bytebuf s)]. Qed.

Lemma completes_bind {A B} (m : M A) (f : A -> M B) :
  completes I m -> (forall a, completes I (f a)) -> completes I (bind m f).
Proof.
  intros Hm Hf s H. destruct (Hm s H) as (Hs & [(a & E) | (e & E)]);
    unfold bind; destruct (m s) as [r s']; cbn [fst snd] in *; subst r.
  - apply Hf, Hs.
  - split; [exact Hs | right; now exists e].
Qed.

Lemma completes_forEach {X A} (xs : list X) (body : X -> A -> M A) :
  (forall x a, In x xs -> completes I (body x a)) ->
  forall a, completes I (forEach xs body a).
Proof.
  induction xs as [| x xs IH]; intros Hbody a; cbn [forEach].
  - apply completes_ret.
  - apply completes_bind; [apply Hbody; now left |].
    intros a'. apply IH. intros. apply Hbody. now right.
Qed.

Lemma completes_open env name : completes I (open env name).
Proof.
  unfold open. apply completes_bind; [apply completes_emit | intros _].
  destruct (os_Open env name); [apply completes_ret | apply completes_return].
Qed.

Lemma completes_gunzip env f : completes I (gunzip env f).
Proof.
  unfold gunzip.
  destruct (gzip_ReadAll env f); [apply completes_ret | apply completes_return].
Qed.

Lemma completes_post env url b : completes I (post env url b).
Proof.
  unfold post. apply completes_bind; [apply completes_emit | intros _].
  destruct (http_Post env url b) as [code |];
    [destruct (code =? StatusOK) |];
    first [apply completes_ret | apply completes_return].
Qed.

End Completes.

Ltac comp_step :=
  lazymatch goal with
  | |- completes _ (bind _ _) => apply completes_bind; [| intro]
  | |- completes _ (ret _) => apply completes_ret
  | |- completes _ (return_ _) => apply completes_return
  | |- completes _ (printf _) => apply completes_emit
  | |- completes _ (emit _) => apply completes_emit
  | |- completes _ get_bytebuf => apply completes_get
  | |- completes _ (open _ _) => apply completes_open
  | |- completes _ (gunzip _ _) => apply completes_gunzip
  | |- completes _ (post _ _ _) => apply completes_post
  | |- completes _ (if ?c then _ else _) => destruct c eqn:?
  | |- completes _ (match ?o with _ => _ end) => destruct o eqn:?
  end.

Section StitchCompletes.
Variables (env : Env) (flags : Flags) (fuel : nat) (config : Config.t).
Variable slabBegZ : Z.

Let sB := Stitch.sliceBytes config.
Let bs := blocksize flags.

Hypothesis HsB : 0 <= sB.
Hypothesis Hbs : 0 < bs <= GoInt.max_int.
Hypothesis Hprod : sB * bs <= GoInt.max_int.
Hypothesis Hz : GoInt.min_int <= slabBegZ.
Hypothesis Hzend : slabBegZ + bs <= GoInt.max_int.
Hypothesis Hfuel : bs <= Z.of_nat fuel.

Lemma transferPlanes_completes data begZ endZ zfilled :
  len data = sB * bs ->
  slabBegZ <= begZ -> endZ <= slabBegZ + bs - 1 ->
  completes (fun s => len (bytebuf s) = sB * bs)
    (Stitch.transferPlanes fuel slabBegZ sB data begZ endZ zfilled).
Proof.
  intros Hdata Hb He s Hs.
  destruct (transferPlanes_run flags fuel config slabBegZ HsB Hbs Hprod Hz Hzend
              data begZ endZ zfilled s Hdata Hb He Hs Hfuel)
    as (zf' & s' & Erun & _).
  split; [| left; exists zf'; unfold sB; now rewrite Erun].
  apply (transferPlanes_len fuel config slabBegZ data begZ endZ zfilled
           (sB * bs) s Hs).
Qed.

Lemma stitchDir_completes dir zfilled :
  completes (fun s => len (bytebuf s) = sB * bs)
    (Stitch.stitchDir env flags fuel config slabBegZ dir zfilled).
Proof.
  unfold Stitch.stitchDir. cbv zeta.
  rewrite (slabEndZ_id flags config slabBegZ Hbs Hz Hzend).
  rewrite (mul_id (Stitch.sliceBytes config) (blocksize flags)) by range_lia.
  fold sB. fold bs.
  repeat first
    [ apply transferPlanes_completes
    | comp_step ];
    try (intros; assumption).
  - match goal with
    | H : negb (len _ =? _) = false |- _ =>
        apply negb_false_iff, Z.eqb_eq in H; exact H
    end.
  - destruct (Z.ltb_spec slabBegZ (SlabDir.BegZ dir)); lia.
  - destruct (Z.gtb_spec (slabBegZ + bs - 1) (SlabDir.EndZ dir)); lia.
Qed.

Lemma Stitch_processSlab_completes s :
  len (bytebuf s) = sB * bs ->
  exists e s',
    Stitch.processSlab env flags fuel config slabBegZ s = (Return e, s')
    /\ len (bytebuf s') = sB * bs.
Proof.
  intros Hs. unfold Stitch.processSlab.
  unfold bind at 1. unfold update_bytebuf at 1.
  set (s0 := mkStore (zero_all (bytebuf s)) (out s)).
  assert (H0 : len (bytebuf s0) = sB * bs).
  { subst s0. cbn [bytebuf]. now rewrite len_zero_all. }
  destruct (completes_forEach (fun s => len (bytebuf s) = sB * bs)
              (Config.Directories config)
              (Stitch.stitchDir env flags fuel config slabBegZ)
              (fun d a _ => stitchDir_completes d a) 0 s0 H0)
    as (Hl & Hr).
  unfold bind.
  destruct (forEach (Config.Directories config)
              (Stitch.stitchDir env flags fuel config slabBegZ) 0 s0)
    as [r s'].
  cbn [fst snd] in *.
  destruct Hr as [(a & ->) | (e & ->)];
    [exists None | exists e]; exists s'; split; auto.
Qed.

End StitchCompletes.

(** X14.  The stitching [processSlab] always returns to [main], with [nil]
    or with an error: given a buffer of the slab's length (as [main]
    allocates it) it does not panic, whatever the directories and the
    files are.  The length check on each decompressed artifact is what keeps
    every slice expression of the copy loop within the artifact and the
    buffer; the loop ends within [blocksize] rounds, and the buffer keeps
    its length for the next slab.  (Sizes within Go's [int].) *)
Theorem stitch_processSlab_returns
  (env : Env) (flags : Flags) (fuel : nat) (config : Config.t) (slabBegZ : Z)
  (s : Store) :
  0 <= Stitch.sliceBytes config ->
  0 < blocksize flags <= GoInt.max_int ->
  Stitch.sliceBytes config * blocksize flags <= GoInt.max_int ->
  GoInt.min_int <= slabBegZ ->
  slabBegZ + blocksize flags <= GoInt.max_int ->
  blocksize flags <= Z.of_nat fuel ->
  len (bytebuf s) = Stitch.sliceBytes config * blocksize flags ->
  exists e s',
    Stitch.processSlab env flags fuel config slabBegZ s = (Return e, s')
    /\ len (bytebuf s') = Stitch.sliceBytes config * blocksize flags.
Proof.
  intros. now apply Stitch_processSlab_completes.
Qed.

Lemma stitch_processSlab_returns_witness :
  exists e s',
    Stitch.processSlab straddleEnv flagsTwo 2 twoRangeConfig 4
      (mkStore (repeat xff 16) [])
    = (Return e, s')
    /\ len (bytebuf s')
       = Stitch.sliceBytes twoRangeConfig * blocksize flagsTwo.
Proof.
  apply (stitch_processSlab_returns straddleEnv flagsTwo 2 twoRangeConfig 4
           (mkStore (repeat xff 16) []));
    try reflexivity; vm_compute; intuition discriminate.
Defined.

Section TiledCompletes.
Variables (env : Env) (flags : Flags) (fuel : nat) (config : Config.t).
Variable slabBegZ : Z.

Let X := Config.SizeX config.
Let Y := Config.SizeY config.
Let bs := blocksize flags.

Hypothesis HX : 0 < X.
Hypothesis HY : 0 < Y.
Hypothesis Hbs : 0 < bs.
Hypothesis Hslab : X * 8 * Y * bs <= GoInt.max_int.
Hypothesis Hsend : 8388608 * bs <= GoInt.max_int.
Hypothesis Hf1 : 1024 <= Z.of_nat fuel.
Hypothesis Hf2 : bs <= Z.of_nat fuel.





End TiledCompletes.



(* ================================================================== *)
(** * The loop over the slabs *)

Lemma slabStarts_spec flags config :
  0 < blocksize flags ->
  let n := List.length (slabStarts flags config) in
  (forall k, (k < n)%nat ->
     Config.BegZ config + Z.of_nat k * blocksize flags <= Config.EndZ config)
  /\ Config.EndZ config < Config.BegZ config + Z.of_nat n * blocksize flags
  /\ (n = 0%nat \/
      Config.BegZ config + Z.of_nat n * blocksize flags
      <= Config.EndZ config + blocksize flags).
Proof.
  intros Hbs. unfold slabStarts, steps. rewrite length_map, length_seq.
  set (B := Config.BegZ config). set (E := Config.EndZ config).
  set (bs := blocksize flags) in *.
  pose proof (Z.div_mod (E - B + bs) bs ltac:(lia)) as D.
  pose proof (Z.mod_pos_bound (E - B + bs) bs Hbs) as M.
  set (q := (E - B + bs) / bs) in *. cbv zeta.
  destruct (Z_lt_le_dec q 0) as [Hneg | Hpos].
  - replace (Z.to_nat q) with 0%nat by lia.
    split; [intros; lia |]. split; [nia | now left].
  - rewrite Z2Nat.id by lia.
    split; [intros k Hk; nia |]. split; [nia | right; nia].
Qed.

(** With a positive block size, no wrap-around and fuel for its rounds, the
    loop of [main] is the iteration over [slabStarts]. *)
Lemma slabLoop_steps flags fuel config (processSlab : Z -> M unit) s :
  0 < blocksize flags ->
  GoInt.in_range (Config.BegZ config) ->
  Config.EndZ config + blocksize flags <= GoInt.max_int ->
  (List.length (slabStarts flags config) <= fuel)%nat ->
  slabLoop flags fuel config processSlab s
  = forEach (slabStarts flags config)
      (fun slabBegZ _ => slabStep processSlab slabBegZ) tt s.
Proof.
  intros Hbs HB HE Hfuel.
  destruct (slabStarts_spec flags config Hbs) as (Hin & Hout & Hlast).
  unfold slabLoop, slabStarts in *. unfold steps in Hfuel, Hin, Hout, Hlast.
  rewrite length_map, length_seq in Hfuel, Hin, Hout, Hlast.
  apply for_steps.
  - exact Hfuel.
  - intros k Hk. apply Z.leb_le. now apply Hin.
  - apply Z.leb_gt. exact Hout.
  - intros k Hk. rewrite in_range_bounds in *.
    unfold GoInt.max_int in *. change (2 ^ 63) with 9223372036854775808 in *.
    destruct Hlast as [H0 | Hl]; [lia |].
    destruct (Nat.eq_dec k 0) as [-> | Hk0]; [lia |].
    specialize (Hin (k - 1)%nat ltac:(lia)). nia.
Qed.

(** Every slab that the loop processes begins within the volume. *)
Lemma slabStarts_in flags config z :
  0 < blocksize flags ->
  In z (slabStarts flags config) ->
  Config.BegZ config <= z <= Config.EndZ config.
Proof.
  intros Hbs Hz.
  destruct (slabStarts_spec flags config Hbs) as (Hin & _).
  unfold slabStarts in *. apply in_steps in Hz as (k & Hk & ->).
  unfold steps in Hin. rewrite length_map, length_seq in Hin.
  specialize (Hin k Hk). nia.
Qed.

(** X16.  The slabs [main] processes: with a positive block size (and no
    wrap-around of the loop counter) the loop over the slabs calls
    [processSlab] for the planes [BegZ], [BegZ + blocksize],
    [BegZ + 2 * blocksize], ... that do not exceed [EndZ], in ascending
    order, each call followed by the check of its result; when [EndZ] is
    below [BegZ] no slab is processed.  The slabs are aligned to the
    volume's [BegZ], and the last one may reach beyond [EndZ]. *)
Theorem main_visits_slabStarts flags fuel config (processSlab : Z -> M unit) s :
  0 < blocksize flags ->
  GoInt.in_range (Config.BegZ config) ->
  Config.EndZ config + blocksize flags <= GoInt.max_int ->
  (List.length (slabStarts flags config) <= fuel)%nat ->
  slabLoop flags fuel config processSlab s
  = forEach (slabStarts flags config)
      (fun slabBegZ _ => slabStep processSlab slabBegZ) tt s
  /\ (forall z, In z (slabStarts flags config) <->
        exists k, 0 <= k /\ z = Config.BegZ config + k * blocksize flags
                  /\ z <= Config.EndZ config)
  /\ (Config.EndZ config < Config.BegZ config -> slabStarts flags config = []).
Proof.
  intros Hbs HB HE Hfuel.
  split; [now apply slabLoop_steps |].
  destruct (slabStarts_spec flags config Hbs) as (Hin & Hout & _).
  cbv zeta in Hin, Hout. split.
  - intros z. split.
    + intros Hz. pose proof (slabStarts_in flags config z Hbs Hz).
      unfold slabStarts in Hz. apply in_steps in Hz as (k & Hk & ->).
      exists (Z.of_nat k). split; [lia |]. split; [reflexivity | lia].
    + intros (k & Hk & -> & Hle).
      unfold slabStarts at 1. apply in_steps. exists (Z.to_nat k).
      rewrite Z2Nat.id by lia. split; [| reflexivity].
      unfold slabStarts, steps in Hout.
      rewrite length_map, length_seq in Hout.
      unfold slabStarts, steps in Hin. rewrite length_map, length_seq in Hin.
      nia.
  - intros Hlt. destruct (slabStarts flags config) as [| z zs] eqn:E;
      [reflexivity |].
    specialize (Hin 0%nat ltac:(cbn; lia)). lia.
Qed.

(* ================================================================== *)
(** * [main] ends normally or with status 1 *)








(* ================================================================== *)
(** * The slabs in the log of the tiling variant *)








Lemma main_visits_slabStarts_witness :
  slabLoop flagsTwo 4 twoRangeConfig
    (Stitch.processSlab straddleEnv flagsTwo 4 twoRangeConfig) start
  = forEach (slabStarts flagsTwo twoRangeConfig)
      (fun slabBegZ _ =>
         slabStep (Stitch.processSlab straddleEnv flagsTwo 4 twoRangeConfig)
           slabBegZ) tt start
  /\ (forall z, In z (slabStarts flagsTwo twoRangeConfig) <->
        exists k, 0 <= k
                  /\ z = Config.BegZ twoRangeConfig + k * blocksize flagsTwo
                  /\ z <= Config.EndZ twoRangeConfig)
  /\ (Config.EndZ twoRangeConfig < Config.BegZ twoRangeConfig ->
      slabStarts flagsTwo twoRangeConfig = []).
Proof.
  apply (main_visits_slabStarts flagsTwo 4 twoRangeConfig
           (Stitch.processSlab straddleEnv flagsTwo 4 twoRangeConfig) start);
    try reflexivity; try (vm_compute; lia);
    vm_compute; intuition discriminate.
Defined.

(* ================================================================== *)
(** * How [main] ends the process *)

Lemma exitsTidy_quiet {A} (m : M A) :
  (forall s, (exists evs, out (snd (m s)) = out s ++ evs)
             /\ forall c, fst (m s) <> Exit c) ->
  exitsTidy m.
Proof.
  intros H s. destruct (H s) as ((evs & E) & N). exists evs.
  split; [exact E |]. intros c Hc. now contradiction (N c).
Qed.

Lemma exitsTidy_ret {A} (a : A) : exitsTidy (ret a).
Proof.
  apply exitsTidy_quiet. intros s. split; [| discriminate].
  exists []. now rewrite app_nil_r.
Qed.

Lemma exitsTidy_return {A} (e : option error) : exitsTidy (@return_ A e).
Proof.
  apply exitsTidy_quiet. intros s. split; [| discriminate].
  exists []. now rewrite app_nil_r.
Qed.

Lemma exitsTidy_OutOfFuel {A} : exitsTidy (@stop A OutOfFuel).
Proof.
  apply exitsTidy_quiet. intros s. split; [| discriminate].
  exists []. now rewrite app_nil_r.
Qed.

Lemma exitsTidy_get : exitsTidy get_bytebuf.
Proof.
  apply exitsTidy_quiet. intros s. split; [| discriminate].
  exists []. now rewrite app_nil_r.
Qed.

Lemma exitsTidy_emit e : exitsTidy (emit e).
Proof.
  apply exitsTidy_quiet. intros s. split; [| discriminate]. now exists [e].
Qed.

Lemma exitsTidy_update f : exitsTidy (update_bytebuf f).
Proof.
  apply exitsTidy_quiet. intros s. unfold update_bytebuf.
  destruct (f (bytebuf s)); (split; [| discriminate]);
    exists []; now rewrite app_nil_r.
Qed.

Lemma exitsTidy_bind {A B} (m : M A) (f : A -> M B) :
  exitsTidy m -> (forall a, exitsTidy (f a)) -> exitsTidy (bind m f).
Proof.
  intros Hm Hf s. destruct (Hm s) as (evs & E & Hx). unfold bind.
  destruct (m s) as [[a | e | c | |] s'] eqn:Em; cbn [fst snd] in *;
    try (exists evs; split; [exact E |]; intros c' Hc';
         first [discriminate | injection Hc' as <-; exact (Hx c eq_refl)]).
  destruct (Hf a s') as (evs2 & E2 & Hx2).
  exists (evs ++ evs2). rewrite E2, E, app_assoc. split; [reflexivity |].
  intros c Hc. destruct (Hx2 c Hc) as (-> & evs' & line & -> & Hl).
  split; [reflexivity |]. exists (evs ++ evs'), line.
  rewrite app_assoc. auto.
Qed.

(** A line of [exitLine] followed by [os.Exit(1)]. *)
Lemma exitsTidy_exit {A} line :
  exitLine line -> exitsTidy (printf line ;; @exit A 1).
Proof.
  intros Hl s. exists [Printf line]. split; [reflexivity |].
  intros c Hc. cbn in Hc. injection Hc as <-.
  split; [reflexivity |]. exists [], line. auto.
Qed.

Lemma exitsTidy_for {A} fuel cond step (body : Z -> A -> M A) :
  (forall i a, exitsTidy (body i a)) ->
  forall i a, exitsTidy (for_ fuel cond step body i a).
Proof.
  intros Hbody. induction fuel as [| fuel IH]; intros i a; cbn [for_];
    destruct (cond i);
    try apply exitsTidy_OutOfFuel; try apply exitsTidy_ret.
  apply exitsTidy_bind; auto.
Qed.

Lemma exitsTidy_forEach {X A} (xs : list X) (body : X -> A -> M A) :
  (forall x a, exitsTidy (body x a)) ->
  forall a, exitsTidy (forEach xs body a).
Proof.
  intros Hbody. induction xs as [| x xs IH]; intros a; cbn [forEach].
  - apply exitsTidy_ret.
  - apply exitsTidy_bind; auto.
Qed.

Lemma exitsTidy_call (m : M unit) : exitsTidy m -> exitsTidy (call m).
Proof.
  intros Hm s. destruct (Hm s) as (evs & E & Hx). exists evs. unfold call.
  destruct (m s) as [[a | e | c | |] s']; cbn [fst snd] in *;
    (split; [exact E |]); intros c' Hc';
    first [discriminate | injection Hc' as <-; exact (Hx c eq_refl)].
Qed.

Ltac tidy_step :=
  lazymatch goal with
  | |- exitsTidy (bind (printf _) (fun _ => exit 1)) =>
      apply exitsTidy_exit; exact Logic.I
  | |- exitsTidy (bind _ _) => apply exitsTidy_bind; [| intro]
  | |- exitsTidy (ret _) => apply exitsTidy_ret
  | |- exitsTidy (return_ _) => apply exitsTidy_return
  | |- exitsTidy (printf _) => apply exitsTidy_emit
  | |- exitsTidy (emit _) => apply exitsTidy_emit
  | |- exitsTidy get_bytebuf => apply exitsTidy_get
  | |- exitsTidy (update_bytebuf _) => apply exitsTidy_update
  | |- exitsTidy (for_ _ _ _ _ _ _) => apply exitsTidy_for; intros
  | |- exitsTidy (forEach _ _ _) => apply exitsTidy_forEach; intros
  | |- exitsTidy (call _) => apply exitsTidy_call
  | |- exitsTidy (open _ _) => unfold open
  | |- exitsTidy (gunzip _ _) => unfold gunzip
  | |- exitsTidy (post _ _ _) => unfold post
  | |- exitsTidy (if ?c then _ else _) => destruct c eqn:?
  | |- exitsTidy (match ?o with _ => _ end) => destruct o eqn:?
  end.

(** X20.  When either program ends itself after the configuration is
    read, it is with exit status 1, and the last thing it did was to print
    the reason: the usage text after "no directories", the thickness
    mismatch, the directory that is out of order, or the error that
    [processSlab] returned for a slab.  Nothing is opened, POSTed or printed
    between that line and the exit; no other status is used. *)
Theorem main_exits_with_status_1_after_its_message env flags fuel config :
  exitsTidy (Tiled.main env flags fuel config)
  /\ exitsTidy (Stitch.main env flags fuel config).
Proof.
  split.
  - unfold Tiled.main, validate, checkDirectories, checkDirectory, slabLoop,
      Tiled.processSlab, Tiled.slabFromDir, forTiles, Tiled.sendTile,
      Tiled.copyRow.
    cbv zeta. repeat tidy_step.
  - unfold Stitch.main, validate, checkDirectories, checkDirectory, slabLoop,
      Stitch.processSlab, Stitch.stitchDir, Stitch.transferPlanes.
    cbv zeta. repeat tidy_step.
Qed.

(* ================================================================== *)
(** * The number of tiles *)

Lemma length_flat_map_const {X T} (f : X -> list T) (n : nat) (xs : list X) :
  (forall x, List.length (f x) = n) ->
  List.length (flat_map f xs) = (List.length xs * n)%nat.
Proof.
  intros Hf. induction xs as [| x xs IH]; cbn [flat_map List.length];
    [reflexivity |].
  rewrite length_app, Hf, IH. lia.
Qed.

(** X21.  The tiling loops of src/main.go lines 209-224, run to their end,
    visit [ceil(extentX / maxEdge) * ceil(extentY / maxEdge)] tiles.  (As
    for the partition: positive extents and edge, no wrap-around of the
    loop counters, fuel for the rounds.) *)
Theorem tileGrid_count (fuel : nat) (extentX extentY maxEdge : Z) :
  0 < extentX -> 0 < extentY -> 0 < maxEdge ->
  extentX + maxEdge <= GoInt.max_int ->
  extentY + maxEdge <= GoInt.max_int ->
  extentX / maxEdge < Z.of_nat fuel ->
  extentY / maxEdge < Z.of_nat fuel ->
  exists tiles,
    tileGrid fuel extentX extentY maxEdge = Some tiles
    /\ Z.of_nat (List.length tiles)
       = ((extentX + maxEdge - 1) / maxEdge)
         * ((extentY + maxEdge - 1) / maxEdge).
Proof.
  intros HX HY HE HXr HYr FX FY.
  exists (grid extentX extentY maxEdge).
  split; [now apply tileGrid_grid |].
  unfold grid.
  rewrite (length_flat_map_const _ (rounds maxEdge extentX)).
  2:{ intros y. unfold steps. now rewrite !length_map, length_seq. }
  unfold steps. rewrite length_map, length_seq. unfold rounds.
  assert (0 <= (extentX + maxEdge - 1) / maxEdge)
    by (apply Z.div_pos; lia).
  assert (0 <= (extentY + maxEdge - 1) / maxEdge)
    by (apply Z.div_pos; lia).
  lia.
Qed.

Lemma tileGrid_count_witness :
  exists tiles,
    tileGrid 3 1500 1000 1024 = Some tiles
    /\ Z.of_nat (List.length tiles)
       = ((1500 + 1024 - 1) / 1024) * ((1000 + 1024 - 1) / 1024).
Proof.
  apply (tileGrid_count 3 1500 1000 1024);
    first [ reflexivity | unfold GoInt.max_int; lia ].
Defined.

(* ================================================================== *)
(** * A block size of zero *)

(** A loop whose counter does not move and whose body falls through uses up
    any fuel. *)
Lemma for_stuck {A} cond step (body : Z -> A -> M A) i :
  cond i = true -> step i = i ->
  (forall a s, exists a' s', body i a s = (Next a', s')) ->
  forall fuel a s, fst (for_ fuel cond step body i a s) = OutOfFuel.
Proof.
  intros Hc Hs Hbody. induction fuel as [| fuel IH]; intros a s;
    cbn [for_]; rewrite Hc; [reflexivity |].
  destruct (Hbody a s) as (a' & s' & E).
  rewrite (bind_Next _ _ _ _ _ E), Hs. apply IH.
Qed.

Lemma slabLoop_stuck flags fuel config (processSlab : Z -> M unit) s :
  blocksize flags = 0 ->
  GoInt.in_range (Config.BegZ config) ->
  Config.BegZ config <= Config.EndZ config ->
  (forall s0, exists s', processSlab (Config.BegZ config) s0
                         = (Return None, s')) ->
  fst (slabLoop flags fuel config processSlab s) = OutOfFuel.
Proof.
  intros Hbs HB Hle Hp. unfold slabLoop. apply for_stuck.
  - now apply Z.leb_le.
  - rewrite Hbs. unfold GoInt.add. rewrite Z.add_0_r. now apply wrap_id.
  - intros [] s0. destruct (Hp s0) as (s' & E). exists tt, s'.
    unfold bind, call. rewrite E. reflexivity.
Qed.

(** X22.  Nothing guards against [-blocksize 0]: with a configuration whose
    [Thickness] is 0 as well, so that the checks pass, and whose volume
    begins at a plane that no directory's test of line 177 (174) accepts,
    the slab loop's counter never moves, [processSlab] returns [nil] for
    the same slab again and again, and neither program ends: a run uses up
    any fuel. *)
Theorem zero_blocksize_never_ends env flags config s :
  blocksize flags = 0 ->
  fst (validate flags config s) = Next tt ->
  GoInt.in_range (Config.BegZ config) ->
  Config.BegZ config <= Config.EndZ config ->
  (forall d, In d (Config.Directories config) ->
     misses flags (Config.BegZ config) d = true) ->
  forall fuel,
    fst (Tiled.main env flags fuel config s) = OutOfFuel
    /\ fst (Stitch.main env flags fuel config s) = OutOfFuel.
Proof.
  intros Hbs Hv HB Hle Hmiss fuel.
  pose proof (validate_spec flags config s) as Hs. unfold wp in Hs.
  destruct (validate flags config s) as [r s1] eqn:Ev. cbn [fst snd] in *.
  subst r. destruct Hs as (_ & _ & Ht & _).
  unfold Tiled.main, Stitch.main. rewrite !(bind_Next _ _ _ _ _ Ev). split.
  - apply slabLoop_stuck; try assumption.
    intros s0. eexists.
    apply (processSlab_skips env flags fuel config _ s0 Hmiss).
  - assert (Em :
      update_bytebuf
        (fun _ => make (Config.SizeX config .* Config.SizeY config
                        .* Config.Thickness config .* 8)) s1
      = (Next tt, mkStore [] (out s1))).
    { unfold update_bytebuf. rewrite Ht, Hbs.
      replace (Config.SizeX config .* Config.SizeY config .* 0) with 0
        by (unfold GoInt.mul at 1; now rewrite Z.mul_0_r).
      reflexivity. }
    rewrite (bind_Next _ _ _ _ _ Em).
    apply slabLoop_stuck; try assumption.
    intros s0. eexists.
    apply (processSlab_skips env flags fuel config _ s0 Hmiss).
Qed.

Lemma zero_blocksize_never_ends_witness :
  fst (Tiled.main cwdEnv flagsZero 1000 zeroThicknessConfig start) = OutOfFuel
  /\ fst (Stitch.main cwdEnv flagsZero 1000 zeroThicknessConfig start)
     = OutOfFuel.
Proof.
  apply (zero_blocksize_never_ends cwdEnv flagsZero zeroThicknessConfig start
           eq_refl eq_refl);
    [ vm_compute; intuition discriminate
    | vm_compute; discriminate
    | intros d [<- | [<- | []]]; reflexivity ].
Defined.
